(** * StreamrDrive: the control protocol engine

    A shallow embedding of [message-controller.js] (the message classifier
    and its history) and of [streamr-drive.js] (the command dispatcher, the
    file operation handlers, the chunk progress aggregator and the cleanup
    of the temp folder), followed by the properties of the engine's
    specification and by further properties of the code.

    JavaScript values are an inductive type, numbers are IEEE binary64
    (Rocq's primitive floats), effects are threaded through a small
    state-and-exception monad in which a thrown error keeps the state
    reached so far, as a JavaScript exception does. *)

From Stdlib Require Import String Ascii List ZArith NArith Bool Lia Floats.
From Stdlib Require Import DecimalString.
From Stdlib.Strings Require Import Byte.
Import ListNotations.
Set Warnings "-register-all".
Local Open Scope string_scope.
Local Open Scope list_scope.

(** ** JavaScript values *)

Inductive JsVal : Type :=
| JUndefined
| JNull
| JBool (b : bool)
| JNum (x : float)
| JStr (s : string)
| JArr (items : list JsVal)
| JObj (props : list (string * JsVal)).

(** An object literal: its own properties, in insertion order. *)
Definition JsObject : Type := list (string * JsVal).

Fixpoint lookup (k : string) (o : JsObject) : option JsVal :=
  match o with
  | [] => None
  | (k', v) :: rest => if String.eqb k k' then Some v else lookup k rest
  end.

(** [o.k] on an object: [undefined] when the property is absent. *)
Definition field (o : JsObject) (k : string) : JsVal :=
  match lookup k o with
  | Some v => v
  | None => JUndefined
  end.

(** [v.k] on a value known not to be [null] or [undefined], for the keys the
    engine reads ([action], [path], [fileName], ...): none of them is found on
    the prototype of a string, number, boolean or array. *)
Definition prop (v : JsVal) (k : string) : JsVal :=
  match v with
  | JObj o => field o k
  | _ => JUndefined
  end.

(** ToBoolean. *)
Definition truthy (v : JsVal) : bool :=
  match v with
  | JUndefined | JNull => false
  | JBool b => b
  | JNum x => negb (PrimFloat.eqb x 0%float || PrimFloat.is_nan x)
  | JStr s => negb (String.eqb s "")
  | JArr _ | JObj _ => true
  end.

(** [a || b]. *)
Definition js_or (a b : JsVal) : JsVal := if truthy a then a else b.

(** [v === "s"] for a string literal [s]. *)
Definition is_str (s : string) (v : JsVal) : bool :=
  match v with
  | JStr s' => String.eqb s' s
  | _ => false
  end.

(** [arr.includes(v)] for an array of string literals. *)
Definition includes (arr : list string) (v : JsVal) : bool :=
  existsb (fun s => is_str s v) arr.

(** ** Results and the state-and-exception monad *)

Inductive result (A : Type) : Type :=
| Ok (a : A)
| Throw (message : string).
Arguments Ok {A} a.
Arguments Throw {A} message.

Definition M (S A : Type) : Type := S -> result A * S.

Definition ret {S A : Type} (a : A) : M S A := fun s => (Ok a, s).

Definition throw {S A : Type} (message : string) : M S A :=
  fun s => (Throw message, s).

Definition bind {S A B : Type} (m : M S A) (k : A -> M S B) : M S B :=
  fun s =>
    match m s with
    | (Ok a, s') => k a s'
    | (Throw e, s') => (Throw e, s')
    end.

(** [try { body } catch (error) { handler(error.message) }]. *)
Definition try_catch {S A : Type} (body : M S A) (handler : string -> M S A) : M S A :=
  fun s =>
    match body s with
    | (Ok a, s') => (Ok a, s')
    | (Throw e, s') => handler e s'
    end.

(** The outcome of a computation, observed without propagating its error. *)
Definition attempt {S A : Type} (m : M S A) : M S (result A) :=
  fun s => let '(r, s') := m s in (Ok r, s').

Definition lift_result {S A : Type} (r : result A) : M S A := fun s => (r, s).

Declare Scope js_scope.
Delimit Scope js_scope with js.
Notation "x <- m ;; k" := (bind m (fun x => k))
  (at level 61, m at next level, right associativity) : js_scope.
Notation "m ;; k" := (bind m (fun _ => k))
  (at level 61, right associativity) : js_scope.
Local Open Scope js_scope.

(** ** Numbers: the operations of [handleChunkUpdate] on binary64 *)

Module Num.

Definition of_Z (z : Z) : float :=
  SF2Prim (binary_normalize prec emax z 0 false).

Definition of_nat (n : nat) : float := of_Z (Z.of_nat n).

Definition signed_zero (negative : bool) : float :=
  if negative then (-0)%float else 0%float.

Definition is_finite (x : float) : bool :=
  match Prim2SF x with
  | S754_zero _ | S754_finite _ _ _ => true
  | _ => false
  end.

(** An integral Number: a zero, or a finite [m * 2^e] without fraction. *)
Definition is_integral (x : float) : bool :=
  match Prim2SF x with
  | S754_zero _ => true
  | S754_finite _ m e => ((0 <=? e) || (Z.pos m mod 2 ^ (- e) =? 0))%Z
  | _ => false
  end.

(** [Math.round(x)] (ECMA-262): a number that is not finite or is integral
    is returned as it is; otherwise the integral number closest to [x],
    the one closer to +infinity in a tie, which is [floor(x + 1/2)] taken
    exactly; a result of zero keeps the sign of [x]. *)
Definition Math_round (x : float) : float :=
  if negb (is_finite x) || is_integral x then x
  else
    match Prim2SF x with
    | S754_finite s m e =>
        let d := (2 ^ (- e))%Z in
        let q := ((2 * cond_Zopp s (Z.pos m) + d) / (2 * d))%Z in
        if (q =? 0)%Z then signed_zero s else of_Z q
    | _ => x
    end.

(** [x % y] (ECMA-262 Number::remainder): the exact remainder of the
    truncating division, with the sign of [x]. *)
Definition rem (x y : float) : float :=
  match Prim2SF x, Prim2SF y with
  | S754_nan, _ | _, S754_nan => nan
  | S754_infinity _, _ => nan
  | _, S754_zero _ => nan
  | S754_zero _, _ => x
  | S754_finite _ _ _, S754_infinity _ => x
  | S754_finite sx mx ex, S754_finite _ my ey =>
      let e := Z.min ex ey in
      let r := ((Z.pos mx * 2 ^ (ex - e)) mod (Z.pos my * 2 ^ (ey - e)))%Z in
      if (r =? 0)%Z then signed_zero sx
      else SF2Prim (binary_normalize prec emax (cond_Zopp sx r) e false)
  end.

(** [x === y] on numbers. *)
Definition strict_eq (x y : float) : bool := PrimFloat.eqb x y.

End Num.

(** ** Base64, as [Buffer.from(s, 'base64')] and [buf.toString('base64')] *)

Module Base64.

Local Open Scope N_scope.

Definition alphabet : string :=
  "ABCDEFGHIJKLMNOPQRSTUVWXYZabcdefghijklmnopqrstuvwxyz0123456789+/".

Definition pad : ascii := "="%char.

Definition char_of_sextet (n : N) : ascii :=
  match String.get (N.to_nat n) alphabet with
  | Some c => c
  | None => pad
  end.

(** The decoder's table: the standard alphabet and the URL-safe [-] and
    [_]; every other character is not a digit. *)
Definition unbase64 (c : ascii) : option N :=
  let n := N_of_ascii c in
  if ((65 <=? n) && (n <=? 90))%N then Some (n - 65)%N
  else if ((97 <=? n) && (n <=? 122))%N then Some (n - 71)%N
  else if ((48 <=? n) && (n <=? 57))%N then Some (n + 4)%N
  else if ((n =? 43) || (n =? 45))%N then Some 62%N
  else if ((n =? 47) || (n =? 95))%N then Some 63%N
  else None.

Definition byte_of_N (n : N) : byte :=
  match Byte.of_N (n mod 256) with
  | Some b => b
  | None => x00
  end.

(** [buf.toString('base64')]: three bytes give four digits, a last group
    of one or two bytes is padded with [=]. *)
Fixpoint encode (bytes : list byte) : string :=
  match bytes with
  | [] => ""
  | [a] =>
      let a := Byte.to_N a in
      String (char_of_sextet (a / 4))
        (String (char_of_sextet ((a mod 4) * 16))
           (String pad (String pad "")))
  | [a; b] =>
      let a := Byte.to_N a in
      let b := Byte.to_N b in
      String (char_of_sextet (a / 4))
        (String (char_of_sextet ((a mod 4) * 16 + b / 16))
           (String (char_of_sextet ((b mod 16) * 4))
              (String pad "")))
  | a :: b :: c :: rest =>
      let a := Byte.to_N a in
      let b := Byte.to_N b in
      let c := Byte.to_N c in
      String (char_of_sextet (a / 4))
        (String (char_of_sextet ((a mod 4) * 16 + b / 16))
           (String (char_of_sextet ((b mod 16) * 4 + c / 64))
              (String (char_of_sextet (c mod 64)) (encode rest))))
  end.

(** The digits of a string as the decoder reads them: a character that is
    not a digit is skipped, the first [=] ends the input. *)
Fixpoint sextets (s : string) : list N :=
  match s with
  | EmptyString => []
  | String c rest =>
      if Ascii.eqb c pad then []
      else
        match unbase64 c with
        | Some v => v :: sextets rest
        | None => sextets rest
        end
  end.

(** Four digits give three bytes; a last group of two or three digits
    gives one or two bytes, a single left-over digit gives none. *)
Fixpoint bytes_of_sextets (l : list N) : list byte :=
  match l with
  | a :: b :: c :: d :: rest =>
      byte_of_N (a * 4 + b / 16)
        :: byte_of_N ((b mod 16) * 16 + c / 4)
        :: byte_of_N ((c mod 4) * 64 + d)
        :: bytes_of_sextets rest
  | [a; b; c] =>
      [byte_of_N (a * 4 + b / 16); byte_of_N ((b mod 16) * 16 + c / 4)]
  | [a; b] => [byte_of_N (a * 4 + b / 16)]
  | _ => []
  end.

Definition decode (s : string) : list byte := bytes_of_sextets (sextets s).

End Base64.

(** ** [path.join] (POSIX) *)

Module Path.

Definition slash : ascii := "/"%char.

(** The segments between the separators of a path. *)
Fixpoint split (s : string) : list string :=
  match s with
  | EmptyString => [EmptyString]
  | String c rest =>
      if Ascii.eqb c slash then EmptyString :: split rest
      else
        match split rest with
        | seg :: segs => String c seg :: segs
        | [] => [String c EmptyString]
        end
  end.

(** One step of [normalizeString]: the retained segments, last first. An
    empty segment and [.] are dropped; [..] removes the last retained
    segment unless there is none or it is [..] itself, in which case it is
    kept when the path may climb above its root. *)
Definition push_segment (allowAboveRoot : bool) (stack : list string) (seg : string)
  : list string :=
  if String.eqb seg "" then stack
  else if String.eqb seg "." then stack
  else if String.eqb seg ".." then
    match stack with
    | top :: below =>
        if String.eqb top ".." then (if allowAboveRoot then seg :: stack else stack)
        else below
    | [] => if allowAboveRoot then [seg] else []
    end
  else seg :: stack.

Definition normalizeString (path : string) (allowAboveRoot : bool) : string :=
  String.concat "/" (rev (fold_left (push_segment allowAboveRoot) (split path) [])).

Definition starts_with_slash (s : string) : bool :=
  match s with
  | String c _ => Ascii.eqb c slash
  | EmptyString => false
  end.

Fixpoint ends_with_slash (s : string) : bool :=
  match s with
  | EmptyString => false
  | String c EmptyString => Ascii.eqb c slash
  | String _ rest => ends_with_slash rest
  end.

Definition normalize (path : string) : string :=
  if String.eqb path "" then "."
  else
    let isAbsolute := starts_with_slash path in
    let trailingSeparator := ends_with_slash path in
    let p := normalizeString path (negb isAbsolute) in
    if String.eqb p "" then
      if isAbsolute then "/" else if trailingSeparator then "./" else "."
    else
      let p := if trailingSeparator then (p ++ "/")%string else p in
      if isAbsolute then ("/" ++ p)%string else p.

Definition nonempty (s : string) : bool := negb (String.eqb s "").

(** [path.join] on arguments that are all strings. *)
Definition join_strings (args : list string) : string :=
  match filter nonempty args with
  | [] => "."
  | parts => normalize (String.concat "/" parts)
  end.

End Path.

(** ** message-controller.js *)

Module MessageController.

Definition SUPPORTED_MESSAGE_TYPES : list string := ["image"; "text"; "file"].

(** The controller's fields, and the events it has emitted to its
    listeners (name and payload), oldest first. *)
Record t : Type := {
  deviceId : JsVal;
  receivedMessages : list JsObject;
  sentMessages : list JsObject;
  emitted : list (string * JsVal)
}.

Definition constructor (config_deviceId : JsVal) : t :=
  {| deviceId := config_deviceId;
     receivedMessages := [];
     sentMessages := [];
     emitted := [] |}.

Definition emit (event : string) (payload : JsVal) : M t unit :=
  fun c =>
    (Ok tt,
     {| deviceId := deviceId c;
        receivedMessages := receivedMessages c;
        sentMessages := sentMessages c;
        emitted := emitted c ++ [(event, payload)] |}).

Definition this_deviceId : M t JsVal := fun c => (Ok (deviceId c), c).

Definition push_received (msg : JsObject) : M t unit :=
  fun c =>
    (Ok tt,
     {| deviceId := deviceId c;
        receivedMessages := receivedMessages c ++ [msg];
        sentMessages := sentMessages c;
        emitted := emitted c |}).

Definition unshift_sent (msg : JsObject) : M t unit :=
  fun c =>
    (Ok tt,
     {| deviceId := deviceId c;
        receivedMessages := receivedMessages c;
        sentMessages := msg :: sentMessages c;
        emitted := emitted c |}).

Definition when (b : bool) (m : M t unit) : M t unit := if b then m else ret tt.

Definition receiveHandler (msg : JsObject) : M t unit :=
  push_received msg ;;
  emit "message" (JObj msg) ;;
  when (is_str "image" (field msg "type")) (emit "image" (JObj msg)) ;;
  when (is_str "text" (field msg "type")) (emit "text" (JObj msg)) ;;
  when (is_str "file" (field msg "type")) (emit "file" (JObj msg)).

Definition getLatestMessage (c : t) : option JsObject :=
  last (map Some (receivedMessages c)) None.

Definition getLatest (type : string) (c : t) : option JsObject :=
  last (map Some (filter (fun m => is_str type (field m "type")) (receivedMessages c))) None.

Definition getLatestImage (c : t) : option JsObject := getLatest "image" c.

Definition getLatestText (c : t) : option JsObject := getLatest "text" c.

Definition getLatestFile (c : t) : option JsObject := getLatest "file" c.

Definition uploadFile (msg : JsObject) : M t unit :=
  try_catch
    (d <- this_deviceId ;;
     emit "publish"
       (JObj [("type", JStr "file");
              ("fileName", field msg "fileName");
              ("fileSize", field msg "fileSize");
              ("body", field msg "body");
              ("deviceId", d)]))
    (fun err => throw err).

Definition uploadImage (base64image : JsVal) : M t unit :=
  d <- this_deviceId ;;
  emit "publish"
    (JObj [("type", JStr "image"); ("body", base64image); ("deviceId", d)]).

Definition uploadText (text : JsVal) : M t unit :=
  d <- this_deviceId ;;
  emit "publish"
    (JObj [("type", JStr "text"); ("body", text); ("deviceId", d)]).

Definition upload (msg : JsObject) : M t unit :=
  if negb (includes SUPPORTED_MESSAGE_TYPES (field msg "type")) then
    throw "unknown content type"
  else
    unshift_sent msg ;;
    if is_str "image" (field msg "type") then uploadImage (field msg "body")
    else if is_str "text" (field msg "type") then uploadText (field msg "body")
    else if is_str "file" (field msg "type") then uploadFile msg
    else ret tt.

End MessageController.

(** ** The host and the storage backend *)

(** The built-ins the engine calls and that are given by the JavaScript
    host: the JSON codec, [parseFloat], the clock, and the messages of the
    errors the host raises. *)
Class Host : Type := {
  JSON_parse : JsVal -> result JsVal;
  JSON_stringify : JsVal -> string;
  parseFloat : JsVal -> float;
  (* [Date.now()], read once, by [handlePing] *)
  Date_now : float;
  (* the TypeError of [path.join] on an argument that is not a string *)
  invalid_path_argument : JsVal -> string;
  (* [Buffer.from(v, 'base64')] on a value that is not a string *)
  Buffer_from_value : JsVal -> result (list byte)
}.

Record Stats : Type := {
  size : nat;
  isDirectory : bool;
  birthtime : JsVal;
  mtime : JsVal
}.

Record Dirent : Type := {
  name : string;
  dirent_isDirectory : bool
}.

(** [fs/promises], as far as the engine uses it. A query leaves the storage
    as it is; an update returns the storage it leaves, also when it fails. *)
Class StorageBackend (FS : Type) : Type := {
  fs_access : string -> FS -> result unit;
  fs_stat : string -> FS -> result Stats;
  fs_readdir : string -> FS -> result (list Dirent);
  fs_readFile : string -> FS -> result (list byte);
  fs_mkdir_recursive : string -> FS -> result unit * FS;
  fs_writeFile : string -> list byte -> FS -> result unit * FS;
  fs_unlink : string -> FS -> result unit * FS;
  fs_rm_recursive : string -> FS -> result unit * FS;
  fs_rename : string -> string -> FS -> result unit * FS
}.

(** What the engine relies on from the backend for the round trip of a file
    and for the idempotence of [mkdir]: a file that was written is there, is
    read back byte for byte and has the length written; creating a directory
    that [mkdir -p] has just created succeeds and changes nothing. *)
Class StorageLaws (FS : Type) `{StorageBackend FS} : Prop := {
  write_then_read :
    forall p data s s',
      fs_writeFile p data s = (Ok tt, s') ->
      fs_access p s' = Ok tt /\
      fs_readFile p s' = Ok data /\
      exists st, fs_stat p s' = Ok st /\ size st = length data;
  mkdir_recursive_again :
    forall p s s',
      fs_mkdir_recursive p s = (Ok tt, s') ->
      fs_mkdir_recursive p s' = (Ok tt, s')
}.

(** ** streamr-drive.js *)

Definition TEMP_FOLDER_NAME : string := "temp".

Record Config : Type := {
  storageDir : string;
  config_deviceId : JsVal
}.

(** The engine: its configuration, its message controller, and the storage
    under its root. *)
Record World (FS : Type) : Type := {
  config : Config;
  messageController : MessageController.t;
  storage : FS
}.
Arguments config {FS} w.
Arguments messageController {FS} w.
Arguments storage {FS} w.

(** One entry of the chunk codec's [chunk-update] telemetry. *)
Record ChunkUpdate : Type := {
  messageId : JsVal;
  noOfChunks : JsVal;
  lastChunkId : float;
  progress : JsVal
}.

Section StreamrDrive.

Context {host : Host} {FS : Type} {backend : StorageBackend FS}.

Definition Drive (A : Type) : Type := M (World FS) A.

(** Running a method of [this.messageController]. *)
Definition on_controller {A : Type} (m : M MessageController.t A) : Drive A :=
  fun w =>
    let '(r, c) := m (messageController w) in
    (r, {| config := config w; messageController := c; storage := storage w |}).

Definition fs_query {A : Type} (q : FS -> result A) : Drive A :=
  fun w => (q (storage w), w).

Definition fs_update (u : FS -> result unit * FS) : Drive unit :=
  fun w =>
    let '(r, s) := u (storage w) in
    (r, {| config := config w; messageController := messageController w; storage := s |}).

Definition this_storageDir : Drive JsVal :=
  fun w => (Ok (JStr (storageDir (config w))), w).

(** [path.join(...args)]: each argument is validated in turn. *)
Fixpoint validate_strings (args : list JsVal) : result (list string) :=
  match args with
  | [] => Ok []
  | JStr s :: rest =>
      match validate_strings rest with
      | Ok l => Ok (s :: l)
      | Throw e => Throw e
      end
  | v :: _ => Throw (invalid_path_argument v)
  end.

Definition path_join (args : list JsVal) : Drive string :=
  lift_result
    match validate_strings args with
    | Ok l => Ok (Path.join_strings l)
    | Throw e => Throw e
    end.

(** [Buffer.from(data, 'base64')]. *)
Definition Buffer_from_base64 (data : JsVal) : Drive (list byte) :=
  lift_result
    match data with
    | JStr s => Ok (Base64.decode s)
    | v => Buffer_from_value v
    end.

Definition num (n : nat) : JsVal := JNum (Num.of_nat n).

(** [sendResponse]: the promise [upload] returns is not awaited, so a
    rejection of it does not reach the caller. *)
Definition sendResponse (response : JsVal) : Drive unit :=
  attempt
    (on_controller
       (MessageController.upload
          [("type", JStr "text"); ("body", JStr (JSON_stringify response))])) ;;
  ret tt.

Definition error_response (action message : string) : JsVal :=
  JObj [("action", JStr action); ("status", JStr "error"); ("message", JStr message)].

Fixpoint for_each {A : Type} (l : list A) (body : A -> Drive unit) : Drive unit :=
  match l with
  | [] => ret tt
  | x :: rest => body x ;; for_each rest body
  end.

Fixpoint map_all {A B : Type} (f : A -> Drive B) (l : list A) : Drive (list B) :=
  match l with
  | [] => ret []
  | x :: rest => y <- f x ;; ys <- map_all f rest ;; ret (y :: ys)
  end.

(** *** The chunk progress aggregator *)

Definition chunk_total (update : ChunkUpdate) : float :=
  (lastChunkId update + 1)%float.

Definition chunk_progressPercent (update : ChunkUpdate) : float :=
  parseFloat (progress update).

Definition chunk_received (update : ChunkUpdate) : float :=
  Num.Math_round ((chunk_progressPercent update / 100) * chunk_total update)%float.

(** [received % 2 === 0 || received === total]. *)
Definition progress_due (received total : float) : bool :=
  Num.strict_eq (Num.rem received 2%float) 0%float || Num.strict_eq received total.

Definition progress_response (update : ChunkUpdate) : JsVal :=
  JObj [("action", JStr "upload-progress");
        ("status", JStr "info");
        ("messageId", messageId update);
        ("received", JNum (chunk_received update));
        ("total", JNum (chunk_total update));
        ("progress", JNum (chunk_progressPercent update));
        ("complete", JBool (Num.strict_eq (chunk_progressPercent update) 100%float))].

Definition handleChunkUpdate (updateData : list ChunkUpdate) : Drive unit :=
  try_catch
    (for_each updateData
       (fun update =>
          if progress_due (chunk_received update) (chunk_total update) then
            sendResponse (progress_response update)
          else ret tt))
    (fun _ => ret tt).

(** *** The file operation handlers *)

(** The body of [entries.map(async (entry) => ...)] in [listFiles]. Under
    [Promise.all] the entries are described independently and the failure
    of one is the failure of all; the model reports the first in order. *)
Definition describe_entry (dirPath : string) (entry : Dirent) : Drive JsVal :=
  fullPath <- path_join [JStr dirPath; JStr (name entry)] ;;
  stats <- fs_query (fs_stat fullPath) ;;
  ret (JObj [("name", JStr (name entry));
             ("isDirectory", JBool (dirent_isDirectory entry));
             ("size", num (size stats));
             ("created", birthtime stats);
             ("modified", mtime stats)]).

Definition listFiles (command : JsVal) : Drive unit :=
  try_catch
    (root <- this_storageDir ;;
     dirPath <- path_join [root; js_or (prop command "path") (JStr "")] ;;
     found <- attempt (fs_query (fs_access dirPath)) ;;
     match found with
     | Throw _ => sendResponse (error_response "list" "Directory not found")
     | Ok _ =>
         entries <- fs_query (fs_readdir dirPath) ;;
         files <- map_all (describe_entry dirPath) entries ;;
         sendResponse
           (JObj [("action", JStr "list");
                  ("status", JStr "success");
                  ("path", js_or (prop command "path") (JStr ""));
                  ("files", JArr files)])
     end)
    (fun e => sendResponse (error_response "list" ("Error listing files: " ++ e))).

Definition saveFile (command : JsVal) : Drive unit :=
  try_catch
    (if negb (truthy (prop command "fileName")) || negb (truthy (prop command "data")) then
       sendResponse (error_response "upload" "Missing fileName or data")
     else
       root <- this_storageDir ;;
       dirPath <- path_join [root; js_or (prop command "path") (JStr "")] ;;
       fs_update (fs_mkdir_recursive dirPath) ;;
       filePath <- path_join [JStr dirPath; prop command "fileName"] ;;
       buffer <- Buffer_from_base64 (prop command "data") ;;
       fs_update (fs_writeFile filePath buffer) ;;
       sendResponse
         (JObj [("action", JStr "upload");
                ("status", JStr "success");
                ("fileName", prop command "fileName");
                ("path", js_or (prop command "path") (JStr ""));
                ("size", num (length buffer))]))
    (fun e => sendResponse (error_response "upload" ("Error saving file: " ++ e))).

Definition downloadFile (command : JsVal) : Drive unit :=
  try_catch
    (if negb (truthy (prop command "fileName")) then
       sendResponse (error_response "download" "Missing fileName")
     else
       root <- this_storageDir ;;
       filePath <- path_join [root; js_or (prop command "path") (JStr "");
                              prop command "fileName"] ;;
       found <- attempt (fs_query (fs_access filePath)) ;;
       match found with
       | Throw _ => sendResponse (error_response "download" "File not found")
       | Ok _ =>
           data <- fs_query (fs_readFile filePath) ;;
           stats <- fs_query (fs_stat filePath) ;;
           on_controller
             (MessageController.upload
                [("type", JStr "file");
                 ("fileName", prop command "fileName");
                 ("fileSize", num (size stats));
                 ("body", JStr (Base64.encode data))]) ;;
           sendResponse
             (JObj [("action", JStr "download");
                    ("status", JStr "success");
                    ("fileName", prop command "fileName");
                    ("path", js_or (prop command "path") (JStr ""));
                    ("size", num (size stats))])
       end)
    (fun e => sendResponse (error_response "download" ("Error downloading file: " ++ e))).

(** [cleanupTempFolder], run by the timer of [setupTempFolderCleanup]: the
    path of the temp folder is computed before the [try]; the number of
    entries removed is only logged. *)
Definition cleanupTempFolder : Drive unit :=
  root <- this_storageDir ;;
  tempFolderPath <- path_join [root; JStr TEMP_FOLDER_NAME] ;;
  try_catch
    (found <- attempt (fs_query (fs_access tempFolderPath)) ;;
     match found with
     | Throw _ => ret tt
     | Ok _ =>
         entries <- fs_query (fs_readdir tempFolderPath) ;;
         for_each entries
           (fun entry =>
              entryPath <- path_join [JStr tempFolderPath; JStr (name entry)] ;;
              if dirent_isDirectory entry
              then fs_update (fs_rm_recursive entryPath)
              else fs_update (fs_unlink entryPath))
     end)
    (fun _ => ret tt).

Definition deleteFile (command : JsVal) : Drive unit :=
  try_catch
    (if negb (truthy (prop command "fileName")) then
       sendResponse (error_response "delete" "Missing fileName")
     else
       root <- this_storageDir ;;
       filePath <- path_join [root; js_or (prop command "path") (JStr "");
                              prop command "fileName"] ;;
       found <- attempt (fs_query (fs_access filePath)) ;;
       match found with
       | Throw _ => sendResponse (error_response "delete" "File not found")
       | Ok _ =>
           stats <- fs_query (fs_stat filePath) ;;
           (if isDirectory stats then fs_update (fs_rm_recursive filePath)
            else fs_update (fs_unlink filePath)) ;;
           sendResponse
             (JObj [("action", JStr "delete");
                    ("status", JStr "success");
                    ("fileName", prop command "fileName");
                    ("path", js_or (prop command "path") (JStr ""))])
       end)
    (fun e => sendResponse (error_response "delete" ("Error deleting file: " ++ e))).

Definition createDirectory (command : JsVal) : Drive unit :=
  try_catch
    (if negb (truthy (prop command "dirName")) then
       sendResponse (error_response "mkdir" "Missing dirName")
     else
       root <- this_storageDir ;;
       dirPath <- path_join [root; js_or (prop command "path") (JStr "");
                             prop command "dirName"] ;;
       fs_update (fs_mkdir_recursive dirPath) ;;
       sendResponse
         (JObj [("action", JStr "mkdir");
                ("status", JStr "success");
                ("dirName", prop command "dirName");
                ("path", js_or (prop command "path") (JStr ""))]))
    (fun e => sendResponse (error_response "mkdir" ("Error creating directory: " ++ e))).

Definition getFileInfo (command : JsVal) : Drive unit :=
  try_catch
    (if negb (truthy (prop command "fileName")) then
       sendResponse (error_response "info" "Missing fileName")
     else
       root <- this_storageDir ;;
       filePath <- path_join [root; js_or (prop command "path") (JStr "");
                              prop command "fileName"] ;;
       found <- attempt (fs_query (fs_access filePath)) ;;
       match found with
       | Throw _ => sendResponse (error_response "info" "File not found")
       | Ok _ =>
           stats <- fs_query (fs_stat filePath) ;;
           sendResponse
             (JObj [("action", JStr "info");
                    ("status", JStr "success");
                    ("fileName", prop command "fileName");
                    ("path", js_or (prop command "path") (JStr ""));
                    ("size", num (size stats));
                    ("isDirectory", JBool (isDirectory stats));
                    ("created", birthtime stats);
                    ("modified", mtime stats)])
       end)
    (fun e => sendResponse (error_response "info" ("Error getting file info: " ++ e))).

Definition handlePing (command : JsVal) : Drive unit :=
  try_catch
    (sendResponse
       (JObj [("action", JStr "pong");
              ("status", JStr "success");
              ("timestamp", JNum Date_now)]))
    (fun e => sendResponse (error_response "ping" ("Error handling ping: " ++ e))).

Definition renameFile (command : JsVal) : Drive unit :=
  try_catch
    (if negb (truthy (prop command "oldName")) || negb (truthy (prop command "newName")) then
       sendResponse (error_response "rename" "Missing oldName or newName")
     else
       root <- this_storageDir ;;
       oldPath <- path_join [root; js_or (prop command "path") (JStr "");
                             prop command "oldName"] ;;
       newPath <- path_join [root; js_or (prop command "path") (JStr "");
                             prop command "newName"] ;;
       found <- attempt (fs_query (fs_access oldPath)) ;;
       match found with
       | Throw _ => sendResponse (error_response "rename" "Source file/folder not found")
       | Ok _ =>
           (* try { await fs.access(newPath); return this.sendResponse(...) } catch { } *)
           returned <- attempt
                         (fs_query (fs_access newPath) ;;
                          sendResponse (error_response "rename" "Destination already exists")) ;;
           match returned with
           | Ok _ => ret tt
           | Throw _ =>
               fs_update (fs_rename oldPath newPath) ;;
               stats <- fs_query (fs_stat newPath) ;;
               sendResponse
                 (JObj [("action", JStr "rename");
                        ("status", JStr "success");
                        ("oldName", prop command "oldName");
                        ("newName", prop command "newName");
                        ("path", js_or (prop command "path") (JStr ""));
                        ("isDirectory", JBool (isDirectory stats));
                        ("size", num (size stats))])
           end
       end)
    (fun e => sendResponse (error_response "rename" ("Error renaming file/folder: " ++ e))).

(** *** The command dispatcher *)

(** [command.action]: reading a property of [null] or [undefined] throws. *)
Definition get_action (command : JsVal) : result JsVal :=
  match command with
  | JNull => Throw "Cannot read properties of null (reading 'action')"
  | JUndefined => Throw "Cannot read properties of undefined (reading 'action')"
  | _ => Ok (prop command "action")
  end.

Definition dispatch (command action : JsVal) : Drive unit :=
  if is_str "ping" action then handlePing command
  else if is_str "list" action then listFiles command
  else if is_str "upload" action then saveFile command
  else if is_str "download" action then downloadFile command
  else if is_str "delete" action then deleteFile command
  else if is_str "mkdir" action then createDirectory command
  else if is_str "info" action then getFileInfo command
  else if is_str "rename" action then renameFile command
  else
    sendResponse
      (JObj [("action", action);
             ("status", JStr "error");
             ("message", JStr "Unknown command")]).

Definition processCommand (message : JsObject) : Drive unit :=
  if negb (is_str "text" (field message "type")) then ret tt
  else
    try_catch
      (command <- lift_result (JSON_parse (field message "body")) ;;
       action <- lift_result (get_action command) ;;
       dispatch command action)
      (fun e =>
         sendResponse
           (JObj [("status", JStr "error");
                  ("message", JStr ("Error processing command: " ++ e))])).

End StreamrDrive.

(** ** An in-memory storage backend

    A hierarchical store keyed by the segments of a path resolved from the
    root: every key maps to a file with its bytes or to a directory; the
    root itself is always a directory. It shows that the laws asked of a
    backend can be met, and runs the engine on concrete commands. *)

Module MemFS.

Inductive entry : Type :=
| File (data : list byte)
| Directory.

Definition key : Type := list string.

Definition t : Type := list (key * entry).

Definition key_eq_dec : forall a b : key, {a = b} + {a <> b} :=
  list_eq_dec string_dec.

(** The segments a path resolves to, from the root. *)
Definition resolve (p : string) : key :=
  rev (fold_left (Path.push_segment false) (Path.split p) []).

Fixpoint find (k : key) (s : t) : option entry :=
  match s with
  | [] => None
  | (k', e) :: rest => if key_eq_dec k k' then Some e else find k rest
  end.

Definition entry_at (k : key) (s : t) : option entry :=
  match k with
  | [] => Some Directory
  | _ => find k s
  end.

Fixpoint remove (k : key) (s : t) : t :=
  match s with
  | [] => []
  | (k', e) :: rest =>
      if key_eq_dec k k' then remove k rest else (k', e) :: remove k rest
  end.

Definition set (k : key) (e : entry) (s : t) : t := (k, e) :: remove k s.

Fixpoint is_prefix (k k' : key) : bool :=
  match k, k' with
  | [], _ => true
  | a :: k1, b :: k1' => String.eqb a b && is_prefix k1 k1'
  | _ :: _, [] => false
  end.

Definition parent (k : key) : key := removelast k.

Definition stats_of (e : entry) : Stats :=
  match e with
  | File data =>
      {| size := length data; isDirectory := false;
         birthtime := JNull; mtime := JNull |}
  | Directory =>
      {| size := 0; isDirectory := true; birthtime := JNull; mtime := JNull |}
  end.

Definition ENOENT : string := "ENOENT: no such file or directory".
Definition ENOTDIR : string := "ENOTDIR: not a directory".
Definition EISDIR : string := "EISDIR: illegal operation on a directory".
Definition EEXIST : string := "EEXIST: file already exists".
Definition EINVAL : string := "EINVAL: invalid argument".

Definition access (p : string) (s : t) : result unit :=
  match entry_at (resolve p) s with
  | Some _ => Ok tt
  | None => Throw ENOENT
  end.

Definition stat (p : string) (s : t) : result Stats :=
  match entry_at (resolve p) s with
  | Some e => Ok (stats_of e)
  | None => Throw ENOENT
  end.

Definition readFile (p : string) (s : t) : result (list byte) :=
  match entry_at (resolve p) s with
  | Some (File data) => Ok data
  | Some Directory => Throw EISDIR
  | None => Throw ENOENT
  end.

(** The entries directly under a directory. *)
Fixpoint children (k : key) (s : t) : list Dirent :=
  match s with
  | [] => []
  | (k', e) :: rest =>
      match k' with
      | [] => children k rest
      | _ :: _ =>
          if key_eq_dec (parent k') k then
            {| name := last k' "";
               dirent_isDirectory := isDirectory (stats_of e) |} :: children k rest
          else children k rest
      end
  end.

Definition readdir (p : string) (s : t) : result (list Dirent) :=
  match entry_at (resolve p) s with
  | Some Directory => Ok (children (resolve p) s)
  | Some (File _) => Throw ENOTDIR
  | None => Throw ENOENT
  end.

(** [mkdir -p]: every missing directory along the path is created; a file
    in the way is an error. *)
Fixpoint mkdirs (above : key) (todo : list string) (s : t) : result unit * t :=
  match todo with
  | [] => (Ok tt, s)
  | c :: rest =>
      let d := above ++ [c] in
      match find d s with
      | Some (File _) =>
          (Throw (match rest with [] => EEXIST | _ => ENOTDIR end), s)
      | Some Directory => mkdirs d rest s
      | None => mkdirs d rest ((d, Directory) :: s)
      end
  end.

Definition mkdir_recursive (p : string) (s : t) : result unit * t :=
  mkdirs [] (resolve p) s.

Definition writeFile (p : string) (data : list byte) (s : t) : result unit * t :=
  match resolve p with
  | [] => (Throw EISDIR, s)
  | k =>
      match entry_at (parent k) s with
      | Some Directory =>
          match find k s with
          | Some Directory => (Throw EISDIR, s)
          | _ => (Ok tt, set k (File data) s)
          end
      | Some (File _) => (Throw ENOTDIR, s)
      | None => (Throw ENOENT, s)
      end
  end.

Definition unlink (p : string) (s : t) : result unit * t :=
  match resolve p with
  | [] => (Throw EISDIR, s)
  | k =>
      match find k s with
      | Some (File _) => (Ok tt, remove k s)
      | Some Directory => (Throw EISDIR, s)
      | None => (Throw ENOENT, s)
      end
  end.

Definition rm_recursive (p : string) (s : t) : result unit * t :=
  match entry_at (resolve p) s with
  | Some _ => (Ok tt, filter (fun b => negb (is_prefix (resolve p) (fst b))) s)
  | None => (Throw ENOENT, s)
  end.

(** [rename]: the entry and everything under it move to the new key,
    replacing what was there. *)
Definition rename (oldPath newPath : string) (s : t) : result unit * t :=
  let ko := resolve oldPath in
  let kn := resolve newPath in
  match ko, kn with
  | [], _ | _, [] => (Throw EINVAL, s)
  | _, _ =>
      match find ko s, entry_at (parent kn) s with
      | None, _ => (Throw ENOENT, s)
      | Some _, Some Directory =>
          if is_prefix ko kn && negb (if key_eq_dec ko kn then true else false)
          then (Throw EINVAL, s)
          else
            let kept := filter (fun b => negb (is_prefix kn (fst b))
                                         && negb (is_prefix ko (fst b))) s in
            let moved := filter (fun b => is_prefix ko (fst b)) s in
            (Ok tt,
             map (fun b => (kn ++ skipn (length ko) (fst b), snd b)) moved ++ kept)
      | Some _, Some (File _) => (Throw ENOTDIR, s)
      | Some _, None => (Throw ENOENT, s)
      end
  end.

#[export] Instance backend : StorageBackend t := {|
  fs_access := access;
  fs_stat := stat;
  fs_readdir := readdir;
  fs_readFile := readFile;
  fs_mkdir_recursive := mkdir_recursive;
  fs_writeFile := writeFile;
  fs_unlink := unlink;
  fs_rm_recursive := rm_recursive;
  fs_rename := rename
|}.

End MemFS.

(** ** The text of values: [JSON.stringify], number to string, [parseFloat]

    What the JavaScript host prints and reads, for the sample host below.
    The engine itself takes these from its [Host]. *)

Module Json.

Local Open Scope string_scope.

Definition quote : ascii := ascii_of_nat 34.

Definition backslash : ascii := ascii_of_nat 92.

Definition hex_digit (n : N) : ascii :=
  match String.get (N.to_nat n) "0123456789abcdef" with
  | Some c => c
  | None => "0"%char
  end.

(** QuoteJSONString: the quote, the backslash and the control characters
    are escaped, every other character is kept. *)
Definition escape_char (c : ascii) : string :=
  let n := N_of_ascii c in
  if (n =? 34)%N then String backslash (String quote "")
  else if (n =? 92)%N then String backslash (String backslash "")
  else if (n =? 8)%N then String backslash "b"
  else if (n =? 9)%N then String backslash "t"
  else if (n =? 10)%N then String backslash "n"
  else if (n =? 12)%N then String backslash "f"
  else if (n =? 13)%N then String backslash "r"
  else if (n <? 32)%N then
    String backslash
      ("u00" ++ String (hex_digit (n / 16)) (String (hex_digit (n mod 16)) ""))
  else String c "".

Fixpoint escape (s : string) : string :=
  match s with
  | EmptyString => ""
  | String c rest => escape_char c ++ escape rest
  end.

Definition quoted (s : string) : string :=
  String quote (escape s ++ String quote "").

Definition decimal (n : Z) : string := NilZero.string_of_int (Z.to_int n).

Definition digit (d : Z) : ascii := ascii_of_nat (48 + Z.to_nat d).

(** The decimal digits of [r / d], for [0 <= r < d] and [d] a power of
    two: the expansion ends. *)
Fixpoint fraction_digits (fuel : nat) (r d : Z) : string :=
  match fuel with
  | O => ""
  | S fuel' =>
      if (r =? 0)%Z then ""
      else String (digit (10 * r / d)) (fraction_digits fuel' ((10 * r) mod d) d)
  end.

(** Number to string. A whole number is printed in full and a number with
    a fraction with its exact decimal expansion: this is what JavaScript
    prints for a whole number below 10^21 and for a fraction whose
    expansion is short (3.5, 0.25); for the other numbers JavaScript
    prints the shortest numeral that reads back as the number, or uses
    an exponent, and the samples use none of them. *)
Definition number_text (x : float) : string :=
  match Prim2SF x with
  | S754_nan => "NaN"
  | S754_infinity s => if s then "-Infinity" else "Infinity"
  | S754_zero _ => "0"
  | S754_finite s m e =>
      (if s then "-" else "")
      ++ (if (0 <=? e)%Z then decimal (Z.pos m * 2 ^ e)
          else
            let d := (2 ^ (- e))%Z in
            decimal (Z.pos m / d)
            ++ (if (Z.pos m mod d =? 0)%Z then ""
                else "." ++ fraction_digits (Z.to_nat (- e)) (Z.pos m mod d) d))
  end.

(** SerializeJSONProperty: [None] stands for undefined, which has no
    text; a property whose value has none is left out of its object, an
    element that has none is printed as null, and so is a number that is
    not finite. The properties come in the order of their insertion. *)
Fixpoint stringify (v : JsVal) : option string :=
  match v with
  | JUndefined => None
  | JNull => Some "null"
  | JBool b => Some (if b then "true" else "false")
  | JNum x => Some (if Num.is_finite x then number_text x else "null")
  | JStr s => Some (quoted s)
  | JArr items =>
      Some ("["
            ++ String.concat ","
                 (map (fun item =>
                         match stringify item with
                         | Some text => text
                         | None => "null"
                         end)
                      items)
            ++ "]")
  | JObj props =>
      Some ("{"
            ++ String.concat ","
                 ((fix members (l : list (string * JsVal)) : list string :=
                     match l with
                     | [] => []
                     | (k, x) :: rest =>
                         match stringify x with
                         | Some text => (quoted k ++ ":" ++ text) :: members rest
                         | None => members rest
                         end
                     end) props)
            ++ "}")
  end.

(** [JSON.stringify(v)] where it gives a text; the engine only calls it
    on object literals. *)
Definition JSON_stringify (v : JsVal) : string :=
  match stringify v with
  | Some text => text
  | None => ""
  end.

(** The text of an object, from its members and their texts. *)
Definition object_text (members : list (string * string)) : string :=
  "{"
  ++ String.concat "," (map (fun p => quoted (fst p) ++ ":" ++ snd p) members)
  ++ "}".

Definition is_space (c : ascii) : bool :=
  let n := N_of_ascii c in
  ((9 <=? n) && (n <=? 13) || (n =? 32))%N.

Fixpoint skip_spaces (s : string) : string :=
  match s with
  | String c rest => if is_space c then skip_spaces rest else s
  | EmptyString => s
  end.

Definition digit_value (c : ascii) : option Z :=
  let n := N_of_ascii c in
  if ((48 <=? n) && (n <=? 57))%N then Some (Z.of_N n - 48)%Z else None.

(** Reads a run of digits: the number read so far, how many digits were
    read, and what follows them. *)
Fixpoint read_digits (s : string) (acc : Z) (count : nat) : Z * nat * string :=
  match s with
  | String c rest =>
      match digit_value c with
      | Some d => read_digits rest (10 * acc + d)%Z (S count)
      | None => (acc, count, s)
      end
  | EmptyString => (acc, count, s)
  end.

(** [n * 10^p], rounded once: the value JavaScript gives to the numeral
    when [n] has at most 15 digits and [p] is between -22 and 22. *)
Definition scale (n p : Z) : float :=
  if (0 <=? p)%Z then (Num.of_Z n * Num.of_Z (10 ^ p))%float
  else (Num.of_Z n / Num.of_Z (10 ^ (- p)))%float.

(** The exponent part of a numeral, zero when there is none or when it
    has no digit. *)
Definition read_exponent (s : string) : Z :=
  match s with
  | String c rest =>
      if Ascii.eqb c "e" || Ascii.eqb c "E" then
        match rest with
        | String sign digits =>
            if Ascii.eqb sign "-" then
              let '(v, count, _) := read_digits digits 0%Z 0 in
              match count with O => 0%Z | _ => (- v)%Z end
            else if Ascii.eqb sign "+" then
              let '(v, count, _) := read_digits digits 0%Z 0 in
              match count with O => 0%Z | _ => v end
            else
              let '(v, count, _) := read_digits rest 0%Z 0 in
              match count with O => 0%Z | _ => v end
        | EmptyString => 0%Z
        end
      else 0%Z
  | EmptyString => 0%Z
  end.

(** The longest prefix that is a decimal numeral without sign. *)
Definition read_unsigned (s : string) : float :=
  if String.prefix "Infinity" s then infinity
  else
    let '(whole, whole_count, after_whole) := read_digits s 0%Z 0 in
    let '(mantissa, fraction_count, after_fraction) :=
      match after_whole with
      | String c rest =>
          if Ascii.eqb c "." then read_digits rest whole 0
          else (whole, 0, after_whole)
      | EmptyString => (whole, 0, after_whole)
      end in
    match (whole_count + fraction_count)%nat with
    | O => nan
    | _ => scale mantissa (read_exponent after_fraction - Z.of_nat fraction_count)
    end.

(** [parseFloat] on a string: white space is skipped, then a sign and the
    longest prefix that is a numeral are read; what follows is ignored. *)
Definition parse_number (s : string) : float :=
  match skip_spaces s with
  | String c rest =>
      if Ascii.eqb c "-" then (- read_unsigned rest)%float
      else if Ascii.eqb c "+" then read_unsigned rest
      else read_unsigned (String c rest)
  | EmptyString => nan
  end.

(** [parseFloat(v)]: the text of [v] is parsed. The text of a number
    reads back as the number, a zero as the positive zero; the text of
    an array starts with the text of its first element, and a comma
    ends a numeral; the other values have no numeral as text. *)
Fixpoint parseFloat (v : JsVal) : float :=
  match v with
  | JStr s => parse_number s
  | JNum x =>
      match Prim2SF x with
      | S754_zero _ => 0%float
      | _ => x
      end
  | JArr (first :: _) => parseFloat first
  | _ => nan
  end.

(** The text [JSON.parse] is given for a value that is not a string. *)
Definition text_of_primitive (v : JsVal) : option string :=
  match v with
  | JStr s => Some s
  | JNull => Some "null"
  | JUndefined => Some "undefined"
  | JBool b => Some (if b then "true" else "false")
  | JNum x => Some (number_text x)
  | JArr _ | JObj _ => None
  end.

(** The end of the message of the TypeError for an argument of the wrong
    type. *)
Definition received (v : JsVal) : string :=
  match v with
  | JUndefined => "Received undefined"
  | JNull => "Received null"
  | JBool b => "Received type boolean (" ++ (if b then "true" else "false") ++ ")"
  | JNum x =>
      "Received type number ("
      ++ match Prim2SF x with
         | S754_zero true => "-0"
         | _ => number_text x
         end
      ++ ")"
  | JStr s => "Received type string ('" ++ s ++ "')"
  | JArr _ => "Received an instance of Array"
  | JObj _ => "Received an instance of Object"
  end.

End Json.

(** A host for running the engine on concrete commands. [JSON.parse]
    reads the texts listed in [parsed], each with the value it has, and
    rejects every other text with the error of a text that ends too
    early, which is how the samples make a body fail to parse. *)
Definition table_host (parsed : list (string * JsVal)) : Host := {|
  JSON_parse := fun v =>
    match Json.text_of_primitive v with
    | Some text =>
        match lookup text parsed with
        | Some c => Ok c
        | None => Throw "Unexpected end of JSON input"
        end
    | None => Throw "Unexpected end of JSON input"
    end;
  JSON_stringify := Json.JSON_stringify;
  parseFloat := Json.parseFloat;
  Date_now := 1700000000000%float;
  invalid_path_argument := fun v =>
    ("The " ++ Json.quoted "path" ++ " argument must be of type string. "
     ++ Json.received v)%string;
  Buffer_from_value := fun v =>
    Throw ("The first argument must be of type string or an instance of Buffer, "
           ++ "ArrayBuffer, or Array or an Array-like Object. " ++ Json.received v)%string
|}.

(** ** Sample inputs

    A host, a device and a few stores on which the engine is run. *)

(** The JSON text of a command that has an action and nothing else. *)
Definition action_body (action : string) : string :=
  ("{" ++ Json.quoted "action" ++ ":" ++ Json.quoted action ++ "}")%string.

Definition sample_commands : list (string * JsVal) :=
  [(action_body "ping", JObj [("action", JStr "ping")]);
   (action_body "list", JObj [("action", JStr "list")]);
   (action_body "frobnicate", JObj [("action", JStr "frobnicate")]);
   ("{}", JObj []);
   ("[1]", JArr [JNum 1%float]);
   ("null", JNull)].

Definition sample_host : Host := table_host sample_commands.

Definition sample_config : Config :=
  {| storageDir := "./storage"; config_deviceId := JStr "streamr-drive-0a1b2c3d" |}.

Definition sample_world : World MemFS.t :=
  {| config := sample_config;
     messageController := MessageController.constructor (config_deviceId sample_config);
     storage := [] |}.

(** A store that holds [storage/a.txt] and [storage/b.txt]. *)
Definition sample_files : MemFS.t :=
  [(["storage"; "b.txt"], MemFS.File [x42]);
   (["storage"; "a.txt"], MemFS.File [x48; x65; x6c; x6c; x6f]);
   (["storage"], MemFS.Directory)].

Definition sample_world_with_files : World MemFS.t :=
  {| config := sample_config;
     messageController := MessageController.constructor (config_deviceId sample_config);
     storage := sample_files |}.

(** The store after [mkdir -p storage/2024/photos] on the empty one, and
    after [a.txt] was uploaded to the empty one. *)
Definition sample_directories : MemFS.t :=
  [(["storage"; "2024"; "photos"], MemFS.Directory);
   (["storage"; "2024"], MemFS.Directory);
   (["storage"], MemFS.Directory)].

Definition sample_stored : MemFS.t :=
  [(["storage"; "a.txt"], MemFS.File [x48; x65; x6c; x6c; x6f]);
   (["storage"], MemFS.Directory)].

Definition sample_controller : MessageController.t :=
  MessageController.constructor (config_deviceId sample_config).

(** The telemetry of a transfer of ten chunks, one update per chunk count. *)
Definition sample_updates : list ChunkUpdate :=
  map (fun k =>
         {| messageId := JStr "m1";
            noOfChunks := JNum 10%float;
            lastChunkId := 9%float;
            progress := JNum (Num.of_Z (10 * k)) |})
      [0; 1; 2; 3; 4; 5; 6; 7; 8; 9; 10]%Z.

Definition text_of (body : string) : JsObject :=
  [("type", JStr "text"); ("body", JStr body)].

Definition sample_upload (data : string) : JsVal :=
  JObj [("action", JStr "upload"); ("fileName", JStr "a.txt"); ("data", JStr data)].

Definition sample_download : JsVal :=
  JObj [("action", JStr "download"); ("fileName", JStr "a.txt")].

Definition sample_mkdir : JsVal :=
  JObj [("action", JStr "mkdir"); ("dirName", JStr "photos"); ("path", JStr "2024")].

Definition sample_rename : JsVal :=
  JObj [("action", JStr "rename"); ("oldName", JStr "a.txt"); ("newName", JStr "b.txt")].

Definition sample_delete : JsVal :=
  JObj [("action", JStr "delete"); ("fileName", JStr "a.txt")].

Definition sample_info : JsVal :=
  JObj [("action", JStr "info"); ("fileName", JStr "a.txt")].

Definition sample_list : JsVal := JObj [("action", JStr "list")].

Definition sample_list_numbered : JsVal :=
  JObj [("action", JStr "list"); ("path", JNum 5%float)].

Definition sample_rename_free : JsVal :=
  JObj [("action", JStr "rename"); ("oldName", JStr "a.txt"); ("newName", JStr "c.txt")].

Definition sample_rename_same : JsVal :=
  JObj [("action", JStr "rename"); ("oldName", JStr "a.txt"); ("newName", JStr "a.txt")].

Definition sample_mkdir_outside : JsVal :=
  JObj [("action", JStr "mkdir"); ("dirName", JStr "outside"); ("path", JStr "..")].

Definition sample_download_folder : JsVal :=
  JObj [("action", JStr "download"); ("fileName", JStr "2024")].

(** A store in which a file sits where the storage root should be. *)
Definition sample_blocked : MemFS.t := [(["storage"], MemFS.File [])].

(** A store whose temp folder holds a file, and a folder with a file. *)
Definition sample_temp : MemFS.t :=
  [(["storage"; "temp"; "part"; "0"], MemFS.File [x42]);
   (["storage"; "temp"; "part"], MemFS.Directory);
   (["storage"; "temp"; "upload.bin"], MemFS.File [x42]);
   (["storage"; "temp"], MemFS.Directory);
   (["storage"; "keep.txt"], MemFS.File [x42]);
   (["storage"], MemFS.Directory)].

Definition sample_world_on (s : MemFS.t) : World MemFS.t :=
  {| config := sample_config;
     messageController := MessageController.constructor (config_deviceId sample_config);
     storage := s |}.

(** One update of a transfer of ten chunks. *)
Definition sample_update (progress : JsVal) : ChunkUpdate :=
  {| messageId := JStr "m1";
     noOfChunks := JNum 10%float;
     lastChunkId := 9%float;
     progress := progress |}.

(** ** The vocabulary of the specification *)

(** The controller after a publish that went through: the message is at the
    head of the sent history, and one [publish] event carries the payload. *)
Definition record_upload (msg : JsObject) (payload : JsVal) (c : MessageController.t)
  : MessageController.t :=
  {| MessageController.deviceId := MessageController.deviceId c;
     MessageController.receivedMessages := MessageController.receivedMessages c;
     MessageController.sentMessages := msg :: MessageController.sentMessages c;
     MessageController.emitted :=
       MessageController.emitted c ++ [("publish", payload)] |}.

(** The object [upload] hands to the [publish] listeners for a message of a
    supported kind. *)
Definition publish_payload (d : JsVal) (msg : JsObject) : JsVal :=
  if is_str "file" (field msg "type") then
    JObj [("type", JStr "file");
          ("fileName", field msg "fileName");
          ("fileSize", field msg "fileSize");
          ("body", field msg "body");
          ("deviceId", d)]
  else
    JObj [("type", field msg "type"); ("body", field msg "body"); ("deviceId", d)].

(** The typed event [receiveHandler] emits after [message]: one for a
    message of kind image, text or file, none for any other type. *)
Definition typed_events (msg : JsObject) : list (string * JsVal) :=
  match field msg "type" with
  | JStr s =>
      if existsb (String.eqb s) MessageController.SUPPORTED_MESSAGE_TYPES
      then [(s, JObj msg)]
      else []
  | _ => []
  end.

(** A caller that awaits one [upload] after the other. *)
Fixpoint upload_all (msgs : list JsObject) : M MessageController.t unit :=
  match msgs with
  | [] => ret tt
  | msg :: rest => MessageController.upload msg ;; upload_all rest
  end.

Definition supported_kind (v : JsVal) : Prop :=
  v = JStr "image" \/ v = JStr "text" \/ v = JStr "file".

Definition has_field (k : string) (v : JsVal) : Prop :=
  match v with
  | JObj o => lookup k o <> None
  | _ => False
  end.

Definition status_in_range (response : JsVal) : Prop :=
  prop response "status" = JStr "success" \/
  prop response "status" = JStr "error" \/
  prop response "status" = JStr "info".

Definition known_actions : list string :=
  ["ping"; "list"; "upload"; "download"; "delete"; "mkdir"; "info"; "rename"].

Definition unknown_action (action : JsVal) : Prop :=
  forall a, In a known_actions -> action <> JStr a.

(** The Response to a command whose action is not in the table, and the
    Response to a text body that could not be processed. *)
Definition unknown_command_response (action : JsVal) : JsVal :=
  JObj [("action", action); ("status", JStr "error"); ("message", JStr "Unknown command")].

Definition processing_error_response (e : string) : JsVal :=
  JObj [("status", JStr "error");
        ("message", JStr ("Error processing command: " ++ e))].

(** The Responses and the file-kind message of the handlers that succeed. *)
Definition upload_success (command : JsVal) (buffer : list byte) : JsVal :=
  JObj [("action", JStr "upload");
        ("status", JStr "success");
        ("fileName", prop command "fileName");
        ("path", js_or (prop command "path") (JStr ""));
        ("size", num (length buffer))].

Definition download_success (command : JsVal) (stats : Stats) : JsVal :=
  JObj [("action", JStr "download");
        ("status", JStr "success");
        ("fileName", prop command "fileName");
        ("path", js_or (prop command "path") (JStr ""));
        ("size", num (size stats))].

Definition file_message (command : JsVal) (stats : Stats) (data : list byte) : JsObject :=
  [("type", JStr "file");
   ("fileName", prop command "fileName");
   ("fileSize", num (size stats));
   ("body", JStr (Base64.encode data))].

Definition mkdir_success (command : JsVal) : JsVal :=
  JObj [("action", JStr "mkdir");
        ("status", JStr "success");
        ("dirName", prop command "dirName");
        ("path", js_or (prop command "path") (JStr ""))].

Definition delete_success (command : JsVal) : JsVal :=
  JObj [("action", JStr "delete");
        ("status", JStr "success");
        ("fileName", prop command "fileName");
        ("path", js_or (prop command "path") (JStr ""))].

Definition info_success (command : JsVal) (stats : Stats) : JsVal :=
  JObj [("action", JStr "info");
        ("status", JStr "success");
        ("fileName", prop command "fileName");
        ("path", js_or (prop command "path") (JStr ""));
        ("size", num (size stats));
        ("isDirectory", JBool (isDirectory stats));
        ("created", birthtime stats);
        ("modified", mtime stats)].

Definition rename_success (command : JsVal) (stats : Stats) : JsVal :=
  JObj [("action", JStr "rename");
        ("status", JStr "success");
        ("oldName", prop command "oldName");
        ("newName", prop command "newName");
        ("path", js_or (prop command "path") (JStr ""));
        ("isDirectory", JBool (isDirectory stats));
        ("size", num (size stats))].

(** One element of the [files] array of a listing, and the listing. *)
Definition entry_description (entry : Dirent) (stats : Stats) : JsVal :=
  JObj [("name", JStr (name entry));
        ("isDirectory", JBool (dirent_isDirectory entry));
        ("size", num (size stats));
        ("created", birthtime stats);
        ("modified", mtime stats)].

Definition list_success (command : JsVal) (files : list JsVal) : JsVal :=
  JObj [("action", JStr "list");
        ("status", JStr "success");
        ("path", js_or (prop command "path") (JStr ""));
        ("files", JArr files)].

(** A value that is not a string. *)
Definition not_a_string (v : JsVal) : Prop := forall s, v <> JStr s.

(** The Response of a handler names its action and has a status in range. *)
Definition handler_response (response : JsVal) : Prop :=
  (exists a, prop response "action" = JStr a) /\ status_in_range response.

(** The action a Response carries for a command whose action is [action]:
    a ping is answered with pong, every other action is echoed. *)
Definition echoed_action (action : JsVal) : JsVal :=
  if is_str "ping" action then JStr "pong" else action.

(** The Response is an object that has the property [k], with the
    value [v]. *)
Definition has_property (k : string) (v : JsVal) (response : JsVal) : Prop :=
  exists fields, response = JObj fields /\ lookup k fields = Some v.

(** The property [k] is in the JSON text of the Response: the object has
    it, with a value other than undefined. *)
Definition serialized (k : string) (response : JsVal) : Prop :=
  exists v, has_property k v response /\ v <> JUndefined.

Definition is_defined (v : JsVal) : bool :=
  match v with
  | JUndefined => false
  | _ => true
  end.

(** The Response carries the action [a], a string, and a status in
    range. *)
Definition answers (a : string) (response : JsVal) : Prop :=
  has_property "action" (JStr a) response /\ status_in_range response.

(** A weakest precondition for the computations of the monad. *)
Definition wp {St A : Type} (m : M St A) (Q : result A -> St -> Prop) (s : St) : Prop :=
  Q (fst (m s)) (snd (m s)).

Section Vocabulary.

Context {host : Host} {FS : Type}.

(** The text-kind message [sendResponse] publishes for a Response. *)
Definition text_message (response : JsVal) : JsObject :=
  [("type", JStr "text"); ("body", JStr (JSON_stringify response))].

Definition with_controller (c : MessageController.t) (w : World FS) : World FS :=
  {| config := config w; messageController := c; storage := storage w |}.

Definition with_storage (s : FS) (w : World FS) : World FS :=
  {| config := config w; messageController := messageController w; storage := s |}.

(** The engine after a message went out through [upload]. *)
Definition after_upload (msg : JsObject) (w : World FS) : World FS :=
  with_controller
    (record_upload msg
       (publish_payload (MessageController.deviceId (messageController w)) msg)
       (messageController w))
    w.

(** The engine after one Response was sent. *)
Definition after_response (response : JsVal) (w : World FS) : World FS :=
  after_upload (text_message response) w.

(** One turn of the loop of [handleChunkUpdate]. *)
Definition progress_step (w : World FS) (update : ChunkUpdate) : World FS :=
  if progress_due (chunk_received update) (chunk_total update)
  then after_response (progress_response update) w
  else w.

(** The events emitted, and the messages sent, between two states of the
    engine. *)
Definition events_since (w w' : World FS) : list (string * JsVal) :=
  skipn (length (MessageController.emitted (messageController w)))
    (MessageController.emitted (messageController w')).

Definition sent_since (w w' : World FS) : list JsObject :=
  firstn (length (MessageController.sentMessages (messageController w'))
          - length (MessageController.sentMessages (messageController w)))
    (MessageController.sentMessages (messageController w')).

(** A [publish] event that carries a text-kind message: a Response. *)
Definition is_response_event (ev : string * JsVal) : bool :=
  String.eqb (fst ev) "publish" && is_str "text" (prop (snd ev) "type").

Definition is_file_event (ev : string * JsVal) : bool :=
  String.eqb (fst ev) "publish" && is_str "file" (prop (snd ev) "type").

(** Between the start of a command and its Response the engine changes at
    most its storage ([quiet]), and publishes at most one message, of kind
    file ([settled]). *)
Definition quiet (w w1 : World FS) : Prop :=
  config w1 = config w /\ messageController w1 = messageController w.

Inductive settled (w : World FS) : World FS -> Prop :=
| settled_quiet : forall w1, quiet w w1 -> settled w w1
| settled_file : forall w0 msg,
    quiet w w0 -> field msg "type" = JStr "file" -> settled w (after_upload msg w0).

(** A computation has answered: it returned, and its last effect was to
    send one Response that satisfies [ok]. *)
Definition Responded (ok : JsVal -> Prop) (w : World FS)
           (r : result unit) (w' : World FS) : Prop :=
  r = Ok tt /\
  exists response w1,
    w' = after_response response w1 /\ ok response /\ settled w w1.

(** What a Response to an inbound text message looks like: its status is
    in range, and it names a handler's action, or echoes an action that is
    not in the table, or reports a body that could not be processed. *)
Definition response_shape (message : JsObject) (response : JsVal) : Prop :=
  status_in_range response /\
  ((exists a, prop response "action" = JStr a) \/
   (exists command action,
       JSON_parse (field message "body") = Ok command /\
       get_action command = Ok action /\
       unknown_action action /\
       response = unknown_command_response action) \/
   (exists e, response = processing_error_response e)).

(** The Response to an inbound text message, by what became of its body:
    a body that does not parse, or parses to null, is answered with the
    processing error; a command is answered with an object that carries
    the action to echo, which is the Unknown command Response when the
    action is not in the table. *)
Definition command_response (message : JsObject) (response : JsVal) : Prop :=
  match JSON_parse (field message "body") with
  | Throw e => response = processing_error_response e
  | Ok command =>
      match get_action command with
      | Throw e => response = processing_error_response e
      | Ok action =>
          has_property "action" (echoed_action action) response /\
          (unknown_action action -> response = unknown_command_response action)
      end
  end.

(** The body parsed to a command whose action is defined. *)
Definition names_an_action (message : JsObject) : Prop :=
  exists command action,
    JSON_parse (field message "body") = Ok command /\
    get_action command = Ok action /\
    action <> JUndefined.

(** The Response to a ping. *)
Definition pong : JsVal :=
  JObj [("action", JStr "pong");
        ("status", JStr "success");
        ("timestamp", JNum Date_now)].

(** The [publish] event of a Response sent by the device [d]. *)
Definition response_event (d : JsVal) (response : JsVal) : string * JsVal :=
  ("publish",
   JObj [("type", JStr "text");
         ("body", JStr (JSON_stringify response));
         ("deviceId", d)]).

(** The updates for which [handleChunkUpdate] sends a progress Response. *)
Definition due (update : ChunkUpdate) : bool :=
  progress_due (chunk_received update) (chunk_total update).

End Vocabulary.

Section Sweep.

Context {FS : Type} {backend : StorageBackend FS}.

(** What [cleanupTempFolder] asks of the storage for one entry of the temp
    folder, and for the entries in turn, up to the first that fails. *)
Definition remove_entry (tempFolderPath : string) (entry : Dirent) (s : FS)
  : result unit * FS :=
  if dirent_isDirectory entry
  then fs_rm_recursive (Path.join_strings [tempFolderPath; name entry]) s
  else fs_unlink (Path.join_strings [tempFolderPath; name entry]) s.

Fixpoint sweep (tempFolderPath : string) (entries : list Dirent) (s : FS)
  : result unit * FS :=
  match entries with
  | [] => (Ok tt, s)
  | entry :: rest =>
      match remove_entry tempFolderPath entry s with
      | (Ok _, s') => sweep tempFolderPath rest s'
      | (Throw e, s') => (Throw e, s')
      end
  end.

End Sweep.

(** [q * 2^k] on the mantissa of a binary64 number. *)
Definition shl (q : positive) (k : Z) : positive :=
  match k with
  | Zpos d => Pos.iter xO q d
  | _ => q
  end.

(** The whole number nearest to [m * 2^e], the larger one of the two when
    [m * 2^e] is halfway between them: what [Math.round] gives for a
    positive number. *)
Definition round_half_up (m : positive) (e : Z) : Z :=
  if (0 <=? e)%Z then (Z.pos m * 2 ^ e)%Z
  else ((2 * Z.pos m + 2 ^ (- e)) / (2 * 2 ^ (- e)))%Z.

(** The same for the negative number [- m * 2^e]: the nearest whole
    number, the one closer to zero in a tie. *)
Definition round_half_up_neg (m : positive) (e : Z) : Z :=
  if (0 <=? e)%Z then (Z.neg m * 2 ^ e)%Z
  else ((2 * Z.neg m + 2 ^ (- e)) / (2 * 2 ^ (- e)))%Z.

(** The shape of the paths [path.join] returns. *)

Module PathShape.

Import Path.

Fixpoint no_slash (s : string) : bool :=
  match s with
  | EmptyString => true
  | String c rest => negb (Ascii.eqb c slash) && no_slash rest
  end.

(** A segment that [normalizeString] retains as a name. *)
Definition plain (seg : string) : Prop :=
  seg <> "" /\ seg <> "." /\ seg <> ".." /\ no_slash seg = true.

(** The retained segments, last first: names above a run of [..], which is
    only there when the path may climb above its root. *)
Inductive good (allow : bool) : list string -> Prop :=
| good_dots : forall k, allow = true -> Forall (eq "..") k -> good allow k
| good_nil : good allow []
| good_plain : forall seg k, plain seg -> good allow k -> good allow (seg :: k).

(** [normalize] in terms of what it retains. *)
Definition render (a t : bool) (k : list string) : string :=
  let p := String.concat "/" (rev k) in
  if String.eqb p "" then
    if a then "/" else if t then "./" else "."
  else
    let p := if t then (p ++ "/")%string else p in
    if a then ("/" ++ p)%string else p.

Definition stack (x : string) : list string :=
  fold_left (push_segment (negb (starts_with_slash x))) (split x) [].

End PathShape.

(** A digit of the base64 alphabet is read back as itself and is not the
    padding character. *)
Definition digit_ok (n : N) : bool :=
  match Base64.unbase64 (Base64.char_of_sextet n) with
  | Some v => N.eqb v n
  | None => false
  end && negb (Ascii.eqb (Base64.char_of_sextet n) Base64.pad).

(** * Properties *)

(** ** Base64 *)

Module Base64Facts.
Import Base64.
Local Open Scope N_scope.

Lemma digits_ok : forallb digit_ok (map N.of_nat (seq 0 64)) = true.
Proof. vm_compute. reflexivity. Qed.

Lemma digit_round_trip (n : N) :
  n < 64 ->
  unbase64 (char_of_sextet n) = Some n /\ Ascii.eqb (char_of_sextet n) pad = false.
Proof.
  intros H.
  assert (I : In n (map N.of_nat (seq 0 64))).
  { apply in_map_iff. exists (N.to_nat n). split; [apply N2Nat.id |].
    apply in_seq. lia. }
  pose proof (proj1 (forallb_forall _ _) digits_ok n I) as D.
  unfold digit_ok in D. apply andb_true_iff in D. destruct D as [D1 D2].
  split.
  - destruct (unbase64 (char_of_sextet n)) as [v |]; [| discriminate].
    apply N.eqb_eq in D1. now subst.
  - now apply negb_true_iff.
Qed.

Lemma sextets_digit (n : N) (rest : string) :
  n < 64 -> sextets (String (char_of_sextet n) rest) = n :: sextets rest.
Proof.
  intros H. destruct (digit_round_trip n H) as [U P].
  simpl. now rewrite P, U.
Qed.

Lemma sextets_pad (rest : string) : sextets (String pad rest) = [].
Proof. reflexivity. Qed.

Lemma byte_of_to_N (b : byte) : byte_of_N (Byte.to_N b) = b.
Proof.
  unfold byte_of_N.
  rewrite N.mod_small by (pose proof (Byte.to_N_bounded b); lia).
  now rewrite Byte.of_to_N.
Qed.

Lemma byte_of_N_eq (n : N) (b : byte) : n = Byte.to_N b -> byte_of_N n = b.
Proof. intros ->. apply byte_of_to_N. Qed.

Lemma list_ind3 {A : Type} (P : list A -> Prop) :
  P [] -> (forall a, P [a]) -> (forall a b, P [a; b]) ->
  (forall a b c l, P l -> P (a :: b :: c :: l)) ->
  forall l, P l.
Proof.
  intros H0 H1 H2 H3 l.
  assert (H : P l /\ (forall a, P (a :: l)) /\ (forall a b, P (a :: b :: l))).
  { induction l as [| x l (IH0 & IH1 & IH2)]; [auto |].
    split; [apply IH1 |]. split; [intros; apply IH2 |].
    intros a b. apply H3, IH0. }
  apply H.
Qed.

Ltac arith :=
  match goal with
  | |- context [Byte.to_N ?b] =>
      pose proof (Byte.to_N_bounded b); generalize dependent (Byte.to_N b); intros; arith
  | _ => zify; Z.to_euclidean_division_equations; lia
  end.

(** Decoding what [toString('base64')] produced gives the bytes back. *)
Lemma decode_encode (bytes : list byte) : decode (encode bytes) = bytes.
Proof.
  unfold decode. induction bytes as [| a | a b | a b c rest IH] using list_ind3.
  - reflexivity.
  - cbn [encode]. rewrite !sextets_digit by arith. rewrite sextets_pad.
    cbn [bytes_of_sextets]. f_equal. apply byte_of_N_eq. arith.
  - cbn [encode]. rewrite !sextets_digit by arith. rewrite sextets_pad.
    cbn [bytes_of_sextets]. f_equal; [| f_equal]; apply byte_of_N_eq; arith.
  - cbn [encode]. rewrite !sextets_digit by arith.
    cbn [bytes_of_sextets]. rewrite IH.
    f_equal; [| f_equal; [| f_equal]]; apply byte_of_N_eq; arith.
Qed.
End Base64Facts.

(** ** Paths *)

Module PathFacts.
Import Path PathShape.

Lemma split_nonempty (s : string) : split s <> [].
Proof.
  destruct s as [| c r]; simpl; [discriminate |].
  destruct (Ascii.eqb c slash); [discriminate |].
  destruct (split r); discriminate.
Qed.

Lemma split_app_slash (s1 s2 : string) :
  split (s1 ++ String slash s2)%string = split s1 ++ split s2.
Proof.
  induction s1 as [| c r IH]; simpl.
  - reflexivity.
  - destruct (Ascii.eqb c slash); [now rewrite IH |].
    rewrite IH. destruct (split r) eqn:E; [now apply split_nonempty in E |].
    reflexivity.
Qed.

Lemma split_no_slash (s : string) : no_slash s = true -> split s = [s].
Proof.
  induction s as [| c r IH]; simpl; [reflexivity |].
  rewrite andb_true_iff, negb_true_iff. intros [-> H]. now rewrite (IH H).
Qed.

Lemma split_segments (s : string) : Forall (fun seg => no_slash seg = true) (split s).
Proof.
  induction s as [| c r IH]; simpl.
  - repeat constructor.
  - destruct (Ascii.eqb c slash) eqn:E.
    + constructor; [reflexivity | exact IH].
    + destruct (split r) as [| seg segs]; [repeat constructor; simpl; now rewrite E |].
      inversion IH; subst. constructor; [simpl; rewrite E; assumption | assumption].
Qed.

Lemma split_concat (l : list string) :
  l <> [] -> Forall (fun seg => no_slash seg = true) l ->
  split (String.concat "/" l) = l.
Proof.
  induction l as [| a l IH]; [congruence |].
  intros _ H. inversion H as [| ? ? Ha Hl]; subst.
  destruct l as [| b l].
  - simpl. now apply split_no_slash.
  - change (String.concat "/" (a :: b :: l))
      with (a ++ String slash (String.concat "/" (b :: l)))%string.
    rewrite split_app_slash, (split_no_slash a Ha), IH by (congruence || assumption).
    reflexivity.
Qed.

Lemma push_good allow k seg :
  no_slash seg = true -> good allow k -> good allow (push_segment allow k seg).
Proof.
  intros Hs Hk. unfold push_segment.
  destruct (String.eqb_spec seg ""); [assumption |].
  destruct (String.eqb_spec seg "."); [assumption |].
  destruct (String.eqb_spec seg "..") as [-> | Hdd].
  - destruct Hk as [k Ha Hd | | top k Hp Hk].
    + subst allow. destruct k as [| top below].
      * apply good_dots; [reflexivity | repeat constructor].
      * inversion Hd; subst. simpl.
        apply good_dots; [reflexivity | constructor; [reflexivity | assumption]].
    + destruct allow; [apply good_dots; auto | apply good_nil].
    + destruct Hp as (_ & _ & Hp & _).
      destruct (String.eqb_spec top ".."); [contradiction | assumption].
  - apply good_plain; [repeat split; assumption | assumption].
Qed.

Lemma fold_good allow segs k :
  Forall (fun seg => no_slash seg = true) segs -> good allow k ->
  good allow (fold_left (push_segment allow) segs k).
Proof.
  revert k. induction segs as [| seg segs IH]; intros k Hs Hk; simpl; [assumption |].
  inversion Hs; subst. apply IH; [assumption | now apply push_good].
Qed.

Lemma good_no_slash allow k : good allow k -> Forall (fun seg => no_slash seg = true) k.
Proof.
  induction 1 as [k _ Hd | | seg k Hp _ IH].
  - induction Hd; constructor; subst; auto.
  - constructor.
  - constructor; [apply Hp | assumption].
Qed.

Lemma fold_app allow (l1 l2 k : list string) :
  fold_left (push_segment allow) (l1 ++ l2) k
  = fold_left (push_segment allow) l2 (fold_left (push_segment allow) l1 k).
Proof. apply fold_left_app. Qed.

Lemma replay_dots (k : list string) :
  Forall (eq "..") k -> fold_left (push_segment true) (rev k) [] = k.
Proof.
  induction 1 as [| seg k <- Hk IH]; [reflexivity |].
  simpl. rewrite fold_left_app, IH. simpl.
  destruct k as [| top below]; [reflexivity |].
  inversion Hk; subst. reflexivity.
Qed.

Lemma replay allow k :
  good allow k -> fold_left (push_segment allow) (rev k) [] = k.
Proof.
  induction 1 as [k Ha Hd | | seg k Hp _ IH].
  - subst. now apply replay_dots.
  - reflexivity.
  - simpl. rewrite fold_left_app, IH. simpl.
    destruct Hp as (H1 & H2 & H3 & _). unfold push_segment.
    destruct (String.eqb_spec seg ""); [contradiction |].
    destruct (String.eqb_spec seg "."); [contradiction |].
    destruct (String.eqb_spec seg ".."); [contradiction |].
    reflexivity.
Qed.

Lemma normalize_render (x : string) :
  x <> "" ->
  normalize x = render (starts_with_slash x) (ends_with_slash x) (stack x).
Proof.
  intros H. unfold normalize. destruct (String.eqb_spec x ""); [contradiction |].
  reflexivity.
Qed.

Lemma stack_good (x : string) : good (negb (starts_with_slash x)) (stack x).
Proof. apply fold_good; [apply split_segments | apply good_nil]. Qed.

Lemma good_nonempty allow k : good allow k -> Forall (fun seg => seg <> "") k.
Proof.
  induction 1 as [k _ Hd | | seg k Hp _ IH].
  - induction Hd; constructor; subst; auto. discriminate.
  - constructor.
  - constructor; [apply Hp | assumption].
Qed.

Lemma append_nonempty_r (s1 s2 : string) : s2 <> "" -> (s1 ++ s2)%string <> "".
Proof. destruct s1; simpl; [auto | discriminate]. Qed.

Lemma append_nonempty_l (s1 s2 : string) : s1 <> "" -> (s1 ++ s2)%string <> "".
Proof. destruct s1; simpl; [congruence | discriminate]. Qed.

Lemma append_assoc (s1 s2 s3 : string) :
  (s1 ++ s2 ++ s3)%string = ((s1 ++ s2) ++ s3)%string.
Proof. induction s1 as [| c r IH]; simpl; [reflexivity | now rewrite IH]. Qed.

Lemma concat_snoc (l : list string) (seg : string) :
  String.concat "/" (l ++ [seg])
  = match l with
    | [] => seg
    | _ => (String.concat "/" l ++ String slash seg)%string
    end.
Proof.
  induction l as [| a l IH]; [reflexivity |].
  destruct l as [| b l]; [reflexivity |].
  change (String.concat "/" ((a :: b :: l) ++ [seg]))
    with (a ++ String slash (String.concat "/" ((b :: l) ++ [seg])))%string.
  rewrite IH.
  change (String.concat "/" (a :: b :: l))
    with (a ++ String slash (String.concat "/" (b :: l)))%string.
  rewrite <- !append_assoc. reflexivity.
Qed.

Lemma ends_append_slash (s : string) : ends_with_slash (s ++ "/") = true.
Proof.
  induction s as [| c r IH]; [reflexivity |].
  simpl. destruct (r ++ "/")%string eqn:E; [| exact IH].
  destruct r; discriminate.
Qed.

Lemma ends_append (s1 s2 : string) :
  s2 <> "" -> ends_with_slash (s1 ++ s2) = ends_with_slash s2.
Proof.
  intros H. induction s1 as [| c r IH]; [reflexivity |].
  simpl. destruct (r ++ s2)%string eqn:E; [| exact IH].
  exfalso. apply (append_nonempty_r r s2 H E).
Qed.

Lemma ends_no_slash (s : string) : no_slash s = true -> ends_with_slash s = false.
Proof.
  induction s as [| c r IH]; [reflexivity |].
  simpl. rewrite andb_true_iff, negb_true_iff. intros [Hc Hr].
  destruct r; [exact Hc | exact (IH Hr)].
Qed.

Lemma starts_no_slash (s rest : string) :
  s <> "" -> no_slash s = true -> starts_with_slash (s ++ rest) = false.
Proof.
  destruct s as [| c r]; [congruence |]. simpl.
  rewrite andb_true_iff, negb_true_iff. intros _ [Hc _]. exact Hc.
Qed.

Lemma concat_cons (a : string) (l : list string) :
  String.concat "/" (a :: l)
  = match l with [] => a | _ => (a ++ String slash (String.concat "/" l))%string end.
Proof. destruct l; reflexivity. Qed.

Lemma concat_nonempty (l : list string) :
  l <> [] -> Forall (fun seg => seg <> "") l -> String.concat "/" l <> "".
Proof.
  destruct l as [| a l]; [congruence |]. intros _ H. inversion H; subst.
  rewrite concat_cons. destruct l; [assumption | now apply append_nonempty_l].
Qed.

Lemma rev_nil_inv {A : Type} (l : list A) : rev l = [] -> l = [].
Proof.
  intros E. apply (f_equal (@rev A)) in E. rewrite rev_involutive in E. exact E.
Qed.

Lemma rev_good_segments allow k :
  good allow k ->
  Forall (fun seg => no_slash seg = true) (rev k) /\
  Forall (fun seg => seg <> "") (rev k).
Proof.
  intros Hk. split; apply Forall_rev;
    [eapply good_no_slash | eapply good_nonempty]; exact Hk.
Qed.

Lemma split_rendered allow k :
  good allow k -> k <> [] -> split (String.concat "/" (rev k)) = rev k.
Proof.
  intros Hk H. apply split_concat; [| now apply (rev_good_segments allow)].
  intros E. apply H, rev_nil_inv, E.
Qed.

Lemma rendered_nonempty allow k :
  good allow k -> k <> [] -> String.concat "/" (rev k) <> "".
Proof.
  intros Hk H. apply concat_nonempty; [| now apply (rev_good_segments allow)].
  intros E. apply H, rev_nil_inv, E.
Qed.

Lemma rendered_starts allow k (rest : string) :
  good allow k -> k <> [] ->
  starts_with_slash (String.concat "/" (rev k) ++ rest) = false.
Proof.
  intros Hk H.
  destruct (rev_good_segments allow k Hk) as [Hs Hn].
  destruct (rev k) as [| f l] eqn:E; [now apply rev_nil_inv in E |].
  inversion Hs; inversion Hn; subst.
  rewrite concat_cons. destruct l.
  - now apply starts_no_slash.
  - rewrite <- append_assoc. now apply starts_no_slash.
Qed.

Lemma rendered_ends allow k (pre : string) :
  good allow k -> k <> [] ->
  ends_with_slash (pre ++ String.concat "/" (rev k)) = false.
Proof.
  intros Hk H. destruct k as [| seg k']; [congruence |].
  assert (Hseg : seg <> "" /\ no_slash seg = true).
  { split.
    - pose proof (good_nonempty _ _ Hk) as F. now inversion F.
    - pose proof (good_no_slash _ _ Hk) as F. now inversion F. }
  destruct Hseg as [Hn Hs].
  simpl rev. rewrite concat_snoc.
  destruct (rev k').
  - rewrite ends_append by assumption. now apply ends_no_slash.
  - rewrite append_assoc.
    change (String slash seg) with ("/" ++ seg)%string.
    rewrite append_assoc.
    rewrite ends_append by assumption.
    now apply ends_no_slash.
Qed.

Lemma append_empty_r (s : string) : (s ++ "")%string = s.
Proof. induction s; simpl; congruence. Qed.

Lemma render_nonempty a t k : render a t k <> "".
Proof.
  unfold render.
  destruct (String.eqb_spec (String.concat "/" (rev k)) "") as [E | E].
  - destruct a, t; discriminate.
  - destruct a, t; simpl; try discriminate; [now apply append_nonempty_l | exact E].
Qed.

Lemma render_starts a t k :
  good (negb a) k -> starts_with_slash (render a t k) = a.
Proof.
  intros Hk. unfold render.
  destruct (String.eqb_spec (String.concat "/" (rev k)) "") as [E | E].
  - destruct a, t; reflexivity.
  - assert (K : k <> []) by (intros ->; apply E; reflexivity).
    destruct a; [destruct t; reflexivity |].
    destruct t; [now apply (rendered_starts (negb false)) |].
    rewrite <- (append_empty_r (String.concat "/" (rev k))).
    now apply (rendered_starts (negb false)).
Qed.

Lemma render_stack a t k :
  good (negb a) k ->
  fold_left (push_segment (negb a)) (split (render a t k)) [] = k.
Proof.
  intros Hk. unfold render.
  destruct (String.eqb_spec (String.concat "/" (rev k)) "") as [E | E].
  - destruct k as [| seg k'].
    + destruct a, t; reflexivity.
    + exfalso. now apply (rendered_nonempty _ _ Hk).
  - assert (K : k <> []) by (intros ->; apply E; reflexivity).
    assert (R := replay _ _ Hk).
    assert (S := split_rendered _ _ Hk K).
    set (p := String.concat "/" (rev k)) in *.
    destruct a, t; simpl negb in *.
    + change ("/" ++ (p ++ "/"))%string
        with ("" ++ String slash (p ++ String slash ""))%string.
      rewrite !split_app_slash, S, !fold_left_app. simpl split.
      change (fold_left (push_segment false) [""] []) with (@nil string).
      rewrite R. reflexivity.
    + change ("/" ++ p)%string with ("" ++ String slash p)%string.
      rewrite !split_app_slash, S, !fold_left_app. simpl split.
      change (fold_left (push_segment false) [""] []) with (@nil string).
      exact R.
    + change (p ++ "/")%string with (p ++ String slash "")%string.
      rewrite !split_app_slash, S, !fold_left_app. rewrite R. reflexivity.
    + rewrite S. exact R.
Qed.

Lemma render_ends a t k :
  good (negb a) k -> k <> [] -> ends_with_slash (render a t k) = t.
Proof.
  intros Hk K. unfold render.
  destruct (String.eqb_spec (String.concat "/" (rev k)) "") as [E | E];
    [now apply (rendered_nonempty _ _ Hk) in E |].
  destruct t.
  - destruct a;
      [change ("/" ++ (String.concat "/" (rev k) ++ "/"))%string
         with (("/" ++ String.concat "/" (rev k)) ++ "/")%string |];
      apply ends_append_slash.
  - destruct a; [apply (rendered_ends _ _ "/" Hk K) | apply (rendered_ends _ _ "" Hk K)].
Qed.

Lemma normalize_render_fixed a t k :
  good (negb a) k -> normalize (render a t k) = render a t k.
Proof.
  intros Hk.
  rewrite normalize_render by apply render_nonempty.
  unfold stack. rewrite (render_starts a t k Hk), (render_stack a t k Hk).
  destruct k as [| seg k'].
  - destruct a, t; reflexivity.
  - rewrite (render_ends a t _ Hk) by congruence. reflexivity.
Qed.

Lemma starts_append (x rest : string) :
  x <> "" -> starts_with_slash (x ++ rest) = starts_with_slash x.
Proof. destruct x; [congruence | reflexivity]. Qed.

Lemma normalize_idempotent (x : string) :
  x <> "" -> normalize (normalize x) = normalize x.
Proof.
  intros H. rewrite (normalize_render x H).
  apply normalize_render_fixed, stack_good.
Qed.

Lemma normalize_extend (x c : string) :
  x <> "" ->
  normalize (x ++ String slash c)
  = render (starts_with_slash x) (ends_with_slash (String slash c))
      (fold_left (push_segment (negb (starts_with_slash x))) (split c) (stack x)).
Proof.
  intros Hx.
  rewrite normalize_render by now apply append_nonempty_l.
  unfold stack.
  rewrite (starts_append x _ Hx), split_app_slash, fold_left_app.
  change (String slash c) with ("/" ++ c)%string.
  rewrite ends_append by discriminate.
  reflexivity.
Qed.

Lemma stack_render a t k : good (negb a) k -> stack (render a t k) = k.
Proof.
  intros Hk. unfold stack. rewrite (render_starts a t k Hk).
  now apply render_stack.
Qed.

Lemma normalize_append (x c : string) :
  x <> "" ->
  normalize (normalize x ++ String slash c) = normalize (x ++ String slash c).
Proof.
  intros Hx.
  rewrite (normalize_extend x c Hx), (normalize_render x Hx).
  rewrite normalize_extend by apply render_nonempty.
  pose proof (stack_good x) as G.
  rewrite (render_starts _ _ _ G), (stack_render _ _ _ G).
  reflexivity.
Qed.

(** [path.join] of a joined path: joining in two steps is joining at
    once, when the first argument is not empty. *)
Lemma join_strings_nested (a b c : string) :
  a <> "" ->
  join_strings [join_strings [a; b]; c] = join_strings [a; b; c].
Proof.
  intros Ha. unfold join_strings. simpl filter. unfold nonempty.
  destruct (String.eqb_spec a "") as [| _]; [contradiction |]. simpl negb. cbv iota.
  assert (N : forall x, x <> "" -> (normalize x =? "") = false).
  { intros x Hx. apply String.eqb_neq. rewrite normalize_render by assumption.
    apply render_nonempty. }
  destruct (String.eqb_spec b "") as [-> | Hb], (String.eqb_spec c "") as [-> | Hc];
    simpl negb; cbv iota.
  - simpl String.concat. rewrite (N a Ha). simpl. now apply normalize_idempotent.
  - simpl String.concat. rewrite (N a Ha). simpl negb. cbv iota.
    simpl String.concat. now apply normalize_append.
  - simpl String.concat. rewrite N by now apply append_nonempty_l. simpl.
    apply normalize_idempotent. now apply append_nonempty_l.
  - simpl String.concat. rewrite N by now apply append_nonempty_l. simpl negb. cbv iota.
    simpl String.concat.
    change ("/" ++ c)%string with (String slash c).
    change ("/" ++ b ++ String slash c)%string with (String slash (b ++ String slash c))%string.
    rewrite normalize_append by now apply append_nonempty_l.
    rewrite <- append_assoc. reflexivity.
Qed.
(** A path that steps out of a relative root of one segment and then names
    [d] is [d] itself. *)
Lemma join_parent_sibling (root r d : string) :
  root <> "" -> starts_with_slash root = false ->
  stack root = [r] -> r <> ".." -> plain d ->
  join_strings [root; ".."; d] = d.
Proof.
  intros Hroot Hrel Hstack Hr (Hd1 & Hd2 & Hd3 & Hd4).
  unfold join_strings. simpl filter. unfold nonempty.
  destruct (String.eqb_spec root "") as [| _]; [contradiction |].
  destruct (String.eqb_spec d "") as [| _]; [contradiction |].
  simpl negb. cbv iota.
  change (String.concat "/" [root; ".."; d])
    with (root ++ String slash (".." ++ String slash d))%string.
  rewrite (normalize_extend root _ Hroot).
  rewrite Hrel, Hstack. simpl negb.
  rewrite (split_app_slash ".." d), (split_no_slash d Hd4).
  change (split "..") with [".."]. cbn [app fold_left].
  assert (P1 : push_segment true [r] ".." = []).
  { unfold push_segment. simpl.
    destruct (String.eqb_spec r "..") as [| _]; [contradiction | reflexivity]. }
  rewrite P1.
  assert (P2 : push_segment true [] d = [d]).
  { unfold push_segment.
    destruct (String.eqb_spec d "") as [| _]; [contradiction |].
    destruct (String.eqb_spec d ".") as [| _]; [contradiction |].
    destruct (String.eqb_spec d "..") as [| _]; [contradiction | reflexivity]. }
  rewrite P2.
  assert (T : ends_with_slash (String slash (".." ++ String slash d)) = false).
  { change (String slash (".." ++ String slash d)) with ("/../" ++ d)%string.
    rewrite (ends_append "/../" d Hd1). now apply ends_no_slash. }
  rewrite T. unfold render. simpl rev. simpl String.concat.
  destruct (String.eqb_spec d "") as [| _]; [contradiction | reflexivity].
Qed.

End PathFacts.

(** ** Numbers *)

Module NumFacts.
Import Num.

Lemma digits2_pos_shift (m : positive) :
Z.pos (digits2_pos (4503599627370496 * m)) = (Z.pos (digits2_pos m) + 52)%Z.
Proof.
change (4503599627370496 * m)%positive with (Pos.iter xO m 52%positive).
cbn [Pos.iter]. cbn [digits2_pos].
rewrite !Pos2Z.inj_succ. lia.
Qed.

Lemma SFmul_one_l (x : spec_float) :
valid_binary x = true ->
SF64mul (S754_finite false 4503599627370496 (-52)) x = x.
Proof.
destruct x as [s | s | | s m e]; try reflexivity.
unfold valid_binary, bounded, canonical_mantissa.
rewrite andb_true_iff, Z.eqb_eq, Z.leb_le. intros [Hc He].
unfold SF64mul, SFmul, binary_round_aux, shr_fexp.
cbn [xorb Zdigits2].
rewrite digits2_pos_shift.
replace (Z.pos (digits2_pos m) + 52 + (-52 + e))%Z
  with (Z.pos (digits2_pos m) + e)%Z by lia.
rewrite Hc.
replace (e - (-52 + e))%Z with 52%Z by lia.
change (4503599627370496 * m)%positive with (Pos.iter xO m 52%positive).
cbn [Pos.iter shr shr_record_of_loc iter_pos shr_1 orb shr_m
     loc_of_shr_record round_nearest_even].
replace (-52 + e + 52)%Z with e by lia.
cbn [Zdigits2]. rewrite Hc, Z.sub_diag. cbn [shr shr_m].
apply Z.leb_le in He. rewrite He. reflexivity.
Qed.

(** Multiplying by one is exact on every binary64 number. *)
Lemma mul_one_l (t : float) : (1 * t)%float = t.
Proof.
apply Prim2SF_inj. rewrite mul_spec.
change (Prim2SF 1) with (S754_finite false 4503599627370496 (-52)).
apply SFmul_one_l, Prim2SF_valid.
Qed.

Lemma Math_round_integral (x : float) : is_integral x = true -> Math_round x = x.
Proof. intros H. unfold Math_round. rewrite H, orb_true_r. reflexivity. Qed.

Lemma SFcompare_refl (x : spec_float) :
x <> S754_nan -> SFcompare x x = Some Eq.
Proof.
destruct x as [s | s | | s m e]; try congruence; intros _; simpl.
- reflexivity.
- destruct s; reflexivity.
- rewrite Z.compare_refl, Pos.compare_cont_refl. destruct s; reflexivity.
Qed.

Lemma strict_eq_refl_integral (x : float) : is_integral x = true -> strict_eq x x = true.
Proof.
unfold is_integral, strict_eq. intros H.
rewrite eqb_spec. unfold SFeqb. rewrite SFcompare_refl; [reflexivity |].
intros E. rewrite E in H. discriminate.
Qed.

(** *** Whole numbers *)

Local Open Scope Z_scope.

Lemma iter_xO_value (q d : positive) : Zpos (Pos.iter xO q d) = Zpos q * 2 ^ Zpos d.
Proof.
  change (Pos.iter xO q d) with (shift_pos d q).
  rewrite shift_pos_correct. change (2 ^ Zpos d) with (Z.pow_pos 2 d). ring.
Qed.

Lemma shl_value (q : positive) (k : Z) : 0 <= k -> Zpos (shl q k) = Zpos q * 2 ^ k.
Proof.
  destruct k as [| d | d]; intros H; [simpl; lia | apply iter_xO_value | lia].
Qed.

Lemma digits_iter_xO (q d : positive) :
  digits2_pos (Pos.iter xO q d) = (digits2_pos q + d)%positive.
Proof.
  induction d as [| d IH] using Pos.peano_ind.
  - simpl. lia.
  - rewrite Pos.iter_succ. simpl. rewrite IH. lia.
Qed.

Lemma digits_shl (q : positive) (k : Z) :
  0 <= k -> Zpos (digits2_pos (shl q k)) = Zpos (digits2_pos q) + k.
Proof.
  destruct k as [| d | d]; intros H; [simpl; lia | | lia].
  simpl. rewrite digits_iter_xO. lia.
Qed.

Lemma iter_pos_iter {A : Type} (f : A -> A) (p : positive) :
  forall x, iter_pos f p x = Pos.iter f x p.
Proof.
  induction p as [p IH | p IH |]; intros x; simpl.
  - rewrite !IH, Pos.iter_swap, (Pos.iter_swap p _ f (Pos.iter f x p)). reflexivity.
  - rewrite !IH. reflexivity.
  - reflexivity.
Qed.

Lemma shr_exact (X p : positive) :
  iter_pos shr_1 p {| shr_m := Zpos (Pos.iter xO X p); shr_r := false; shr_s := false |}
  = {| shr_m := Zpos X; shr_r := false; shr_s := false |}.
Proof.
  rewrite iter_pos_iter.
  induction p as [| p IH] using Pos.peano_ind.
  - reflexivity.
  - rewrite Pos.iter_succ_r, Pos.iter_succ. simpl shr_1. exact IH.
Qed.

Lemma digits_lower (q : positive) : 2 ^ (Zpos (digits2_pos q) - 1) <= Zpos q.
Proof.
  induction q as [q IH | q IH |]; cbn [digits2_pos]; [| | simpl; lia].
  - rewrite Pos2Z.inj_succ, (Pos2Z.inj_xI q).
    replace (Z.succ (Zpos (digits2_pos q)) - 1) with (Z.succ (Zpos (digits2_pos q) - 1)) by lia.
    rewrite Z.pow_succ_r by lia. lia.
  - rewrite Pos2Z.inj_succ, (Pos2Z.inj_xO q).
    replace (Z.succ (Zpos (digits2_pos q)) - 1) with (Z.succ (Zpos (digits2_pos q) - 1)) by lia.
    rewrite Z.pow_succ_r by lia. lia.
Qed.

Lemma digits_at_most_53 (q : positive) :
  Zpos q < 2 ^ 53 -> Zpos (digits2_pos q) <= 53.
Proof.
  intros H. destruct (Z_le_gt_dec (Zpos (digits2_pos q)) 53) as [L | G]; [exact L |].
  exfalso. pose proof (digits_lower q) as B.
  assert (2 ^ 53 <= 2 ^ (Zpos (digits2_pos q) - 1)) by (apply Z.pow_le_mono_r; lia).
  lia.
Qed.

(** The binary64 number of a whole number below [2^53], given with any
    number [k] of trailing zero bits: its mantissa has 53 digits. *)
Lemma binary_round_whole (q : positive) (k : Z) :
  Zpos q < 2 ^ 53 -> 0 <= k ->
  binary_round prec emax false (shl q k) (- k)
  = S754_finite false (shl q (53 - Zpos (digits2_pos q)))
      (- (53 - Zpos (digits2_pos q))).
Proof.
  intros Hq Hk. pose proof (digits_at_most_53 q Hq) as HD.
  set (j := 53 - Zpos (digits2_pos q)) in *.
  assert (Hj : 0 <= j <= 52) by (unfold j; lia).
  assert (F : forall x, x - 53 = - j -> fexp prec emax x = - j).
  { intros x Hx. unfold fexp, emin, prec, emax. lia. }
  assert (A : binary_round_aux prec emax false (Zpos (shl q j)) (- j) loc_Exact
              = S754_finite false (shl q j) (- j)).
  { unfold binary_round_aux, shr_fexp. cbn [Zdigits2 shr_record_of_loc].
    rewrite (digits_shl q j) by lia.
    rewrite F by (unfold j; lia). rewrite Z.sub_diag.
    cbn [shr shr_m loc_of_shr_record round_nearest_even Zdigits2 shr_record_of_loc].
    rewrite (digits_shl q j) by lia.
    rewrite F by (unfold j; lia). rewrite Z.sub_diag. cbn [shr shr_m].
    replace (- j <=? emax - prec) with true; [reflexivity |].
    symmetry. apply Z.leb_le. unfold emax, prec. lia. }
  unfold binary_round.
  rewrite (digits_shl q k Hk).
  rewrite F by (unfold j; lia).
  unfold shl_align.
  destruct (- j - - k) as [| d | d] eqn:E.
  - assert (k = j) by lia. subst k. exact A.
  - (* k > j: the mantissa is shifted right, exactly *)
    assert (S : shl q k = Pos.iter xO (shl q j) d).
    { apply Pos2Z.inj. rewrite iter_xO_value, !shl_value by lia.
      rewrite <- Z.mul_assoc, <- Z.pow_add_r by lia. f_equal. f_equal. lia. }
    unfold binary_round_aux, shr_fexp. cbn [Zdigits2 shr_record_of_loc].
    rewrite (digits_shl q k Hk).
    rewrite F by (unfold j; lia).
    rewrite E. cbn [shr]. rewrite S, shr_exact.
    cbn [shr_m loc_of_shr_record round_nearest_even Zdigits2 shr_record_of_loc].
    rewrite (digits_shl q j) by lia.
    replace (- k + Zpos d) with (- j) by lia.
    rewrite F by (unfold j; lia). rewrite Z.sub_diag. cbn [shr shr_m].
    replace (- j <=? emax - prec) with true; [reflexivity |].
    symmetry. apply Z.leb_le. unfold emax, prec. lia.
  - (* k < j: the mantissa is shifted left *)
    assert (S : Pos.iter xO (shl q k) d = shl q j).
    { apply Pos2Z.inj. rewrite iter_xO_value, !shl_value by lia.
      rewrite <- Z.mul_assoc, <- Z.pow_add_r by lia. f_equal. f_equal. lia. }
    rewrite S. exact A.
Qed.

Lemma whole_valid (q : positive) :
  Zpos q < 2 ^ 53 ->
  valid_binary (S754_finite false (shl q (53 - Zpos (digits2_pos q)))
                  (- (53 - Zpos (digits2_pos q)))) = true.
Proof.
  intros Hq. pose proof (digits_at_most_53 q Hq) as HD.
  unfold valid_binary, bounded, canonical_mantissa.
  rewrite digits_shl by lia.
  apply andb_true_iff. split.
  - apply Z.eqb_eq. unfold fexp, emin, prec, emax. lia.
  - apply Z.leb_le. unfold prec, emax. lia.
Qed.

Lemma Prim2SF_of_Z (q : positive) :
  Zpos q < 2 ^ 53 ->
  Prim2SF (of_Z (Zpos q))
  = S754_finite false (shl q (53 - Zpos (digits2_pos q)))
      (- (53 - Zpos (digits2_pos q))).
Proof.
  intros Hq. unfold of_Z, binary_normalize.
  pose proof (binary_round_whole q 0 Hq (Z.le_refl 0)) as B.
  cbn [shl Z.opp] in B. rewrite B.
  apply Prim2SF_SF2Prim, whole_valid, Hq.
Qed.

(** Adding one to a whole number below [2^53 - 1] is exact. *)
Lemma add_one_whole (n : Z) :
  0 <= n < 2 ^ 53 - 1 -> (of_Z n + 1)%float = of_Z (n + 1).
Proof.
  intros Hn. destruct n as [| q | q]; [reflexivity | | lia].
  apply Prim2SF_inj. rewrite add_spec.
  rewrite (Prim2SF_of_Z q) by lia.
  replace (Zpos q + 1) with (Zpos (q + 1)) by lia.
  rewrite (Prim2SF_of_Z (q + 1)) by lia.
  change (Prim2SF 1) with (S754_finite false 4503599627370496 (-52)).
  pose proof (digits_at_most_53 q ltac:(lia)) as HD.
  set (j := 53 - Zpos (digits2_pos q)) in *.
  unfold SF64add, SFadd.
  replace (Z.min (- j) (-52)) with (-52) by lia.
  assert (L : fst (shl_align (shl q j) (- j) (-52)) = shl q 52).
  { unfold shl_align. destruct (-52 - - j) as [| d | d] eqn:E.
    - assert (j = 52) by lia. now subst j; rewrite H.
    - lia.
    - simpl fst. apply Pos2Z.inj. rewrite iter_xO_value, !shl_value by lia.
      rewrite <- Z.mul_assoc, <- Z.pow_add_r by lia. f_equal. f_equal. lia. }
  rewrite L.
  change (fst (shl_align 4503599627370496 (-52) (-52))) with 4503599627370496%positive.
  cbn [cond_Zopp].
  assert (P : (shl q 52 + 4503599627370496)%positive = shl (q + 1) 52).
  { apply Pos2Z.inj. rewrite Pos2Z.inj_add, !shl_value by lia. lia. }
  rewrite <- Pos2Z.inj_add, P.
  unfold binary_normalize.
  apply (binary_round_whole (q + 1) 52); lia.
Qed.

Lemma of_Z_integral (n : Z) : 0 <= n < 2 ^ 53 -> is_integral (of_Z n) = true.
Proof.
  intros Hn. destruct n as [| q | q]; [reflexivity | | lia].
  unfold is_integral. rewrite (Prim2SF_of_Z q) by lia.
  pose proof (digits_at_most_53 q ltac:(lia)) as HD.
  set (j := 53 - Zpos (digits2_pos q)) in *.
  apply orb_true_iff. right. apply Z.eqb_eq.
  rewrite shl_value, Z.opp_involutive by lia.
  apply Z.mod_mul. apply Z.pow_nonzero; lia.
Qed.


(** [x % 2 === 0] on a whole number says that it is even. *)
Lemma rem_two_even (n : Z) :
  0 <= n < 2 ^ 53 -> strict_eq (rem (of_Z n) 2%float) 0%float = Z.even n.
Proof.
  intros Hn. destruct n as [| q | q]; [reflexivity | | lia].
  unfold rem. rewrite (Prim2SF_of_Z q) by lia.
  change (Prim2SF 2) with (S754_finite false 4503599627370496 (-51)).
  pose proof (digits_at_most_53 q ltac:(lia)) as HD.
  set (j := 53 - Zpos (digits2_pos q)) in *.
  cbv zeta. rewrite shl_value by lia.
  assert (J : j <= 51 \/ j = 52) by lia.
  destruct J as [J | J].
  - replace (Z.min (- j) (-51)) with (-51) by lia.
    replace (-51 - -51) with 0 by lia.
    replace (Zpos q * 2 ^ j * 2 ^ (- j - -51)) with (Zpos q * 2 ^ 51).
    2:{ rewrite <- Z.mul_assoc, <- Z.pow_add_r by lia. f_equal. f_equal. lia. }
    replace (Zpos q * 2 ^ 51) with (2 ^ 51 * Zpos q) by ring.
    change (4503599627370496 * 2 ^ 0) with (2 ^ 51 * 2).
    rewrite Z.mul_mod_distr_l by lia.
    rewrite Zmod_even. destruct (Z.even (Zpos q)); reflexivity.
  - (* q = 1 *)
    assert (Q : q = 1%positive).
    { pose proof (digits_lower q). assert (Zpos (digits2_pos q) = 1) by lia.
      destruct q; simpl in *; lia. }
    subst q. reflexivity.
Qed.

Lemma strict_eq_of_Z (n m : Z) :
  0 <= n < 2 ^ 53 -> 0 <= m < 2 ^ 53 -> strict_eq (of_Z n) (of_Z m) = (n =? m).
Proof.
  intros Hn Hm. destruct (Z.eqb_spec n m) as [-> | D].
  - apply strict_eq_refl_integral, of_Z_integral, Hm.
  - unfold strict_eq. rewrite eqb_spec.
    destruct n as [| q | q], m as [| q' | q']; try lia; try congruence.
    + rewrite (Prim2SF_of_Z q') by lia. reflexivity.
    + rewrite (Prim2SF_of_Z q) by lia. reflexivity.
    + rewrite (Prim2SF_of_Z q), (Prim2SF_of_Z q') by lia.
      pose proof (digits_at_most_53 q ltac:(lia)) as HD.
      pose proof (digits_at_most_53 q' ltac:(lia)) as HD'.
      set (j := 53 - Zpos (digits2_pos q)) in *.
      set (j' := 53 - Zpos (digits2_pos q')) in *.
      unfold SFeqb, SFcompare.
      destruct (Z.compare_spec (- j) (- j')) as [E | L | L]; try reflexivity.
      assert (j = j') by lia.
      rewrite Pos.compare_cont_spec. unfold Pos.switch_Eq.
      destruct (Pos.compare_spec (shl q j) (shl q' j')) as [E' | L | L];
        try reflexivity.
      exfalso. apply D. f_equal.
      apply (f_equal Zpos) in E'. rewrite !shl_value in E' by lia.
      replace j' with j in E' by lia.
      apply Z.mul_reg_r in E'; [congruence |]. apply Z.pow_nonzero; lia.
Qed.

(** *** Negative whole numbers *)

Lemma binary_round_whole_neg (q : positive) (k : Z) :
  Zpos q < 2 ^ 53 -> 0 <= k ->
  binary_round prec emax true (shl q k) (- k)
  = S754_finite true (shl q (53 - Zpos (digits2_pos q)))
      (- (53 - Zpos (digits2_pos q))).
Proof.
  intros Hq Hk. pose proof (digits_at_most_53 q Hq) as HD.
  set (j := 53 - Zpos (digits2_pos q)) in *.
  assert (Hj : 0 <= j <= 52) by (unfold j; lia).
  assert (F : forall x, x - 53 = - j -> fexp prec emax x = - j).
  { intros x Hx. unfold fexp, emin, prec, emax. lia. }
  assert (A : binary_round_aux prec emax true (Zpos (shl q j)) (- j) loc_Exact
              = S754_finite true (shl q j) (- j)).
  { unfold binary_round_aux, shr_fexp. cbn [Zdigits2 shr_record_of_loc].
    rewrite (digits_shl q j) by lia.
    rewrite F by (unfold j; lia). rewrite Z.sub_diag.
    cbn [shr shr_m loc_of_shr_record round_nearest_even Zdigits2 shr_record_of_loc].
    rewrite (digits_shl q j) by lia.
    rewrite F by (unfold j; lia). rewrite Z.sub_diag. cbn [shr shr_m].
    replace (- j <=? emax - prec) with true; [reflexivity |].
    symmetry. apply Z.leb_le. unfold emax, prec. lia. }
  unfold binary_round.
  rewrite (digits_shl q k Hk).
  rewrite F by (unfold j; lia).
  unfold shl_align.
  destruct (- j - - k) as [| d | d] eqn:E.
  - assert (k = j) by lia. subst k. exact A.
  - assert (S : shl q k = Pos.iter xO (shl q j) d).
    { apply Pos2Z.inj. rewrite iter_xO_value, !shl_value by lia.
      rewrite <- Z.mul_assoc, <- Z.pow_add_r by lia. f_equal. f_equal. lia. }
    unfold binary_round_aux, shr_fexp. cbn [Zdigits2 shr_record_of_loc].
    rewrite (digits_shl q k Hk).
    rewrite F by (unfold j; lia).
    rewrite E. cbn [shr]. rewrite S, shr_exact.
    cbn [shr_m loc_of_shr_record round_nearest_even Zdigits2 shr_record_of_loc].
    rewrite (digits_shl q j) by lia.
    replace (- k + Zpos d) with (- j) by lia.
    rewrite F by (unfold j; lia). rewrite Z.sub_diag. cbn [shr shr_m].
    replace (- j <=? emax - prec) with true; [reflexivity |].
    symmetry. apply Z.leb_le. unfold emax, prec. lia.
  - assert (S : Pos.iter xO (shl q k) d = shl q j).
    { apply Pos2Z.inj. rewrite iter_xO_value, !shl_value by lia.
      rewrite <- Z.mul_assoc, <- Z.pow_add_r by lia. f_equal. f_equal. lia. }
    rewrite S. exact A.
Qed.

Lemma Prim2SF_of_Z_neg (q : positive) :
  Zpos q < 2 ^ 53 ->
  Prim2SF (of_Z (Zneg q))
  = S754_finite true (shl q (53 - Zpos (digits2_pos q)))
      (- (53 - Zpos (digits2_pos q))).
Proof.
  intros Hq. unfold of_Z, binary_normalize.
  pose proof (binary_round_whole_neg q 0 Hq (Z.le_refl 0)) as B.
  cbn [shl Z.opp] in B. rewrite B.
  apply Prim2SF_SF2Prim. exact (whole_valid q Hq).
Qed.

Lemma rem_two_even_neg (q : positive) :
  Zpos q < 2 ^ 53 -> strict_eq (rem (of_Z (Zneg q)) 2%float) 0%float = Z.even (Zneg q).
Proof.
  intros Hn.
  unfold rem. rewrite (Prim2SF_of_Z_neg q) by lia.
  change (Prim2SF 2) with (S754_finite false 4503599627370496 (-51)).
  pose proof (digits_at_most_53 q ltac:(lia)) as HD.
  set (j := 53 - Zpos (digits2_pos q)) in *.
  cbv zeta. rewrite shl_value by lia.
  change (Z.even (Z.neg q)) with (Z.even (Z.pos q)).
  assert (J : j <= 51 \/ j = 52) by lia.
  destruct J as [J | J].
  - replace (Z.min (- j) (-51)) with (-51) by lia.
    replace (-51 - -51) with 0 by lia.
    replace (Zpos q * 2 ^ j * 2 ^ (- j - -51)) with (Zpos q * 2 ^ 51).
    2:{ rewrite <- Z.mul_assoc, <- Z.pow_add_r by lia. f_equal. f_equal. lia. }
    replace (Zpos q * 2 ^ 51) with (2 ^ 51 * Zpos q) by ring.
    change (4503599627370496 * 2 ^ 0) with (2 ^ 51 * 2).
    rewrite Z.mul_mod_distr_l by lia.
    rewrite Zmod_even. destruct (Z.even (Zpos q)); reflexivity.
  - assert (Q : q = 1%positive).
    { pose proof (digits_lower q). assert (Zpos (digits2_pos q) = 1) by lia.
      destruct q; simpl in *; lia. }
    subst q. reflexivity.
Qed.

Lemma strict_eq_neg_of_Z (q : positive) (t : Z) :
  Zpos q < 2 ^ 53 -> 0 <= t < 2 ^ 53 -> strict_eq (of_Z (Zneg q)) (of_Z t) = false.
Proof.
  intros Hq Ht. unfold strict_eq. rewrite eqb_spec.
  rewrite (Prim2SF_of_Z_neg q Hq).
  destruct t as [| p | p]; [reflexivity | | lia].
  rewrite (Prim2SF_of_Z p) by lia. reflexivity.
Qed.

(** *** Not a number, and zero *)

Lemma mul_nan_l (t : float) : (nan * t)%float = nan.
Proof. apply Prim2SF_inj. rewrite mul_spec. reflexivity. Qed.

Lemma mul_nan_r (t : float) : (t * nan)%float = nan.
Proof.
  apply Prim2SF_inj. rewrite mul_spec.
  change (Prim2SF nan) with S754_nan.
  destruct (Prim2SF t) as [s | s | | s m e]; reflexivity.
Qed.

Lemma strict_eq_nan (t : float) : strict_eq nan t = false.
Proof. unfold strict_eq. rewrite eqb_spec. reflexivity. Qed.

(** Zero times a finite number is a zero. *)
Lemma mul_zero_finite (t : float) :
  is_finite t = true -> (0 * t)%float = 0%float \/ (0 * t)%float = (-0)%float.
Proof.
  unfold is_finite. intros H.
  assert (E : exists s, Prim2SF (0 * t) = S754_zero s).
  { rewrite mul_spec. change (Prim2SF 0) with (S754_zero false).
    destruct (Prim2SF t) as [s | s | | s m e]; try discriminate; eexists; reflexivity. }
  destruct E as [[|] E]; [right | left]; apply Prim2SF_inj; rewrite E; reflexivity.
Qed.

End NumFacts.

(** *** Rounding to the nearest whole number *)

Module RoundFacts.
Import Num NumFacts.
Local Open Scope Z_scope.

Lemma round_half_up_nearest (m : positive) (e : Z) :
  e < 0 ->
  2 ^ (- e) * (2 * round_half_up m e - 1) <= 2 * Z.pos m
  < 2 ^ (- e) * (2 * round_half_up m e + 1).
Proof.
  intros He. unfold round_half_up.
  destruct (Z.leb_spec 0 e) as [L | _]; [lia |].
  assert (D : 0 < 2 ^ (- e)) by (apply Z.pow_pos_nonneg; lia).
  set (d := 2 ^ (- e)) in *.
  pose proof (Z.div_mod (2 * Z.pos m + d) (2 * d) ltac:(lia)) as E.
  pose proof (Z.mod_pos_bound (2 * Z.pos m + d) (2 * d) ltac:(lia)) as B.
  set (z := (2 * Z.pos m + d) / (2 * d)) in *.
  nia.
Qed.

Lemma round_half_up_nonneg (m : positive) (e : Z) : 0 <= round_half_up m e.
Proof.
  unfold round_half_up. destruct (Z.leb_spec 0 e).
  - apply Z.mul_nonneg_nonneg; [lia | apply Z.pow_nonneg; lia].
  - apply Z.div_pos.
    + assert (0 < 2 ^ (- e)) by (apply Z.pow_pos_nonneg; lia). lia.
    + assert (0 < 2 ^ (- e)) by (apply Z.pow_pos_nonneg; lia). lia.
Qed.

(** The mantissa of a binary64 number that is not subnormal has 53
    digits. *)
Lemma canonical_digits (m : positive) (e : Z) :
  valid_binary (S754_finite false m e) = true ->
  -1074 < e -> Z.pos (digits2_pos m) = 53.
Proof.
  unfold valid_binary, bounded, canonical_mantissa, fexp, emin, SpecFloat.emin.
  rewrite andb_true_iff, Z.eqb_eq. intros [H _] He.
  change (3 - emax - prec) with (-1074) in H. change prec with 53 in H. lia.
Qed.

(** A whole number below [2^53] that is a binary64 number is the number
    [of_Z] gives. *)
Lemma whole_is_of_Z (m n : positive) (e : Z) :
  valid_binary (S754_finite false m e) = true ->
  e <= 0 -> Z.pos m = Z.pos n * 2 ^ (- e) -> Z.pos n < 2 ^ 53 ->
  Prim2SF (of_Z (Z.pos n)) = S754_finite false m e.
Proof.
  intros Hv He Hm Hn.
  rewrite (Prim2SF_of_Z n Hn).
  assert (Hs : m = shl n (- e)).
  { apply Pos2Z.inj. rewrite shl_value by lia. exact Hm. }
  assert (Hd : Z.pos (digits2_pos m) = Z.pos (digits2_pos n) + - e).
  { rewrite Hs. apply digits_shl. lia. }
  assert (E : 53 - Z.pos (digits2_pos n) = - e).
  { destruct (Z_lt_le_dec (-1074) e) as [L | G].
    - pose proof (canonical_digits m e Hv L). lia.
    - exfalso.
      pose proof (digits_at_most_53 n Hn) as A.
      assert (P : 0 < Z.pos (digits2_pos n)) by lia.
      revert Hv. unfold valid_binary, bounded, canonical_mantissa, fexp, emin, SpecFloat.emin.
      rewrite andb_true_iff, Z.eqb_eq. intros [C _].
      change (3 - emax - prec) with (-1074) in C. change prec with 53 in C. lia. }
  rewrite E, Z.opp_involutive, <- Hs. reflexivity.
Qed.

Lemma Math_round_positive (x : float) (m : positive) (e : Z) :
  Prim2SF x = S754_finite false m e ->
  round_half_up m e < 2 ^ 53 ->
  Math_round x = of_Z (round_half_up m e).
Proof.
  intros Hx Hz.
  pose proof (Prim2SF_valid x) as Hv. rewrite Hx in Hv.
  unfold Math_round, is_finite, is_integral. rewrite Hx. cbn [negb orb].
  unfold round_half_up in *.
  destruct (Z.leb_spec 0 e) as [L | L].
  - (* no fraction bits *)
    cbn [orb].
    assert (He : e = 0).
    { pose proof (canonical_digits m e Hv ltac:(lia)) as D.
      pose proof (digits_lower m) as B. rewrite D in B.
      destruct (Z.eq_dec e 0) as [-> | N]; [reflexivity |].
      exfalso.
      assert (2 ^ 1 <= 2 ^ e) by (apply Z.pow_le_mono_r; lia).
      change (2 ^ (53 - 1)) with 4503599627370496 in B.
      change (2 ^ 53) with 9007199254740992 in Hz.
      change (2 ^ 1) with 2 in H. nia. }
    subst e. rewrite Z.pow_0_r, Z.mul_1_r in *.
    apply Prim2SF_inj. rewrite Hx. symmetry.
    apply (whole_is_of_Z m m 0 Hv); [lia | simpl; lia | exact Hz].
  - assert (D : 0 < 2 ^ (- e)) by (apply Z.pow_pos_nonneg; lia).
    destruct (Z.eqb_spec (Z.pos m mod 2 ^ (- e)) 0) as [W | F].
    + (* a whole number written with fraction bits *)
      cbn [orb].
      set (d := 2 ^ (- e)) in *.
      assert (Hq : Z.pos m = (Z.pos m / d) * d).
      { pose proof (Z.div_mod (Z.pos m) d ltac:(lia)). lia. }
      assert (Hr : (2 * Z.pos m + d) / (2 * d) = Z.pos m / d).
      { rewrite Hq at 1.
        replace (2 * (Z.pos m / d * d) + d) with (d + (Z.pos m / d) * (2 * d)) by ring.
        rewrite Z.div_add by lia. rewrite Z.div_small by lia. lia. }
      rewrite Hr in *.
      assert (Hp : 0 < Z.pos m / d).
      { destruct (Z_lt_le_dec 0 (Z.pos m / d)) as [P | N]; [exact P |].
        exfalso. pose proof (Z.div_pos (Z.pos m) d ltac:(lia) ltac:(lia)). 
        assert (Z.pos m / d = 0) by lia. rewrite H0 in Hq. lia. }
      destruct (Z.pos m / d) as [| n | n] eqn:N; try lia.
      apply Prim2SF_inj. rewrite Hx. symmetry.
      apply (whole_is_of_Z m n e Hv); [lia | | exact Hz].
      fold d. lia.
    + cbn [orb]. cbv zeta. cbn [cond_Zopp].
      destruct (Z.eqb_spec ((2 * Z.pos m + 2 ^ (- e)) / (2 * 2 ^ (- e))) 0) as [-> | _];
        reflexivity.
Qed.

Lemma round_half_up_neg_nearest (m : positive) (e : Z) :
  e < 0 ->
  2 ^ (- e) * (2 * round_half_up_neg m e - 1) <= 2 * Z.neg m
  < 2 ^ (- e) * (2 * round_half_up_neg m e + 1).
Proof.
  intros He. unfold round_half_up_neg.
  destruct (Z.leb_spec 0 e) as [L | _]; [lia |].
  assert (D : 0 < 2 ^ (- e)) by (apply Z.pow_pos_nonneg; lia).
  set (d := 2 ^ (- e)) in *.
  pose proof (Z.div_mod (2 * Z.neg m + d) (2 * d) ltac:(lia)) as E.
  pose proof (Z.mod_pos_bound (2 * Z.neg m + d) (2 * d) ltac:(lia)) as B.
  set (z := (2 * Z.neg m + d) / (2 * d)) in *.
  nia.
Qed.

Lemma round_half_up_neg_nonpos (m : positive) (e : Z) : round_half_up_neg m e <= 0.
Proof.
  unfold round_half_up_neg. destruct (Z.leb_spec 0 e).
  - assert (0 < 2 ^ e) by (apply Z.pow_pos_nonneg; lia). nia.
  - assert (D : 0 < 2 ^ (- e)) by (apply Z.pow_pos_nonneg; lia).
    set (d := 2 ^ (- e)) in *.
    assert ((2 * Z.neg m + d) / (2 * d) < 1); [| lia].
    apply Z.div_lt_upper_bound; lia.
Qed.

Lemma whole_is_of_Z_neg (m n : positive) (e : Z) :
  valid_binary (S754_finite true m e) = true ->
  e <= 0 -> Z.pos m = Z.pos n * 2 ^ (- e) -> Z.pos n < 2 ^ 53 ->
  Prim2SF (of_Z (Z.neg n)) = S754_finite true m e.
Proof.
  intros Hv He Hm Hn.
  pose proof (whole_is_of_Z m n e Hv He Hm Hn) as P.
  rewrite (Prim2SF_of_Z n Hn) in P.
  rewrite (Prim2SF_of_Z_neg n Hn). congruence.
Qed.

Lemma Math_round_negative (x : float) (m : positive) (e : Z) :
  Prim2SF x = S754_finite true m e ->
  - 2 ^ 53 < round_half_up_neg m e ->
  Math_round x
  = if round_half_up_neg m e =? 0 then (-0)%float else of_Z (round_half_up_neg m e).
Proof.
  intros Hx Hz.
  pose proof (Prim2SF_valid x) as Hv. rewrite Hx in Hv.
  unfold Math_round, is_finite, is_integral. rewrite Hx. cbn [negb orb].
  unfold round_half_up_neg in *.
  destruct (Z.leb_spec 0 e) as [L | L].
  - cbn [orb].
    assert (P : 0 < 2 ^ e) by (apply Z.pow_pos_nonneg; lia).
    assert (He : e = 0).
    { pose proof (canonical_digits m e Hv ltac:(lia)) as D.
      pose proof (digits_lower m) as B. rewrite D in B.
      destruct (Z.eq_dec e 0) as [-> | N]; [reflexivity |].
      exfalso.
      assert (2 ^ 1 <= 2 ^ e) by (apply Z.pow_le_mono_r; lia).
      change (2 ^ (53 - 1)) with 4503599627370496 in B.
      change (2 ^ 53) with 9007199254740992 in Hz.
      change (2 ^ 1) with 2 in H. nia. }
    subst e. rewrite Z.pow_0_r, Z.mul_1_r in *.
    cbn [Z.eqb].
    apply Prim2SF_inj. rewrite Hx. symmetry.
    apply (whole_is_of_Z_neg m m 0 Hv); [lia | simpl; lia | lia].
  - assert (D : 0 < 2 ^ (- e)) by (apply Z.pow_pos_nonneg; lia).
    destruct (Z.eqb_spec (Z.pos m mod 2 ^ (- e)) 0) as [W | F].
    + cbn [orb].
      set (d := 2 ^ (- e)) in *.
      assert (Hq : Z.pos m = (Z.pos m / d) * d).
      { pose proof (Z.div_mod (Z.pos m) d ltac:(lia)). lia. }
      assert (Hr : (2 * Z.neg m + d) / (2 * d) = - (Z.pos m / d)).
      { replace (2 * Z.neg m + d) with (d + (- (Z.pos m / d)) * (2 * d)) by lia.
        rewrite Z.div_add by lia. rewrite Z.div_small by lia. lia. }
      rewrite Hr in *.
      assert (Hp : 0 < Z.pos m / d).
      { destruct (Z_lt_le_dec 0 (Z.pos m / d)) as [P | N]; [exact P |].
        exfalso. pose proof (Z.div_pos (Z.pos m) d ltac:(lia) ltac:(lia)).
        assert (Z.pos m / d = 0) by lia. rewrite H0 in Hq. lia. }
      destruct (Z.pos m / d) as [| n | n] eqn:N; try lia.
      cbn [Z.opp Z.eqb].
      apply Prim2SF_inj. rewrite Hx. symmetry.
      apply (whole_is_of_Z_neg m n e Hv); [lia | | lia].
      fold d. lia.
    + cbn [orb]. cbv zeta. cbn [cond_Zopp signed_zero Z.opp]. reflexivity.
Qed.

End RoundFacts.

(** ** The in-memory backend meets the laws *)

Module MemFSFacts.
Import MemFS.

Lemma find_head (k : key) (e : entry) (s : t) : find k ((k, e) :: s) = Some e.
Proof. simpl. destruct (key_eq_dec k k); [reflexivity | contradiction]. Qed.

Lemma entry_at_set (k : key) (e : entry) (s : t) :
  k <> [] -> entry_at k (set k e s) = Some e.
Proof.
  intros H. unfold entry_at, set. destruct k; [contradiction | apply find_head].
Qed.

Lemma writeFile_then_read (p : string) (data : list byte) (s s' : t) :
  writeFile p data s = (Ok tt, s') ->
  access p s' = Ok tt /\
  readFile p s' = Ok data /\
  exists st, stat p s' = Ok st /\ size st = length data.
Proof.
  unfold writeFile, access, readFile, stat.
  destruct (resolve p) as [| c k] eqn:E; [discriminate |].
  destruct (entry_at (parent (c :: k)) s) as [[? |] |]; try discriminate.
  intros H.
  assert (S : s' = set (c :: k) (File data) s).
  { destruct (find (c :: k) s) as [[? |] |]; congruence. }
  subst s'. rewrite entry_at_set by discriminate.
  split; [reflexivity |]. split; [reflexivity |].
  eexists. split; reflexivity.
Qed.

(** [mkdirs] only adds entries. *)
Lemma mkdirs_monotone (todo : list string) :
  forall above s r s',
    mkdirs above todo s = (r, s') ->
    forall k e, find k s = Some e -> find k s' = Some e.
Proof.
  induction todo as [| c rest IH]; intros above s r s' H k e Hk; simpl in H.
  - now injection H as _ <-.
  - destruct (find (above ++ [c]) s) as [[? |] |] eqn:F.
    + now injection H as _ <-.
    + eapply IH; eassumption.
    + eapply IH; [eassumption |]. simpl.
      destruct (key_eq_dec k (above ++ [c])); [congruence | assumption].
Qed.

Lemma mkdirs_again (todo : list string) :
  forall above s s',
    mkdirs above todo s = (Ok tt, s') ->
    forall s2,
      (forall k e, find k s' = Some e -> find k s2 = Some e) ->
      mkdirs above todo s2 = (Ok tt, s2).
Proof.
  induction todo as [| c rest IH]; intros above s s' H s2 Hs2; simpl in *.
  - reflexivity.
  - assert (D : exists s1, mkdirs (above ++ [c]) rest s1 = (Ok tt, s')
                           /\ find (above ++ [c]) s1 = Some Directory).
    { destruct (find (above ++ [c]) s) as [[? |] |] eqn:F.
      - discriminate.
      - exists s. auto.
      - eexists. split; [exact H | apply find_head]. }
    destruct D as (s1 & H1 & F1).
    rewrite (Hs2 _ _ (mkdirs_monotone _ _ _ _ _ H1 _ _ F1)).
    eapply IH; eassumption.
Qed.

Lemma mkdir_recursive_twice (p : string) (s s' : t) :
  mkdir_recursive p s = (Ok tt, s') -> mkdir_recursive p s' = (Ok tt, s').
Proof.
  unfold mkdir_recursive. intros H. eapply mkdirs_again; [exact H | auto].
Qed.

#[export] Instance laws : StorageLaws t.
Proof.
  constructor.
  - exact writeFile_then_read.
  - exact mkdir_recursive_twice.
Qed.
Lemma find_remove (k : key) (s : t) : find k (remove k s) = None.
Proof.
  induction s as [| [k' e] s IH]; [reflexivity |]. simpl.
  destruct (key_eq_dec k k') as [E | E]; [exact IH |].
  simpl. destruct (key_eq_dec k k'); [contradiction | exact IH].
Qed.

(** A file that was unlinked is no longer there. *)
Lemma unlink_then_access (p : string) (s s' : t) :
  unlink p s = (Ok tt, s') -> access p s' = Throw ENOENT.
Proof.
  unfold unlink, access.
  destruct (resolve p) as [| c k] eqn:E; [discriminate |].
  destruct (find (c :: k) s) as [[data |] |]; try discriminate.
  intros [= <-]. unfold entry_at. now rewrite find_remove.
Qed.

End MemFSFacts.


(** ** The message controller *)

Section ControllerFacts.

Import MessageController.

Lemma includes_supported (v : JsVal) :
  includes SUPPORTED_MESSAGE_TYPES v = true <-> supported_kind v.
Proof.
  unfold supported_kind, includes, SUPPORTED_MESSAGE_TYPES; simpl.
  split.
  - destruct v; simpl; try discriminate.
    rewrite !orb_true_iff, !String.eqb_eq.
    intros [-> | [-> | [-> | H]]]; auto; discriminate.
  - intros [-> | [-> | ->]]; reflexivity.
Qed.

Lemma upload_supported (msg : JsObject) (c : t) :
  supported_kind (field msg "type") ->
  upload msg c = (Ok tt, record_upload msg (publish_payload (deviceId c) msg) c).
Proof.
  intros H. unfold upload, publish_payload.
  destruct H as [H | [H | H]]; rewrite H; reflexivity.
Qed.

Lemma upload_unsupported (msg : JsObject) (c : t) :
  ~ supported_kind (field msg "type") ->
  upload msg c = (Throw "unknown content type", c).
Proof.
  intros H. unfold upload.
  destruct (includes SUPPORTED_MESSAGE_TYPES (field msg "type")) eqn:E.
  - apply includes_supported in E. contradiction.
  - reflexivity.
Qed.

Lemma supported_kind_dec (v : JsVal) : supported_kind v \/ ~ supported_kind v.
Proof.
  destruct (includes SUPPORTED_MESSAGE_TYPES v) eqn:E.
  - left. now apply includes_supported.
  - right. intros H. apply includes_supported in H. congruence.
Qed.

(** C1: [upload] succeeds exactly when the message's type is one of
    image, text and file; on any other type it throws and leaves the
    controller as it was: nothing is prepended to the sent history and no
    [publish] event is emitted. *)
Theorem upload_succeeds_iff_supported (msg : JsObject) (c : t) :
  ((exists c', upload msg c = (Ok tt, c')) <-> supported_kind (field msg "type")) /\
  (~ supported_kind (field msg "type") <->
     upload msg c = (Throw "unknown content type", c)).
Proof.
  split; split.
  - intros [c' H].
    destruct (supported_kind_dec (field msg "type")) as [S | S]; [exact S |].
    rewrite (upload_unsupported msg c S) in H. discriminate.
  - intros S. eexists. apply upload_supported, S.
  - apply upload_unsupported.
  - intros H S. rewrite (upload_supported msg c S) in H. discriminate.
Qed.

(** C10: after a publish that went through, the entry at the head of the
    sent history is the caller's message as it was given, so it has a
    [deviceId] field only if the caller put one; the device id is attached
    to the object built for the [publish] event, which is the only thing
    emitted. *)
Theorem upload_keeps_history_unstamped (msg : JsObject) (c c' : t) :
  upload msg c = (Ok tt, c') ->
  sentMessages c' = msg :: sentMessages c /\
  (lookup "deviceId" msg = None ->
     forall entry, hd_error (sentMessages c') = Some entry ->
                   lookup "deviceId" entry = None) /\
  exists payload,
    emitted c' = emitted c ++ [("publish", JObj payload)] /\
    lookup "deviceId" payload = Some (deviceId c) /\
    field payload "type" = field msg "type" /\
    field payload "body" = field msg "body".
Proof.
  intros H.
  destruct (supported_kind_dec (field msg "type")) as [S | S].
  - rewrite (upload_supported msg c S) in H. injection H as <-.
    split; [reflexivity |]. split.
    + simpl. intros Hm entry [= <-]. exact Hm.
    + unfold publish_payload.
      destruct S as [S | [S | S]]; rewrite S; simpl;
        eexists; (split; [reflexivity |]); simpl; auto.
  - rewrite (upload_unsupported msg c S) in H. discriminate.
Qed.

End ControllerFacts.

(** *** The received and the sent history *)

Section HistoryFacts.

Import MessageController.

Lemma last_map_snoc {A : Type} (l : list A) (x : A) :
  last (map Some (l ++ [x])) None = Some x.
Proof. rewrite map_app. simpl. apply last_last. Qed.

Lemma receiveHandler_eq (msg : JsObject) (c : t) :
  receiveHandler msg c
  = (Ok tt,
     {| deviceId := deviceId c;
        receivedMessages := receivedMessages c ++ [msg];
        sentMessages := sentMessages c;
        emitted := emitted c ++ ("message", JObj msg) :: typed_events msg |}).
Proof.
  unfold receiveHandler, typed_events, bind, push_received, emit, when, ret.
  cbn [deviceId receivedMessages sentMessages emitted].
  destruct (field msg "type") as [| | b | x | s | items | props]; simpl;
    try reflexivity.
  destruct (String.eqb_spec s "image") as [-> | Hi]; simpl.
  { rewrite <- !app_assoc. reflexivity. }
  destruct (String.eqb_spec s "text") as [-> | Ht]; simpl.
  { rewrite <- !app_assoc. reflexivity. }
  destruct (String.eqb_spec s "file") as [-> | Hf]; simpl.
  { rewrite <- !app_assoc. reflexivity. }
  reflexivity.
Qed.


Lemma latest_of_kind_snoc (p : JsObject -> bool) (l : list JsObject) (x : JsObject) :
  last (map Some (filter p (l ++ [x]))) None
  = if p x then Some x else last (map Some (filter p l)) None.
Proof.
  rewrite filter_app. simpl. destruct (p x).
  - apply last_map_snoc.
  - now rewrite app_nil_r.
Qed.

(** X2: a message that was just received is the latest message, and the
    latest of its own type; for every other type the latest message is
    the one it was before. *)
Theorem received_message_becomes_latest (msg : JsObject) (c : t) (type : string) :
  let c' := snd (receiveHandler msg c) in
  getLatestMessage c' = Some msg /\
  getLatest type c'
  = (if is_str type (field msg "type") then Some msg else getLatest type c) /\
  (field msg "type" = JStr "image" -> getLatestImage c' = Some msg) /\
  (field msg "type" = JStr "text" -> getLatestText c' = Some msg) /\
  (field msg "type" = JStr "file" -> getLatestFile c' = Some msg).
Proof.
  rewrite receiveHandler_eq. cbn [snd].
  unfold getLatestImage, getLatestText, getLatestFile, getLatestMessage, getLatest.
  cbn [receivedMessages].
  rewrite !latest_of_kind_snoc.
  split; [apply last_map_snoc |]. split; [reflexivity |].
  repeat split; intros ->; reflexivity.
Qed.

Lemma latest_spec (p : JsObject -> bool) (l : list JsObject) (m : JsObject) :
  last (map Some (filter p l)) None = Some m <->
  exists before after,
    l = before ++ m :: after /\ p m = true /\
    forallb (fun m' => negb (p m')) after = true.
Proof.
  induction l as [| x l IH] using rev_ind.
  - simpl. split; [discriminate |].
    intros (before & after & E & _). destruct before; discriminate.
  - rewrite latest_of_kind_snoc. destruct (p x) eqn:Px.
    + split.
      * intros [= <-]. exists l, []. auto.
      * intros (before & after & E & Pm & Ha).
        destruct after as [| y after' _] using rev_ind.
        -- apply app_inj_tail in E. destruct E as [_ ->]. reflexivity.
        -- change (before ++ m :: after' ++ [y])
             with (before ++ (m :: after') ++ [y]) in E.
           rewrite app_assoc in E. apply app_inj_tail in E. destruct E as [_ ->].
           rewrite forallb_app in Ha. simpl in Ha. rewrite Px in Ha.
           rewrite andb_false_r in Ha. discriminate.
    + rewrite IH. split.
      * intros (before & after & -> & Pm & Ha).
        exists before, (after ++ [x]). split; [now rewrite <- app_assoc |].
        split; [exact Pm |]. rewrite forallb_app, Ha. simpl. now rewrite Px.
      * intros (before & after & E & Pm & Ha).
        destruct after as [| y after' _] using rev_ind.
        -- apply app_inj_tail in E. destruct E as [_ ->]. congruence.
        -- change (before ++ m :: after' ++ [y])
             with (before ++ (m :: after') ++ [y]) in E.
           rewrite app_assoc in E. apply app_inj_tail in E. destruct E as [-> ->].
           rewrite forallb_app in Ha. apply andb_true_iff in Ha.
           exists before, after'. tauto.
Qed.

Lemma latest_none (p : JsObject -> bool) (l : list JsObject) :
  last (map Some (filter p l)) None = None <->
  forallb (fun m' => negb (p m')) l = true.
Proof.
  induction l as [| x l IH] using rev_ind; [simpl; tauto |].
  rewrite latest_of_kind_snoc, forallb_app. simpl. destruct (p x); simpl.
  - rewrite andb_false_r. split; discriminate.
  - rewrite andb_true_r. exact IH.
Qed.

(** X3: [getLatest(type)] returns a message exactly when it is the last
    message of that type in the received history (every message received
    after it has another type), and returns nothing exactly when no
    received message has that type; [getLatestMessage] returns nothing
    exactly when nothing was received. A controller that was just
    constructed has no latest message of any type. *)
Theorem getLatest_is_last_of_its_kind (type : string) (c : t) :
  (forall m,
      getLatest type c = Some m <->
      exists before after,
        receivedMessages c = before ++ m :: after /\
        field m "type" = JStr type /\
        Forall (fun m' => field m' "type" <> JStr type) after) /\
  (getLatest type c = None <->
   Forall (fun m' => field m' "type" <> JStr type) (receivedMessages c)) /\
  (getLatestMessage c = None <-> receivedMessages c = []) /\
  (forall d, getLatest type (constructor d) = None /\
             getLatestMessage (constructor d) = None).
Proof.
  assert (K : forall m', is_str type (field m' "type") = true
                         <-> field m' "type" = JStr type).
  { intros m'. destruct (field m' "type"); simpl;
      try (split; [discriminate | congruence]).
    rewrite String.eqb_eq. split; [now intros -> | now intros [= ->]]. }
  assert (F : forall l,
             forallb (fun m' => negb (is_str type (field m' "type"))) l = true
             <-> Forall (fun m' => field m' "type" <> JStr type) l).
  { intros l. rewrite forallb_forall, Forall_forall.
    split; intros H m' Hin; specialize (H m' Hin).
    - rewrite negb_true_iff in H. intros E. apply K in E. congruence.
    - rewrite negb_true_iff.
      destruct (is_str type (field m' "type")) eqn:E; [| reflexivity].
      apply K in E. contradiction. }
  split; [| split; [| split]].
  - intros m. unfold getLatest. rewrite latest_spec.
    split; intros (before & after & E & Pm & Ha); exists before, after;
      (split; [exact E |]); (split; [now apply K | now apply F]).
  - unfold getLatest. rewrite latest_none. apply F.
  - unfold getLatestMessage. destruct (receivedMessages c) as [| x l] using rev_ind.
    + simpl. tauto.
    + rewrite last_map_snoc. split; [discriminate |].
      intros E. destruct l; discriminate.
  - intros d. split; reflexivity.
Qed.

Lemma upload_all_supported (msgs : list JsObject) (c : t) :
  Forall (fun m => supported_kind (field m "type")) msgs ->
  upload_all msgs c
  = (Ok tt,
     {| deviceId := deviceId c;
        receivedMessages := receivedMessages c;
        sentMessages := rev msgs ++ sentMessages c;
        emitted := emitted c
                   ++ map (fun m => ("publish", publish_payload (deviceId c) m)) msgs |}).
Proof.
  intros H. revert c. induction H as [| m rest Hm _ IH]; intros c.
  - simpl. rewrite app_nil_r. destruct c; reflexivity.
  - cbn [upload_all]. unfold bind. rewrite (upload_supported m c Hm).
    rewrite IH. unfold record_upload.
    cbn [deviceId receivedMessages sentMessages emitted].
    simpl rev. simpl map. rewrite <- !app_assoc. reflexivity.
Qed.

(** X4: uploads of supported messages, one after the other, leave the sent
    history newest first (the messages in reverse order, in front of what
    was there), publish one payload per message in the order of the
    uploads, and do not touch the received history. The first message of
    an unsupported type stops the sequence with "unknown content type":
    it is not recorded, and nothing after it is attempted. *)
Theorem uploads_prepend_to_sent_history (done rest : list JsObject) (c : t) :
  Forall (fun m => supported_kind (field m "type")) done ->
  (exists c',
      upload_all done c = (Ok tt, c') /\
      sentMessages c' = rev done ++ sentMessages c /\
      emitted c' = emitted c
                   ++ map (fun m => ("publish", publish_payload (deviceId c) m)) done /\
      receivedMessages c' = receivedMessages c) /\
  (forall bad,
      ~ supported_kind (field bad "type") ->
      exists c',
        upload_all (done ++ bad :: rest) c = (Throw "unknown content type", c') /\
        sentMessages c' = rev done ++ sentMessages c /\
        emitted c' = emitted c
                     ++ map (fun m => ("publish", publish_payload (deviceId c) m)) done).
Proof.
  intros H. split.
  - eexists. split; [apply upload_all_supported, H |]. repeat split.
  - intros bad Hb. revert c. induction H as [| m done' Hm _ IH]; intros c.
    + simpl. unfold bind. rewrite (upload_unsupported bad c Hb).
      eexists. split; [reflexivity |]. simpl. rewrite app_nil_r. auto.
    + cbn [app upload_all]. unfold bind. rewrite (upload_supported m c Hm).
      destruct (IH (record_upload m (publish_payload (deviceId c) m) c))
        as (c' & E & Hs & He).
      fold (bind (upload bad) (fun _ => upload_all rest)) in E.
      exists c'. split; [exact E |].
      rewrite Hs, He. unfold record_upload.
      cbn [deviceId receivedMessages sentMessages emitted].
      simpl rev. simpl map. rewrite <- !app_assoc. auto.
Qed.

End HistoryFacts.

(** ** Reasoning about computations: weakest preconditions *)

Section Wp.

Context {St : Type}.

Lemma wp_ret {A : Type} (a : A) (Q : result A -> St -> Prop) (s : St) :
  Q (Ok a) s -> wp (ret a) Q s.
Proof. exact (fun H => H). Qed.

Lemma wp_throw {A : Type} (e : string) (Q : result A -> St -> Prop) (s : St) :
  Q (Throw e) s -> wp (throw e) Q s.
Proof. exact (fun H => H). Qed.

Lemma wp_lift_result {A : Type} (r : result A) (Q : result A -> St -> Prop) (s : St) :
  Q r s -> wp (lift_result r) Q s.
Proof. exact (fun H => H). Qed.

Lemma wp_bind {A B : Type} (m : M St A) (k : A -> M St B) Q s :
  wp m (fun r s' =>
          match r with
          | Ok a => wp (k a) Q s'
          | Throw e => Q (Throw e) s'
          end) s ->
  wp (bind m k) Q s.
Proof. unfold wp, bind. destruct (m s) as [[a | e] s']; auto. Qed.

Lemma wp_try_catch {A : Type} (body : M St A) (handler : string -> M St A) Q s :
  wp body (fun r s' =>
             match r with
             | Ok a => Q (Ok a) s'
             | Throw e => wp (handler e) Q s'
             end) s ->
  wp (try_catch body handler) Q s.
Proof. unfold wp, try_catch. destruct (body s) as [[a | e] s']; auto. Qed.

Lemma wp_attempt {A : Type} (m : M St A) Q s :
  wp m (fun r s' => Q (Ok r) s') s -> wp (attempt m) Q s.
Proof. unfold wp, attempt. destruct (m s) as [r s']; auto. Qed.

Lemma wp_weaken {A : Type} (m : M St A) (Q Q' : result A -> St -> Prop) s :
  (forall r s', Q r s' -> Q' r s') -> wp m Q s -> wp m Q' s.
Proof. unfold wp. auto. Qed.

Lemma wp_run {A : Type} (m : M St A) Q s :
  wp m Q s -> exists r s', m s = (r, s') /\ Q r s'.
Proof. unfold wp. destruct (m s) as [r s']. eauto. Qed.

End Wp.

(** ** The engine *)

Section EngineFacts.

Context {host : Host} {FS : Type} {backend : StorageBackend FS}.
Implicit Types (w : World FS) (command response : JsVal).

Lemma sendResponse_eq response w :
  sendResponse response w = (Ok tt, after_response response w).
Proof. reflexivity. Qed.

Lemma wp_sendResponse response (Q : result unit -> World FS -> Prop) w :
  Q (Ok tt) (after_response response w) -> wp (sendResponse response) Q w.
Proof. exact (fun H => H). Qed.

Lemma wp_fs_query {A : Type} (q : FS -> result A) (Q : result A -> World FS -> Prop) w :
  Q (q (storage w)) w -> wp (fs_query q) Q w.
Proof. exact (fun H => H). Qed.

Lemma wp_fs_update u (Q : result unit -> World FS -> Prop) w :
  (forall r s, u (storage w) = (r, s) -> Q r (with_storage s w)) ->
  wp (fs_update u) Q w.
Proof.
  intros H. unfold wp, fs_update.
  destruct (u (storage w)) as [r s]. apply H. reflexivity.
Qed.

Lemma wp_this_storageDir (Q : result JsVal -> World FS -> Prop) w :
  Q (Ok (JStr (storageDir (config w)))) w -> wp this_storageDir Q w.
Proof. exact (fun H => H). Qed.

Lemma wp_upload_file (msg : JsObject) (Q : result unit -> World FS -> Prop) w :
  field msg "type" = JStr "file" ->
  Q (Ok tt) (after_upload msg w) ->
  wp (on_controller (MessageController.upload msg)) Q w.
Proof.
  intros H HQ. unfold wp, on_controller.
  rewrite upload_supported by (right; right; exact H). exact HQ.
Qed.

Lemma wp_path_join (args : list JsVal) (Q : result string -> World FS -> Prop) w :
  match validate_strings args with
  | Ok l => Q (Ok (Path.join_strings l)) w
  | Throw e => Q (Throw e) w
  end ->
  wp (path_join args) Q w.
Proof.
  unfold wp, path_join, lift_result. simpl.
  destruct (validate_strings args); auto.
Qed.

(** [describe_entry] only queries the storage. *)
Lemma map_all_describe_entry_state (dirPath : string) (entries : list Dirent) w :
  snd (map_all (describe_entry dirPath) entries w) = w.
Proof.
  induction entries as [| entry rest IH]; [reflexivity |].
  simpl. unfold bind at 1.
  assert (H : snd (describe_entry dirPath entry w) = w).
  { unfold describe_entry, bind, path_join, lift_result, fs_query, ret. simpl.
    destruct (fs_stat _ (storage w)); reflexivity. }
  destruct (describe_entry dirPath entry w) as [[y | e] w1]; simpl in H; subst w1;
    [| reflexivity].
  unfold bind. destruct (map_all (describe_entry dirPath) rest w) as [[ys | e] w2];
    simpl in IH; subst w2; reflexivity.
Qed.

Lemma wp_map_all_describe_entry dirPath entries
      (Q : result (list JsVal) -> World FS -> Prop) w :
  (forall r, Q r w) -> wp (map_all (describe_entry dirPath) entries) Q w.
Proof.
  intros H. unfold wp. rewrite map_all_describe_entry_state. apply H.
Qed.

Lemma storage_with_storage (s : FS) w : storage (with_storage s w) = s.
Proof. reflexivity. Qed.

Lemma config_with_storage (s : FS) w : config (with_storage s w) = config w.
Proof. reflexivity. Qed.

Lemma storage_after_upload (msg : JsObject) w : storage (after_upload msg w) = storage w.
Proof. reflexivity. Qed.

Lemma config_after_upload (msg : JsObject) w : config (after_upload msg w) = config w.
Proof. reflexivity. Qed.

Lemma storage_after_response response w : storage (after_response response w) = storage w.
Proof. reflexivity. Qed.

Lemma config_after_response response w : config (after_response response w) = config w.
Proof. reflexivity. Qed.

Lemma quiet_refl w : quiet w w.
Proof. split; reflexivity. Qed.

Lemma quiet_with_storage w w1 s : quiet w w1 -> quiet w (with_storage s w1).
Proof. intros [H1 H2]. split; assumption. Qed.

Lemma Responded_weaken (ok ok' : JsVal -> Prop) w r w' :
  (forall response, ok response -> ok' response) ->
  Responded ok w r w' -> Responded ok' w r w'.
Proof.
  intros H (Hr & response & w1 & Hw & Hok & Hs).
  split; [exact Hr |]. exists response, w1. auto.
Qed.

Lemma error_response_handler (action message : string) :
  handler_response (error_response action message).
Proof. split; [exists action; reflexivity | right; left; reflexivity]. Qed.

End EngineFacts.

Create HintDb engine.
#[export] Hint Resolve quiet_refl quiet_with_storage error_response_handler : engine.
#[export] Hint Constructors settled : engine.

(** The storage and the configuration of a world that was updated. *)
Ltac project_world :=
  rewrite ?storage_with_storage, ?config_with_storage, ?storage_after_upload,
    ?config_after_upload, ?storage_after_response, ?config_after_response.

Ltac project_world_in E :=
  rewrite ?storage_with_storage, ?config_with_storage, ?storage_after_upload,
    ?config_after_upload, ?storage_after_response, ?config_after_response in E.

(** One step through a handler: a rule of [wp] for the computation at the
    head, or a case split on the outcome it depends on; an outcome that a
    hypothesis gives is taken from it. *)
Ltac wp_step :=
  cbv beta iota;
  lazymatch goal with
  | |- wp (bind _ _) _ _ => apply wp_bind
  | |- wp (try_catch _ _) _ _ => apply wp_try_catch
  | |- wp (attempt _) _ _ => apply wp_attempt
  | |- wp (ret _) _ _ => apply wp_ret
  | |- wp (throw _) _ _ => apply wp_throw
  | |- wp (sendResponse _) _ _ => apply wp_sendResponse
  | |- wp (fs_query _) _ _ => apply wp_fs_query; project_world
  | |- wp (fs_update _) _ _ =>
      apply wp_fs_update;
      let r := fresh "r" in
      let s := fresh "s" in
      let E := fresh "E" in
      intros r s E; project_world_in E;
      try match goal with
          | H : ?l = (_, _) |- _ =>
              lazymatch type of E with
              | l = _ => rewrite H in E; injection E as <- <-
              end
          end
  | |- wp (lift_result _) _ _ => apply wp_lift_result
  | |- wp this_storageDir _ _ => apply wp_this_storageDir; project_world
  | |- wp (path_join ?args) _ _ =>
      apply wp_path_join;
      first [ match goal with
              | H : validate_strings args = _ |- _ => rewrite H
              end
            | cbn [validate_strings] ]
  | |- wp (Buffer_from_base64 _) _ _ => unfold Buffer_from_base64
  | |- wp (map_all (describe_entry _) _) _ _ => apply wp_map_all_describe_entry; intros ?
  | |- wp (on_controller (MessageController.upload _)) _ _ =>
      apply wp_upload_file; [reflexivity |]
  | |- wp (if ?b then _ else _) _ _ =>
      first [ match goal with H : b = _ |- _ => rewrite H end | destruct b eqn:? ]
  | |- wp (match ?x with _ => _ end) _ _ =>
      first [ match goal with H : x = _ |- _ => rewrite H end | destruct x eqn:? ]
  | |- match ?x with _ => _ end =>
      first [ match goal with H : x = _ |- _ => rewrite H end | destruct x eqn:? ]
  end.

(** Closes the leaf of a handler: the Response just sent is well formed. *)
Ltac responded :=
  lazymatch goal with
  | |- Responded _ _ (Ok tt) (after_response ?r ?w1) =>
      split; [reflexivity |];
      exists r, w1; split; [reflexivity |]; split;
      [ first [ apply error_response_handler
              | split; [eexists; reflexivity | unfold status_in_range; simpl; auto] ]
      | auto 6 with engine ]
  end.

Section HandlerFacts.

Context {host : Host} {FS : Type} {backend : StorageBackend FS}.
Implicit Types (w : World FS) (command response : JsVal).

Lemma handlePing_responds command w :
  wp (handlePing command) (Responded handler_response w) w.
Proof. unfold handlePing. repeat wp_step; responded. Qed.

Lemma listFiles_responds command w :
  wp (listFiles command) (Responded handler_response w) w.
Proof. unfold listFiles. repeat wp_step; responded. Qed.

Lemma saveFile_responds command w :
  wp (saveFile command) (Responded handler_response w) w.
Proof. unfold saveFile. repeat wp_step; responded. Qed.

Lemma downloadFile_responds command w :
  wp (downloadFile command) (Responded handler_response w) w.
Proof. unfold downloadFile. repeat wp_step; responded. Qed.

Lemma deleteFile_responds command w :
  wp (deleteFile command) (Responded handler_response w) w.
Proof. unfold deleteFile. repeat wp_step; responded. Qed.

Lemma createDirectory_responds command w :
  wp (createDirectory command) (Responded handler_response w) w.
Proof. unfold createDirectory. repeat wp_step; responded. Qed.

Lemma getFileInfo_responds command w :
  wp (getFileInfo command) (Responded handler_response w) w.
Proof. unfold getFileInfo. repeat wp_step; responded. Qed.

Lemma renameFile_responds command w :
  wp (renameFile command) (Responded handler_response w) w.
Proof. unfold renameFile. repeat wp_step; responded. Qed.

End HandlerFacts.

(** ** The command dispatcher *)

Section DispatcherFacts.

Context {host : Host} {FS : Type} {backend : StorageBackend FS}.
Implicit Types (w : World FS) (command action response : JsVal).

Import MessageController.

Lemma is_str_false (s : string) (v : JsVal) : is_str s v = false -> v <> JStr s.
Proof. intros H ->. simpl in H. rewrite String.eqb_refl in H. discriminate. Qed.

Lemma is_str_unknown (a : string) action :
  unknown_action action -> In a known_actions -> is_str a action = false.
Proof.
  intros U Ha. destruct action; try reflexivity. simpl.
  destruct (String.eqb_spec s a) as [-> | _]; [| reflexivity].
  exfalso. exact (U a Ha eq_refl).
Qed.

Lemma dispatch_unknown command action :
  unknown_action action ->
  dispatch command action = sendResponse (unknown_command_response action).
Proof.
  intros U. unfold dispatch.
  rewrite !(is_str_unknown _ action U) by (simpl; tauto).
  reflexivity.
Qed.

Lemma dispatch_responds command action w :
  wp (dispatch command action)
     (Responded (fun response =>
                   handler_response response \/
                   (unknown_action action /\
                    response = unknown_command_response action)) w) w.
Proof.
  unfold dispatch.
  repeat
    match goal with
    | |- wp (if is_str ?a action then _ else _) _ _ => destruct (is_str a action) eqn:?
    end.
  1-8: eapply wp_weaken;
    [ intros r w'; apply Responded_weaken; intros response H; left; exact H | ].
  - apply handlePing_responds.
  - apply listFiles_responds.
  - apply saveFile_responds.
  - apply downloadFile_responds.
  - apply deleteFile_responds.
  - apply createDirectory_responds.
  - apply getFileInfo_responds.
  - apply renameFile_responds.
  - apply wp_sendResponse. split; [reflexivity |].
    eexists _, w. split; [reflexivity |]. split; [| auto with engine].
    right. split; [| reflexivity].
    intros a Ha. simpl in Ha.
    repeat (destruct Ha as [<- | Ha]; [apply is_str_false; assumption |]).
    contradiction.
Qed.

Lemma processCommand_responds (message : JsObject) w :
  field message "type" = JStr "text" ->
  wp (processCommand message) (Responded (response_shape message) w) w.
Proof.
  intros Ht. unfold processCommand. rewrite Ht. simpl.
  apply wp_try_catch, wp_bind, wp_lift_result.
  destruct (JSON_parse (field message "body")) as [command | e] eqn:Hp.
  - apply wp_bind, wp_lift_result.
    destruct (get_action command) as [action | e] eqn:Ha.
    + eapply wp_weaken; [| apply dispatch_responds].
      intros r w' Hr. cbv beta.
      assert (R : Responded (response_shape message) w r w').
      { revert Hr. apply Responded_weaken.
        intros response [[Hn Hs] | [U ->]].
        - split; [exact Hs | left; exact Hn].
        - split; [right; left; reflexivity |].
          right; left. exists command, action. auto. }
      destruct R as [-> R]. split; [reflexivity | exact R].
    + apply wp_sendResponse. split; [reflexivity |].
      eexists _, w. split; [reflexivity |]. split; [| auto with engine].
      split; [right; left; reflexivity | right; right; eexists; reflexivity].
  - apply wp_sendResponse. split; [reflexivity |].
    eexists _, w. split; [reflexivity |]. split; [| auto with engine].
    split; [right; left; reflexivity | right; right; eexists; reflexivity].
Qed.

(** A message that is not of kind text is ignored. *)
Lemma processCommand_ignores (message : JsObject) w :
  is_str "text" (field message "type") = false ->
  processCommand message w = (Ok tt, w).
Proof. intros H. unfold processCommand. rewrite H. reflexivity. Qed.

Lemma skipn_length_app {A : Type} (l l' : list A) : skipn (length l) (l ++ l') = l'.
Proof. induction l; simpl; auto. Qed.

Lemma firstn_length_app {A : Type} (l l' : list A) :
  firstn (length (l ++ l') - length l') (l ++ l') = l.
Proof.
  rewrite length_app, Nat.add_sub. rewrite firstn_app, Nat.sub_diag, firstn_all.
  simpl. apply app_nil_r.
Qed.

(** What a computation that has answered leaves in the controller: the
    Response is the last event and the head of the sent history, and
    nothing else that was published in between is of kind text. *)
Lemma Responded_history (ok : JsVal -> Prop) w r w' :
  Responded ok w r w' ->
  r = Ok tt /\
  exists response,
    ok response /\
    emitted (messageController w')
    = emitted (messageController w) ++ events_since w w' /\
    filter is_response_event (events_since w w')
    = [("publish",
        JObj [("type", JStr "text");
              ("body", JStr (JSON_stringify response));
              ("deviceId", deviceId (messageController w))])] /\
    sentMessages (messageController w')
    = sent_since w w' ++ sentMessages (messageController w) /\
    filter (fun m => is_str "text" (field m "type")) (sent_since w w')
    = [text_message response].
Proof.
  intros (Hr & response & w1 & -> & Hok & Hs).
  split; [exact Hr |]. exists response. split; [exact Hok |].
  unfold events_since, sent_since.
  destruct Hs as [w1 [_ Hc] | w0 msg [_ Hc] Hm];
    cbn [after_response after_upload with_controller messageController
         record_upload emitted sentMessages deviceId];
    rewrite Hc.
  - rewrite skipn_length_app.
    change (text_message response :: sentMessages (messageController w))
      with ([text_message response] ++ sentMessages (messageController w)).
    rewrite firstn_length_app. auto.
  - rewrite <- app_assoc, skipn_length_app.
    change (text_message response :: msg :: sentMessages (messageController w))
      with ([text_message response; msg] ++ sentMessages (messageController w)).
    rewrite firstn_length_app.
    unfold publish_payload. rewrite Hm. simpl. rewrite Hm. auto.
Qed.

(** C2: for every inbound message of kind text, [processCommand] returns
    and publishes exactly one Response: among the events emitted while it
    ran, exactly one is the publication of a text-kind message, whose
    body is the JSON text of a Response; likewise exactly one text-kind
    message was added to the sent history. The command may be well
    formed, fail to parse, or name an unknown action. *)
Theorem processCommand_one_response (message : JsObject) w :
  field message "type" = JStr "text" ->
  exists w' response,
    processCommand message w = (Ok tt, w') /\
    emitted (messageController w')
    = emitted (messageController w) ++ events_since w w' /\
    filter is_response_event (events_since w w')
    = [("publish",
        JObj [("type", JStr "text");
              ("body", JStr (JSON_stringify response));
              ("deviceId", deviceId (messageController w))])] /\
    sentMessages (messageController w')
    = sent_since w w' ++ sentMessages (messageController w) /\
    filter (fun m => is_str "text" (field m "type")) (sent_since w w')
    = [text_message response].
Proof.
  intros Ht.
  destruct (wp_run _ _ _ (processCommand_responds message w Ht)) as (r & w' & Hrun & HR).
  apply Responded_history in HR. destruct HR as (-> & response & _ & H).
  exists w', response. split; [exact Hrun | exact H].
Qed.

(** C4: a command whose action is not in the table gets exactly one
    Response, with status error and the message "Unknown command";
    [processCommand] then does what [sendResponse] alone does: it runs no
    handler and leaves the storage untouched. *)
Theorem unknown_action_one_error_response (message : JsObject) command action w :
  field message "type" = JStr "text" ->
  JSON_parse (field message "body") = Ok command ->
  get_action command = Ok action ->
  unknown_action action ->
  processCommand message w = sendResponse (unknown_command_response action) w /\
  processCommand message w = (Ok tt, after_response (unknown_command_response action) w) /\
  storage (after_response (unknown_command_response action) w) = storage w /\
  events_since w (after_response (unknown_command_response action) w)
  = [("publish",
      JObj [("type", JStr "text");
            ("body", JStr (JSON_stringify (unknown_command_response action)));
            ("deviceId", deviceId (messageController w))])] /\
  prop (unknown_command_response action) "status" = JStr "error" /\
  prop (unknown_command_response action) "message" = JStr "Unknown command".
Proof.
  intros Ht Hp Ha U.
  assert (E : processCommand message w
              = sendResponse (unknown_command_response action) w).
  { unfold processCommand, try_catch, bind, lift_result. rewrite Ht. simpl.
    rewrite Hp, Ha, (dispatch_unknown command action U). reflexivity. }
  split; [exact E |]. split; [exact E |]. split; [reflexivity |].
  split; [| split; reflexivity].
  unfold events_since. simpl. apply skipn_length_app.
Qed.

End DispatcherFacts.

(** ** The chunk progress aggregator *)

Section ProgressFacts.

Context {host : Host} {FS : Type}.
Implicit Types (w : World FS) (update : ChunkUpdate).

Lemma for_each_progress (updates : list ChunkUpdate) w :
  for_each updates
    (fun update =>
       if progress_due (chunk_received update) (chunk_total update)
       then sendResponse (progress_response update)
       else ret tt) w
  = (Ok tt, fold_left progress_step updates w).
Proof.
  revert w. induction updates as [| update rest IH]; intros w; [reflexivity |].
  cbn [for_each fold_left]. unfold bind. unfold progress_step at 2.
  destruct (progress_due (chunk_received update) (chunk_total update)).
  - rewrite sendResponse_eq. apply IH.
  - simpl. apply IH.
Qed.

Lemma handleChunkUpdate_eq (updates : list ChunkUpdate) w :
  handleChunkUpdate updates w = (Ok tt, fold_left progress_step updates w).
Proof. unfold handleChunkUpdate, try_catch. now rewrite for_each_progress. Qed.

Lemma complete_progress_is_due update :
  chunk_progressPercent update = 100%float ->
  Num.is_integral (chunk_total update) = true ->
  chunk_received update = chunk_total update /\
  progress_due (chunk_received update) (chunk_total update) = true.
Proof.
  intros Hp Hi. unfold chunk_received. rewrite Hp.
  change (100 / 100)%float with 1%float.
  rewrite NumFacts.mul_one_l, (NumFacts.Math_round_integral _ Hi).
  split; [reflexivity |]. unfold progress_due.
  rewrite (NumFacts.strict_eq_refl_integral _ Hi). apply orb_true_r.
Qed.

Lemma zero_to_ten (r : Z) :
  (0 <= r <= 10)%Z ->
  (r = 0 \/ r = 1 \/ r = 2 \/ r = 3 \/ r = 4 \/ r = 5 \/ r = 6 \/ r = 7
   \/ r = 8 \/ r = 9 \/ r = 10)%Z.
Proof. lia. Qed.

Lemma due_of_ten (r : Z) :
  (0 <= r <= 10)%Z -> progress_due (Num.of_Z r) 10%float = Z.even r.
Proof.
  intros H. apply zero_to_ten in H.
  repeat (destruct H as [-> | H]; [vm_compute; reflexivity |]).
  subst. vm_compute. reflexivity.
Qed.

Lemma received_of_ten update (k : Z) :
  lastChunkId update = 9%float ->
  (0 <= k <= 10)%Z ->
  chunk_progressPercent update = Num.of_Z (10 * k) ->
  chunk_total update = 10%float /\ chunk_received update = Num.of_Z k.
Proof.
  intros Hl Hk Hp. unfold chunk_received, chunk_total. rewrite Hp, Hl.
  apply zero_to_ten in Hk.
  repeat (destruct Hk as [-> | Hk]; [vm_compute; split; reflexivity |]).
  subst. vm_compute. split; reflexivity.
Qed.

Lemma due_of_whole (r t : Z) :
  (0 <= r < 2 ^ 53)%Z -> (0 <= t < 2 ^ 53)%Z ->
  progress_due (Num.of_Z r) (Num.of_Z t) = Z.even r || (r =? t)%Z.
Proof.
  intros Hr Ht. unfold progress_due.
  now rewrite NumFacts.rem_two_even, NumFacts.strict_eq_of_Z.
Qed.

Lemma due_of_negative (r t : Z) :
  (- 2 ^ 53 < r <= 0)%Z -> (0 <= t < 2 ^ 53)%Z ->
  progress_due (if (r =? 0)%Z then (-0)%float else Num.of_Z r) (Num.of_Z t)
  = Z.even r || (r =? t)%Z.
Proof.
  intros Hr Ht. destruct r as [| q | q]; [reflexivity | lia |].
  cbn [Z.eqb]. unfold progress_due.
  rewrite NumFacts.rem_two_even_neg, NumFacts.strict_eq_neg_of_Z by lia.
  destruct t as [| p | p]; [reflexivity | reflexivity | lia].
Qed.

(** C6: for every update the aggregator takes [total = lastChunkId + 1]
    and [received = Math.round(progress / 100 * total)], and sends the
    progress Response, with the fields of the specification, exactly when
    [received % 2 === 0] or [received === total]; on whole numbers this
    test says that [received] is even or equals [total]. With ten chunks
    it emits at the received counts 0, 2, 4, 6, 8, 10 and at no other
    count up to ten; at a progress of 100 it emits for every chunk index,
    whatever the parity of the total. The received count is a whole
    number: when the product [progress / 100 * total] is the positive
    binary64 number [m * 2^e], [received] is the whole number nearest to
    it, the larger one in a tie, and the Response is sent exactly when
    that whole number is even or is the total; a product of zero gives a
    received count of zero and a Response. The same holds when the
    product is the negative number [- m * 2^e], where a tie goes to the
    whole number closer to zero and a count that rounds to zero is sent
    as [-0]. With ten chunks, a progress of 35 gives 3.5, a received
    count of 4 and a Response; a progress of 25 gives 2.5, a received
    count of 3 and no Response; a progress of -25 gives -2.5, a received
    count of -2 and a Response. *)
Theorem progress_sampling :
  (forall update,
      chunk_total update = (lastChunkId update + 1)%float /\
      chunk_received update
      = Num.Math_round ((parseFloat (progress update) / 100) * chunk_total update)%float /\
      progress_due (chunk_received update) (chunk_total update)
      = (Num.strict_eq (Num.rem (chunk_received update) 2%float) 0%float
         || Num.strict_eq (chunk_received update) (chunk_total update))) /\
  (forall update w,
      handleChunkUpdate [update] w
      = (Ok tt,
         if progress_due (chunk_received update) (chunk_total update)
         then after_response
                (JObj [("action", JStr "upload-progress");
                       ("status", JStr "info");
                       ("messageId", messageId update);
                       ("received", JNum (chunk_received update));
                       ("total", JNum (chunk_total update));
                       ("progress", JNum (parseFloat (progress update)));
                       ("complete",
                        JBool (Num.strict_eq (parseFloat (progress update)) 100%float))])
                w
         else w)) /\
  (forall updates w,
      handleChunkUpdate updates w = (Ok tt, fold_left progress_step updates w)) /\
  (forall r t, (0 <= r < 2 ^ 53)%Z -> (0 <= t < 2 ^ 53)%Z ->
               progress_due (Num.of_Z r) (Num.of_Z t) = Z.even r || (r =? t)%Z) /\
  (forall r, (0 <= r <= 10)%Z ->
             (progress_due (Num.of_Z r) 10%float = true <-> In r [0; 2; 4; 6; 8; 10]%Z)) /\
  (forall update k,
      lastChunkId update = 9%float -> (0 <= k <= 10)%Z ->
      parseFloat (progress update) = Num.of_Z (10 * k) ->
      chunk_total update = 10%float /\ chunk_received update = Num.of_Z k) /\
  (forall update n,
      (0 <= n < 2 ^ 53 - 1)%Z ->
      lastChunkId update = Num.of_Z n ->
      parseFloat (progress update) = 100%float ->
      chunk_total update = Num.of_Z (n + 1) /\
      chunk_received update = Num.of_Z (n + 1) /\
      progress_due (chunk_received update) (chunk_total update) = true /\
      prop (progress_response update) "complete" = JBool true) /\
  (forall update,
      parseFloat (progress update) = 100%float ->
      Num.is_integral (chunk_total update) = true ->
      chunk_received update = chunk_total update /\
      progress_due (chunk_received update) (chunk_total update) = true) /\
  (forall update (m : positive) (e t : Z),
      Prim2SF ((parseFloat (progress update) / 100) * chunk_total update)%float
      = S754_finite false m e ->
      chunk_total update = Num.of_Z t -> (0 <= t < 2 ^ 53)%Z ->
      (round_half_up m e < 2 ^ 53)%Z ->
      chunk_received update = Num.of_Z (round_half_up m e) /\
      (0 <= round_half_up m e)%Z /\
      progress_due (chunk_received update) (chunk_total update)
      = Z.even (round_half_up m e) || (round_half_up m e =? t)%Z) /\
  (forall (m : positive) (e : Z),
      ((0 <= e)%Z -> round_half_up m e = (Z.pos m * 2 ^ e)%Z) /\
      ((e < 0)%Z ->
       (2 ^ (- e) * (2 * round_half_up m e - 1) <= 2 * Z.pos m
        < 2 ^ (- e) * (2 * round_half_up m e + 1))%Z)) /\
  (forall update (negative : bool),
      Prim2SF ((parseFloat (progress update) / 100) * chunk_total update)%float
      = S754_zero negative ->
      Num.strict_eq (chunk_received update) 0%float = true /\
      progress_due (chunk_received update) (chunk_total update) = true) /\
  (forall update (m : positive) (e t : Z),
      Prim2SF ((parseFloat (progress update) / 100) * chunk_total update)%float
      = S754_finite true m e ->
      chunk_total update = Num.of_Z t -> (0 <= t < 2 ^ 53)%Z ->
      (- 2 ^ 53 < round_half_up_neg m e)%Z ->
      chunk_received update
      = (if (round_half_up_neg m e =? 0)%Z then (-0)%float
         else Num.of_Z (round_half_up_neg m e)) /\
      (round_half_up_neg m e <= 0)%Z /\
      ((0 <= e)%Z -> round_half_up_neg m e = (Z.neg m * 2 ^ e)%Z) /\
      ((e < 0)%Z ->
       (2 ^ (- e) * (2 * round_half_up_neg m e - 1) <= 2 * Z.neg m
        < 2 ^ (- e) * (2 * round_half_up_neg m e + 1))%Z) /\
      progress_due (chunk_received update) (chunk_total update)
      = Z.even (round_half_up_neg m e) || (round_half_up_neg m e =? t)%Z) /\
  (forall update w,
      lastChunkId update = 9%float ->
      (parseFloat (progress update) = 35%float ->
       ((35 / 100) * 10)%float = 3.5%float /\
       chunk_received update = 4%float /\
       handleChunkUpdate [update] w
       = (Ok tt,
          after_response
            (JObj [("action", JStr "upload-progress");
                   ("status", JStr "info");
                   ("messageId", messageId update);
                   ("received", JNum 4%float);
                   ("total", JNum 10%float);
                   ("progress", JNum 35%float);
                   ("complete", JBool false)])
            w)) /\
      (parseFloat (progress update) = 25%float ->
       ((25 / 100) * 10)%float = 2.5%float /\
       chunk_received update = 3%float /\
       handleChunkUpdate [update] w = (Ok tt, w)) /\
      (parseFloat (progress update) = (-25)%float ->
       ((-25 / 100) * 10)%float = (-2.5)%float /\
       chunk_received update = (-2)%float /\
       handleChunkUpdate [update] w
       = (Ok tt,
          after_response
            (JObj [("action", JStr "upload-progress");
                   ("status", JStr "info");
                   ("messageId", messageId update);
                   ("received", JNum (-2)%float);
                   ("total", JNum 10%float);
                   ("progress", JNum (-25)%float);
                   ("complete", JBool false)])
            w))).
Proof.
  split; [intros update; repeat split |].
  split; [intros update w; rewrite handleChunkUpdate_eq; reflexivity |].
  split; [apply handleChunkUpdate_eq |].
  split; [apply due_of_whole |].
  split.
  { intros r Hr. rewrite (due_of_ten r Hr). apply zero_to_ten in Hr.
    assert (C : forall z : Z, In z [0; 2; 4; 6; 8; 10]%Z
                              <-> (z = 0 \/ z = 2 \/ z = 4 \/ z = 6 \/ z = 8 \/ z = 10)%Z).
    { intros z. simpl. intuition congruence. }
    rewrite C.
    repeat (destruct Hr as [-> | Hr];
            [simpl; split; intros E; solve [reflexivity | discriminate E | lia] |]).
    subst. simpl. split; intros E; solve [reflexivity | lia]. }
  split; [apply received_of_ten |].
  split.
  { intros update n Hn Hl Hp.
    assert (T : chunk_total update = Num.of_Z (n + 1)).
    { unfold chunk_total. rewrite Hl. now apply NumFacts.add_one_whole. }
    assert (I : Num.is_integral (chunk_total update) = true).
    { rewrite T. apply NumFacts.of_Z_integral. lia. }
    destruct (complete_progress_is_due update Hp I) as [H1 H2].
    split; [exact T |]. split; [now rewrite H1 |]. split; [exact H2 |].
    unfold progress_response, chunk_progressPercent. rewrite Hp. reflexivity. }
  split; [apply complete_progress_is_due |].
  split.
  { intros update m e t Hx Ht Hb Hz.
    assert (R : chunk_received update = Num.of_Z (round_half_up m e)).
    { unfold chunk_received, chunk_progressPercent.
      exact (RoundFacts.Math_round_positive _ m e Hx Hz). }
    pose proof (RoundFacts.round_half_up_nonneg m e) as P.
    split; [exact R |]. split; [exact P |].
    rewrite R, Ht. apply due_of_whole; [split; assumption | exact Hb]. }
  split.
  { intros m e. split.
    - intros He. unfold round_half_up.
      destruct (Z.leb_spec 0 e); [reflexivity | lia].
    - apply RoundFacts.round_half_up_nearest. }
  split.
  { intros update negative Hx.
    assert (R : chunk_received update = Num.signed_zero negative).
    { unfold chunk_received, chunk_progressPercent.
      set (x := ((parseFloat (progress update) / 100) * chunk_total update)%float) in *.
      assert (E : x = Num.signed_zero negative).
      { apply Prim2SF_inj. rewrite Hx. destruct negative; reflexivity. }
      rewrite E. destruct negative; reflexivity. }
    rewrite R. unfold progress_due. destruct negative; split; reflexivity. }
  split.
  { intros update m e t Hx Ht Hb Hz.
    assert (R : chunk_received update
                = if (round_half_up_neg m e =? 0)%Z then (-0)%float
                  else Num.of_Z (round_half_up_neg m e)).
    { unfold chunk_received, chunk_progressPercent.
      exact (RoundFacts.Math_round_negative _ m e Hx Hz). }
    pose proof (RoundFacts.round_half_up_neg_nonpos m e) as P.
    split; [exact R |]. split; [exact P |].
    split.
    { intros He. unfold round_half_up_neg.
      destruct (Z.leb_spec 0 e); [reflexivity | lia]. }
    split; [apply RoundFacts.round_half_up_neg_nearest |].
    rewrite R, Ht. apply due_of_negative; [split; assumption | exact Hb]. }
  intros update w Hl. split; [| split].
  - intros Hp.
    assert (R : chunk_received update = 4%float).
    { unfold chunk_received, chunk_total, chunk_progressPercent. rewrite Hp, Hl.
      vm_compute. reflexivity. }
    split; [vm_compute; reflexivity |]. split; [exact R |].
    rewrite handleChunkUpdate_eq. cbn [fold_left]. unfold progress_step.
    assert (T : chunk_total update = 10%float).
    { unfold chunk_total. rewrite Hl. reflexivity. }
    unfold progress_response, chunk_progressPercent. rewrite R, T, Hp.
    reflexivity.
  - intros Hp.
    assert (R : chunk_received update = 3%float).
    { unfold chunk_received, chunk_total, chunk_progressPercent. rewrite Hp, Hl.
      vm_compute. reflexivity. }
    split; [vm_compute; reflexivity |]. split; [exact R |].
    rewrite handleChunkUpdate_eq. cbn [fold_left]. unfold progress_step.
    assert (T : chunk_total update = 10%float).
    { unfold chunk_total. rewrite Hl. reflexivity. }
    rewrite R, T. reflexivity.
  - intros Hp.
    assert (R : chunk_received update = (-2)%float).
    { unfold chunk_received, chunk_total, chunk_progressPercent. rewrite Hp, Hl.
      vm_compute. reflexivity. }
    split; [vm_compute; reflexivity |]. split; [exact R |].
    rewrite handleChunkUpdate_eq. cbn [fold_left]. unfold progress_step.
    assert (T : chunk_total update = 10%float).
    { unfold chunk_total. rewrite Hl. reflexivity. }
    unfold progress_response, chunk_progressPercent. rewrite R, T, Hp.
    reflexivity.
Qed.

End ProgressFacts.

(** *** The Responses of a batch of updates *)

Section ProgressLog.

Context {host : Host} {FS : Type}.
Implicit Types (w : World FS) (update : ChunkUpdate).

Import MessageController.

Lemma progress_log (updates : list ChunkUpdate) w :
  let sent := filter due updates in
  let w' := fold_left progress_step updates w in
  emitted (messageController w')
  = emitted (messageController w)
    ++ map (fun update =>
              response_event (deviceId (messageController w)) (progress_response update))
           sent /\
  sentMessages (messageController w')
  = rev (map (fun update => text_message (progress_response update)) sent)
    ++ sentMessages (messageController w) /\
  receivedMessages (messageController w') = receivedMessages (messageController w) /\
  deviceId (messageController w') = deviceId (messageController w) /\
  storage w' = storage w /\
  config w' = config w.
Proof.
  cbv zeta. revert w. induction updates as [| update rest IH]; intros w.
  - simpl. rewrite app_nil_r. repeat split.
  - cbn [fold_left filter].
    assert (S : progress_step w update
                = if due update then after_response (progress_response update) w else w)
      by reflexivity.
    rewrite S. destruct (due update).
    + destruct (IH (after_response (progress_response update) w))
        as (He & Hs & Hr & Hd & Hst & Hc).
      rewrite He, Hs, Hr, Hd, Hst, Hc.
      cbn [after_response after_upload with_controller messageController record_upload
           emitted sentMessages receivedMessages deviceId storage config map rev].
      repeat split; rewrite <- ?app_assoc; reflexivity.
    + apply IH.
Qed.

(** X5: [handleChunkUpdate] never fails and never touches the storage or
    the received history; it publishes one progress Response for every
    update of the batch that is due ([received] even, or equal to the
    total) and none for the others, in the order of the updates, and
    records them in the sent history newest first. *)
Theorem progress_responses_follow_the_updates (updates : list ChunkUpdate) w :
  exists w',
    handleChunkUpdate updates w = (Ok tt, w') /\
    emitted (messageController w')
    = emitted (messageController w)
      ++ map (fun update =>
                response_event (deviceId (messageController w)) (progress_response update))
             (filter due updates) /\
    sentMessages (messageController w')
    = rev (map (fun update => text_message (progress_response update))
             (filter due updates))
      ++ sentMessages (messageController w) /\
    receivedMessages (messageController w') = receivedMessages (messageController w) /\
    storage w' = storage w.
Proof.
  eexists. split; [apply handleChunkUpdate_eq |].
  destruct (progress_log updates w) as (He & Hs & Hr & _ & Hst & _).
  auto.
Qed.

(** X6: an update whose progress does not parse to a number, or whose
    last chunk id is not a number, is skipped without a Response and
    without an error: [received] is NaN, which is neither even nor equal
    to anything. *)
Theorem nan_progress_is_skipped update w :
  parseFloat (progress update) = nan \/ lastChunkId update = nan ->
  progress_due (chunk_received update) (chunk_total update) = false /\
  handleChunkUpdate [update] w = (Ok tt, w).
Proof.
  intros H.
  assert (R : chunk_received update = nan).
  { unfold chunk_received, chunk_progressPercent, chunk_total.
    destruct H as [-> | ->].
    - change (nan / 100)%float with nan. now rewrite NumFacts.mul_nan_l.
    - change (nan + 1)%float with nan. now rewrite NumFacts.mul_nan_r. }
  assert (D : progress_due (chunk_received update) (chunk_total update) = false).
  { rewrite R. unfold progress_due.
    rewrite (NumFacts.strict_eq_nan (chunk_total update)). reflexivity. }
  split; [exact D |].
  rewrite handleChunkUpdate_eq. simpl. unfold progress_step. now rewrite D.
Qed.

(** X7: an update at a progress of 0 always gets a Response, whatever the
    (finite) number of chunks: [received] is zero, which is even; the
    Response is not marked complete. *)
Theorem zero_progress_is_reported update w :
  parseFloat (progress update) = 0%float ->
  Num.is_finite (chunk_total update) = true ->
  progress_due (chunk_received update) (chunk_total update) = true /\
  handleChunkUpdate [update] w = (Ok tt, after_response (progress_response update) w) /\
  Num.strict_eq (chunk_received update) 0%float = true /\
  prop (progress_response update) "complete" = JBool false.
Proof.
  intros Hp Hf.
  assert (R : chunk_received update = 0%float \/ chunk_received update = (-0)%float).
  { unfold chunk_received, chunk_progressPercent. rewrite Hp.
    change (0 / 100)%float with 0%float.
    destruct (NumFacts.mul_zero_finite _ Hf) as [-> | ->]; [left | right]; reflexivity. }
  assert (D : progress_due (chunk_received update) (chunk_total update) = true).
  { unfold progress_due. destruct R as [-> | ->]; reflexivity. }
  split; [exact D |]. split; [| split].
  - rewrite handleChunkUpdate_eq. simpl. unfold progress_step. now rewrite D.
  - destruct R as [-> | ->]; reflexivity.
  - unfold progress_response, chunk_progressPercent. rewrite Hp. reflexivity.
Qed.

End ProgressLog.

(** ** The action of a Response *)

(** Closes the leaf of a handler: the Response just sent carries the
    action [a] and a status in range. *)
Ltac responded_as :=
  lazymatch goal with
  | |- Responded _ _ (Ok tt) (after_response ?r ?w1) =>
      split; [reflexivity |];
      exists r, w1; split; [reflexivity |]; split;
      [ split; [eexists; split; reflexivity
               | unfold status_in_range; simpl; auto]
      | auto 6 with engine ]
  end.

Section ActionFacts.

Context {host : Host} {FS : Type} {backend : StorageBackend FS}.
Implicit Types (w : World FS) (command action response : JsVal).

Lemma handlePing_answers command w :
  wp (handlePing command) (Responded (answers "pong") w) w.
Proof. unfold handlePing. repeat wp_step; responded_as. Qed.

Lemma listFiles_answers command w :
  wp (listFiles command) (Responded (answers "list") w) w.
Proof. unfold listFiles. repeat wp_step; responded_as. Qed.

Lemma saveFile_answers command w :
  wp (saveFile command) (Responded (answers "upload") w) w.
Proof. unfold saveFile. repeat wp_step; responded_as. Qed.

Lemma downloadFile_answers command w :
  wp (downloadFile command) (Responded (answers "download") w) w.
Proof. unfold downloadFile. repeat wp_step; responded_as. Qed.

Lemma deleteFile_answers command w :
  wp (deleteFile command) (Responded (answers "delete") w) w.
Proof. unfold deleteFile. repeat wp_step; responded_as. Qed.

Lemma createDirectory_answers command w :
  wp (createDirectory command) (Responded (answers "mkdir") w) w.
Proof. unfold createDirectory. repeat wp_step; responded_as. Qed.

Lemma getFileInfo_answers command w :
  wp (getFileInfo command) (Responded (answers "info") w) w.
Proof. unfold getFileInfo. repeat wp_step; responded_as. Qed.

Lemma renameFile_answers command w :
  wp (renameFile command) (Responded (answers "rename") w) w.
Proof. unfold renameFile. repeat wp_step; responded_as. Qed.

Lemma is_str_true (s : string) (v : JsVal) : is_str s v = true -> v = JStr s.
Proof.
  destruct v; simpl; try discriminate. intros H. apply String.eqb_eq in H. now subst.
Qed.

(** What [dispatch] answers: the handler's Response carries the action
    of the command, pong for a ping; a command whose action is not in the
    table gets the Unknown command Response, which echoes it. *)
Lemma dispatch_answers command action w :
  wp (dispatch command action)
     (Responded (fun response =>
                   status_in_range response /\
                   has_property "action" (echoed_action action) response /\
                   (unknown_action action ->
                    response = unknown_command_response action)) w) w.
Proof.
  assert (K : forall a, In a known_actions -> action = JStr a -> ~ unknown_action action).
  { intros a Ha E U. exact (U a Ha E). }
  unfold dispatch, echoed_action.
  destruct (is_str "ping" action) eqn:E1.
  { apply is_str_true in E1.
    eapply wp_weaken; [| apply handlePing_answers].
    intros r w'. apply Responded_weaken. intros response [Ha Hs].
    split; [exact Hs |]. split; [exact Ha |].
    intros U. exfalso. apply (K "ping"); simpl; auto. }
  repeat
    match goal with
    | |- wp (if is_str ?a action then _ else _) _ _ =>
        let E := fresh "E" in
        destruct (is_str a action) eqn:E;
        [ apply is_str_true in E;
          eapply wp_weaken;
          [| first [ apply listFiles_answers | apply saveFile_answers
                   | apply downloadFile_answers | apply deleteFile_answers
                   | apply createDirectory_answers | apply getFileInfo_answers
                   | apply renameFile_answers ] ];
          intros r w'; apply Responded_weaken; intros response [Ha Hs];
          split; [exact Hs |]; split; [rewrite E; exact Ha |];
          intros U; exfalso; apply (K a); simpl; auto 10
        | ]
    end.
  - apply wp_sendResponse. split; [reflexivity |].
    eexists _, w. split; [reflexivity |]. split; [| auto with engine].
    split; [right; left; reflexivity |]. split; [| reflexivity].
    eexists. split; reflexivity.
Qed.

Lemma processing_error_has_no_action (e : string) (v : JsVal) :
  ~ has_property "action" v (processing_error_response e).
Proof. intros (fields & [= <-] & H). discriminate H. Qed.

Lemma processCommand_answers (message : JsObject) w :
  field message "type" = JStr "text" ->
  wp (processCommand message)
     (Responded (fun response =>
                   status_in_range response /\ command_response message response) w) w.
Proof.
  intros Ht. unfold processCommand, command_response. rewrite Ht. simpl.
  apply wp_try_catch, wp_bind, wp_lift_result.
  destruct (JSON_parse (field message "body")) as [command | e] eqn:Hp.
  - apply wp_bind, wp_lift_result.
    destruct (get_action command) as [action | e] eqn:Ha.
    + eapply wp_weaken; [| apply dispatch_answers].
      intros r w' Hr. cbv beta.
      assert (R : Responded
                    (fun response =>
                       status_in_range response /\
                       has_property "action" (echoed_action action) response /\
                       (unknown_action action ->
                        response = unknown_command_response action)) w r w')
        by exact Hr.
      destruct R as [-> R]. split; [reflexivity | exact R].
    + apply wp_sendResponse. split; [reflexivity |].
      eexists _, w. split; [reflexivity |]. split; [| auto with engine].
      split; [right; left; reflexivity | reflexivity].
  - apply wp_sendResponse. split; [reflexivity |].
    eexists _, w. split; [reflexivity |]. split; [| auto with engine].
    split; [right; left; reflexivity | reflexivity].
Qed.

(** The action is in the JSON text of the Response exactly when the
    body parsed to a command whose action is defined. *)
Lemma command_response_serialized (message : JsObject) response :
  command_response message response ->
  (serialized "action" response <-> names_an_action message).
Proof.
  unfold command_response, names_an_action, serialized.
  destruct (JSON_parse (field message "body")) as [command | e].
  - destruct (get_action command) as [action | e] eqn:Hg.
    + intros [Hp _]. split.
      * intros (v & (fields & E & Hl) & Hv).
        destruct Hp as (fields' & E' & Hl'). rewrite E in E'. injection E' as <-.
        rewrite Hl in Hl'. injection Hl' as ->.
        exists command, action. split; [reflexivity |]. split; [exact Hg |].
        intros ->. apply Hv. reflexivity.
      * intros (command' & action' & [= <-] & E & Hd).
        rewrite Hg in E. injection E as <-.
        exists (echoed_action action). split; [exact Hp |].
        unfold echoed_action. destruct (is_str "ping" action); [discriminate | exact Hd].
    + intros ->. split.
      * intros (v & H & _). now apply processing_error_has_no_action in H.
      * intros (command' & action' & [= <-] & E & _). rewrite Hg in E. discriminate E.
  - intros ->. split.
    + intros (v & H & _). now apply processing_error_has_no_action in H.
    + intros (command' & action' & E & _). discriminate E.
Qed.

End ActionFacts.

(** [JSON.stringify] leaves out the properties whose value is undefined. *)
Lemma stringify_drops_undefined (fields : list (string * JsVal)) :
  Json.stringify (JObj fields)
  = Json.stringify (JObj (filter (fun p => is_defined (snd p)) fields)).
Proof.
  cbn [Json.stringify].
  set (members :=
         fix members (l : list (string * JsVal)) : list string :=
           match l with
           | [] => []
           | (k, x) :: rest =>
               match Json.stringify x with
               | Some text => (Json.quoted k ++ ":" ++ text)%string :: members rest
               | None => members rest
               end
           end).
  assert (U : forall k v rest,
             members ((k, v) :: rest)
             = match Json.stringify v with
               | Some text => (Json.quoted k ++ ":" ++ text)%string :: members rest
               | None => members rest
               end) by reflexivity.
  assert (M : forall l, members l = members (filter (fun p => is_defined (snd p)) l)).
  { induction l as [| [k v] rest IH]; [reflexivity |].
    cbn [filter snd].
    destruct v; cbn [is_defined]; rewrite !U, IH; reflexivity. }
  now rewrite <- M.
Qed.

(** ** The file operation handlers *)

Section HandlerLaws.

Context {host : Host} {FS : Type} {backend : StorageBackend FS}.
Implicit Types (w : World FS) (command response : JsVal).

Import MessageController.

(** Runs a handler to the world a postcondition pins down. *)
Lemma wp_result (m : Drive unit) w (r : result unit) (w' : World FS) :
  wp m (fun r0 w0 => (r0, w0) = (r, w')) w -> m w = (r, w').
Proof. unfold wp. destruct (m w). auto. Qed.

Lemma downloadFile_missing command w parts e :
  truthy (prop command "fileName") = true ->
  validate_strings [JStr (storageDir (config w));
                    js_or (prop command "path") (JStr "");
                    prop command "fileName"] = Ok parts ->
  fs_access (Path.join_strings parts) (storage w) = Throw e ->
  downloadFile command w
  = (Ok tt, after_response (error_response "download" "File not found") w).
Proof.
  intros Ht Hv Ha. apply wp_result.
  unfold downloadFile. rewrite Ht. simpl negb. cbv iota.
  repeat wp_step. reflexivity.
Qed.

Lemma downloadFile_found command w parts data stats :
  truthy (prop command "fileName") = true ->
  validate_strings [JStr (storageDir (config w));
                    js_or (prop command "path") (JStr "");
                    prop command "fileName"] = Ok parts ->
  fs_access (Path.join_strings parts) (storage w) = Ok tt ->
  fs_readFile (Path.join_strings parts) (storage w) = Ok data ->
  fs_stat (Path.join_strings parts) (storage w) = Ok stats ->
  downloadFile command w
  = (Ok tt, after_response (download_success command stats)
              (after_upload (file_message command stats data) w)).
Proof.
  intros Ht Hv Ha Hr Hs. apply wp_result.
  unfold downloadFile. rewrite Ht. simpl negb. cbv iota.
  repeat wp_step. reflexivity.
Qed.

Lemma createDirectory_created command w parts s1 :
  truthy (prop command "dirName") = true ->
  validate_strings [JStr (storageDir (config w));
                    js_or (prop command "path") (JStr "");
                    prop command "dirName"] = Ok parts ->
  fs_mkdir_recursive (Path.join_strings parts) (storage w) = (Ok tt, s1) ->
  createDirectory command w
  = (Ok tt, after_response (mkdir_success command) (with_storage s1 w)).
Proof.
  intros Ht Hv Hm. apply wp_result.
  unfold createDirectory. rewrite Ht. simpl negb. cbv iota.
  repeat wp_step. reflexivity.
Qed.

Lemma saveFile_stored command w (d dir fileName : string) s1 s2 :
  d <> "" -> fileName <> "" ->
  prop command "data" = JStr d ->
  prop command "fileName" = JStr fileName ->
  js_or (prop command "path") (JStr "") = JStr dir ->
  fs_mkdir_recursive (Path.join_strings [storageDir (config w); dir]) (storage w)
  = (Ok tt, s1) ->
  fs_writeFile
    (Path.join_strings [Path.join_strings [storageDir (config w); dir]; fileName])
    (Base64.decode d) s1
  = (Ok tt, s2) ->
  saveFile command w
  = (Ok tt, after_response (upload_success command (Base64.decode d)) (with_storage s2 w)).
Proof.
  intros Hd Hf Hdata Hname Hpath Hm Hw. apply wp_result.
  unfold saveFile. rewrite Hdata, Hname, Hpath. simpl truthy.
  apply String.eqb_neq in Hd, Hf. rewrite Hd, Hf. simpl. 
  repeat wp_step.
  unfold upload_success. rewrite Hname, Hpath. reflexivity.
Qed.

(** C5: when the destination of a rename already exists, the handler
    answers with an error Response and leaves the storage as it was, so
    both the source and the destination keep their state; with names given
    and the source present, the error is "Destination already exists" and
    [fs.rename] is not reached. *)
Theorem rename_onto_existing_is_refused command w (destination : list string) :
  validate_strings [JStr (storageDir (config w));
                    js_or (prop command "path") (JStr "");
                    prop command "newName"] = Ok destination ->
  fs_access (Path.join_strings destination) (storage w) = Ok tt ->
  (exists message,
      renameFile command w
      = (Ok tt, after_response (error_response "rename" message) w) /\
      storage (after_response (error_response "rename" message) w) = storage w) /\
  (forall source,
      truthy (prop command "oldName") = true ->
      truthy (prop command "newName") = true ->
      validate_strings [JStr (storageDir (config w));
                        js_or (prop command "path") (JStr "");
                        prop command "oldName"] = Ok source ->
      fs_access (Path.join_strings source) (storage w) = Ok tt ->
      renameFile command w
      = (Ok tt,
         after_response (error_response "rename" "Destination already exists") w)).
Proof.
  intros Hv Ha. split.
  - assert (W : wp (renameFile command)
                   (fun r w' =>
                      r = Ok tt /\
                      exists message,
                        w' = after_response (error_response "rename" message) w) w).
    { unfold renameFile.
      repeat wp_step; try (split; [reflexivity | eexists; reflexivity]).
      all: congruence. }
    apply wp_run in W. destruct W as (r & w' & E & -> & message & ->).
    exists message. split; [exact E | reflexivity].
  - intros source Ho Hn Hs Hsa. apply wp_result.
    unfold renameFile. rewrite Ho, Hn. simpl. repeat wp_step. reflexivity.
Qed.

(** C9: a download of a file that is not there gets the error Response
    "File not found" and nothing else is published; a download of a file
    that is there first publishes a file-kind message whose body is the
    base64 text of the content (it decodes to the bytes of the file) and
    whose fileSize is the size of the file, then the success Response
    with the size. *)
Theorem download_publishes_file_then_confirms command w (target : list string) :
  truthy (prop command "fileName") = true ->
  validate_strings [JStr (storageDir (config w));
                    js_or (prop command "path") (JStr "");
                    prop command "fileName"] = Ok target ->
  (forall e,
      fs_access (Path.join_strings target) (storage w) = Throw e ->
      downloadFile command w
      = (Ok tt, after_response (error_response "download" "File not found") w) /\
      filter is_file_event
        (events_since w (after_response (error_response "download" "File not found") w))
      = []) /\
  (forall data stats,
      fs_access (Path.join_strings target) (storage w) = Ok tt ->
      fs_readFile (Path.join_strings target) (storage w) = Ok data ->
      fs_stat (Path.join_strings target) (storage w) = Ok stats ->
      let sent := after_response (download_success command stats)
                    (after_upload (file_message command stats data) w) in
      downloadFile command w = (Ok tt, sent) /\
      events_since w sent
      = [("publish",
          JObj [("type", JStr "file");
                ("fileName", prop command "fileName");
                ("fileSize", num (size stats));
                ("body", JStr (Base64.encode data));
                ("deviceId", deviceId (messageController w))]);
         ("publish",
          JObj [("type", JStr "text");
                ("body", JStr (JSON_stringify (download_success command stats)));
                ("deviceId", deviceId (messageController w))])] /\
      prop (download_success command stats) "status" = JStr "success" /\
      prop (download_success command stats) "size" = num (size stats) /\
      (exists body,
          field (file_message command stats data) "body" = JStr body /\
          Base64.decode body = data) /\
      field (file_message command stats data) "fileSize" = num (size stats)).
Proof.
  intros Ht Hv. split.
  - intros e Ha. split; [eapply downloadFile_missing; eassumption |].
    unfold events_since. simpl. rewrite skipn_length_app. reflexivity.
  - intros data stats Ha Hr Hs sent. subst sent.
    split; [eapply downloadFile_found; eassumption |].
    split.
    { unfold events_since. simpl. rewrite <- app_assoc, skipn_length_app. reflexivity. }
    split; [reflexivity |]. split; [reflexivity |]. split; [| reflexivity].
    exists (Base64.encode data). split; [reflexivity |].
    apply Base64Facts.decode_encode.
Qed.

Context {laws : StorageLaws FS}.

(** C8: a mkdir command that the storage carries out can be issued again:
    the second one succeeds as well, with the same success Response, and
    the storage is the one the first left. The directory that is there
    the second time is not an error. *)
Theorem mkdir_twice_is_mkdir_once command w (target : list string) (s1 : FS) :
  truthy (prop command "dirName") = true ->
  validate_strings [JStr (storageDir (config w));
                    js_or (prop command "path") (JStr "");
                    prop command "dirName"] = Ok target ->
  fs_mkdir_recursive (Path.join_strings target) (storage w) = (Ok tt, s1) ->
  let w1 := after_response (mkdir_success command) (with_storage s1 w) in
  let w2 := after_response (mkdir_success command) w1 in
  createDirectory command w = (Ok tt, w1) /\
  createDirectory command w1 = (Ok tt, w2) /\
  storage w2 = storage w1 /\
  storage w1 = s1 /\
  prop (mkdir_success command) "status" = JStr "success".
Proof.
  intros Ht Hv Hm w1 w2.
  split; [eapply createDirectory_created; eassumption |].
  split; [| repeat split].
  assert (E : createDirectory command w1
              = (Ok tt, after_response (mkdir_success command) (with_storage s1 w1))).
  { eapply createDirectory_created; [exact Ht | exact Hv |].
    apply mkdir_recursive_again in Hm. exact Hm. }
  exact E.
Qed.

(** C7 (as amended): for data that is not the empty string, an upload the
    storage carries out, followed by a download of the same file, publishes
    a file-kind message whose base64 body decodes to the bytes the data
    decodes to. *)
Theorem upload_then_download_round_trip
        (upload download : JsVal) w (d dir fileName : string) (s1 s2 : FS) :
  d <> "" -> fileName <> "" -> storageDir (config w) <> "" ->
  prop upload "data" = JStr d ->
  prop upload "fileName" = JStr fileName ->
  prop download "fileName" = JStr fileName ->
  js_or (prop upload "path") (JStr "") = JStr dir ->
  js_or (prop download "path") (JStr "") = JStr dir ->
  fs_mkdir_recursive (Path.join_strings [storageDir (config w); dir]) (storage w)
  = (Ok tt, s1) ->
  fs_writeFile
    (Path.join_strings [Path.join_strings [storageDir (config w); dir]; fileName])
    (Base64.decode d) s1
  = (Ok tt, s2) ->
  exists stats body,
    let w1 := after_response (upload_success upload (Base64.decode d)) (with_storage s2 w) in
    let file := file_message download stats (Base64.decode d) in
    saveFile upload w = (Ok tt, w1) /\
    downloadFile download w1
    = (Ok tt, after_response (download_success download stats) (after_upload file w1)) /\
    field file "type" = JStr "file" /\
    field file "body" = JStr body /\
    Base64.decode body = Base64.decode d /\
    size stats = length (Base64.decode d).
Proof.
  intros Hd Hf Hroot Hdata Hup Hdown Hpu Hpd Hm Hw.
  destruct (write_then_read _ _ _ _ Hw) as (Ha & Hr & stats & Hs & Hsize).
  rewrite PathFacts.join_strings_nested in Ha, Hr, Hs by exact Hroot.
  exists stats, (Base64.encode (Base64.decode d)). cbv zeta.
  split; [apply (saveFile_stored upload w d dir fileName s1 s2); assumption |].
  split.
  - apply (downloadFile_found download _ [storageDir (config w); dir; fileName]).
    + rewrite Hdown. simpl. apply String.eqb_neq in Hf. now rewrite Hf.
    + simpl. rewrite Hpd, Hdown. reflexivity.
    + exact Ha.
    + exact Hr.
    + exact Hs.
  - split; [reflexivity |]. split; [reflexivity |].
    split; [apply Base64Facts.decode_encode | exact Hsize].
Qed.

(** C3 (as amended): every Response to an inbound text message has a
    status among success, error and info. When the body parses to a
    command (any value but null), the Response is an object whose action
    echoes the action of the command, with pong for a ping; for an action
    that is not in the table it is the Unknown command Response. When
    the body does not parse, or parses to null, the Response is the
    processing error, which has a status and a message and no action. So
    the action is in the JSON text of the Response exactly when the body
    parsed to a command whose action is defined: the text of an object
    leaves out the properties whose value is undefined. Every progress
    Response, and the engine publishes one per update that is due, has
    the action upload-progress and the status info. *)
Theorem responses_carry_status_and_mostly_action :
  (forall (message : JsObject) w,
      field message "type" = JStr "text" ->
      exists w1 response,
        processCommand message w = (Ok tt, after_response response w1) /\
        status_in_range response /\
        command_response message response /\
        (serialized "action" response <-> names_an_action message)) /\
  (forall e, status_in_range (processing_error_response e) /\
             ~ has_field "action" (processing_error_response e)) /\
  (forall action,
      status_in_range (unknown_command_response action) /\
      prop (unknown_command_response action) "action" = action /\
      (serialized "action" (unknown_command_response action) <-> action <> JUndefined)) /\
  (forall updates (w : World FS),
      handleChunkUpdate updates w = (Ok tt, fold_left progress_step updates w) /\
      events_since w (fold_left progress_step updates w)
      = map (fun update =>
               response_event (deviceId (messageController w)) (progress_response update))
            (filter due updates)) /\
  (forall update,
      answers "upload-progress" (progress_response update) /\
      prop (progress_response update) "status" = JStr "info") /\
  (forall fields,
      Json.stringify (JObj fields)
      = Json.stringify (JObj (filter (fun p => is_defined (snd p)) fields))).
Proof.
  split.
  { intros message w Ht.
    destruct (wp_run _ _ _ (processCommand_answers message w Ht))
      as (r & w' & E & -> & response & w1 & -> & [Hs Hc] & _).
    exists w1, response. split; [exact E |]. split; [exact Hs |].
    split; [exact Hc |]. apply command_response_serialized, Hc. }
  split.
  { intros e. split; [right; left; reflexivity |].
    unfold has_field, processing_error_response. simpl. intros H. now apply H. }
  split.
  { intros action. split; [right; left; reflexivity |]. split; [reflexivity |].
    split.
    - intros (v & (fields & [= <-] & [= <-]) & Hv). exact Hv.
    - intros Hd. exists action. split; [| exact Hd].
      eexists. split; reflexivity. }
  split.
  { intros updates w. split; [apply handleChunkUpdate_eq |].
    destruct (progress_log updates w) as (He & _).
    unfold events_since. rewrite He. apply skipn_length_app. }
  split.
  { intros update. split; [| reflexivity].
    split; [eexists; split; reflexivity | right; right; reflexivity]. }
  apply stringify_drops_undefined.
Qed.

End HandlerLaws.

(** ** The handlers, case by case *)

Section HandlerCases.

Context {host : Host} {FS : Type} {backend : StorageBackend FS}.
Implicit Types (w : World FS) (command response : JsVal).

Import MessageController.

(** A handler that has answered did not throw, so the [catch] around it
    is not entered. *)
Lemma answered_is_not_caught (m : Drive unit) (handler : string -> Drive unit)
      (ok : JsVal -> Prop) w :
  wp m (Responded ok w) w -> try_catch m handler w = m w.
Proof.
  unfold wp, try_catch. destruct (m w) as [[a | e] w']; [reflexivity |].
  intros [H _]. discriminate H.
Qed.

Lemma action_of_object command (a : string) :
  prop command "action" = JStr a -> get_action command = Ok (JStr a).
Proof.
  destruct command; try discriminate. intros H. unfold get_action. now rewrite H.
Qed.

Lemma validate_not_a_string (before : list string) (v : JsVal) (rest : list JsVal) :
  not_a_string v ->
  validate_strings (map JStr before ++ v :: rest) = Throw (invalid_path_argument v).
Proof.
  intros H. induction before as [| b before IH]; simpl.
  - destruct v; try reflexivity. exfalso. exact (H s eq_refl).
  - now rewrite IH.
Qed.

Lemma getFileInfo_found command w (target : list string) (stats : Stats) :
  truthy (prop command "fileName") = true ->
  validate_strings [JStr (storageDir (config w));
                    js_or (prop command "path") (JStr "");
                    prop command "fileName"] = Ok target ->
  fs_access (Path.join_strings target) (storage w) = Ok tt ->
  fs_stat (Path.join_strings target) (storage w) = Ok stats ->
  getFileInfo command w = (Ok tt, after_response (info_success command stats) w).
Proof.
  intros Ht Hv Ha Hs. apply wp_result.
  unfold getFileInfo. rewrite Ht. simpl negb. cbv iota.
  repeat wp_step. reflexivity.
Qed.

(** X8: a text message whose body parses to a command with one of the
    eight actions of the table is handled by the handler of that action
    and by nothing else: [processCommand] does exactly what the handler
    does, since no handler lets an error reach the dispatcher's own
    [catch]. *)
Theorem dispatcher_routes_to_handlers (message : JsObject) command w :
  field message "type" = JStr "text" ->
  JSON_parse (field message "body") = Ok command ->
  (prop command "action" = JStr "ping" ->
   processCommand message w = handlePing command w) /\
  (prop command "action" = JStr "list" ->
   processCommand message w = listFiles command w) /\
  (prop command "action" = JStr "upload" ->
   processCommand message w = saveFile command w) /\
  (prop command "action" = JStr "download" ->
   processCommand message w = downloadFile command w) /\
  (prop command "action" = JStr "delete" ->
   processCommand message w = deleteFile command w) /\
  (prop command "action" = JStr "mkdir" ->
   processCommand message w = createDirectory command w) /\
  (prop command "action" = JStr "info" ->
   processCommand message w = getFileInfo command w) /\
  (prop command "action" = JStr "rename" ->
   processCommand message w = renameFile command w).
Proof.
  intros Ht Hp.
  assert (R : forall (a : string) (m : Drive unit),
             prop command "action" = JStr a ->
             dispatch command (JStr a) = m ->
             wp m (Responded handler_response w) w ->
             processCommand message w = m w).
  { intros a m Ha Hd Hm. unfold processCommand. rewrite Ht. simpl negb. cbv iota.
    rewrite <- (answered_is_not_caught m
                  (fun e => sendResponse (processing_error_response e)) _ w Hm).
    unfold try_catch, bind, lift_result.
    rewrite Hp, (action_of_object command a Ha), Hd. reflexivity. }
  repeat split; intros Ha; apply (R _ _ Ha eq_refl).
  - apply handlePing_responds.
  - apply listFiles_responds.
  - apply saveFile_responds.
  - apply downloadFile_responds.
  - apply deleteFile_responds.
  - apply createDirectory_responds.
  - apply getFileInfo_responds.
  - apply renameFile_responds.
Qed.

(** X9: a ping is answered with the action pong (not ping), the status
    success and the clock's time, whatever else the command carries; it
    is the only event published and the storage is not touched. *)
Theorem ping_answers_pong (message : JsObject) command w :
  field message "type" = JStr "text" ->
  JSON_parse (field message "body") = Ok command ->
  prop command "action" = JStr "ping" ->
  processCommand message w = (Ok tt, after_response pong w) /\
  events_since w (after_response pong w)
  = [response_event (deviceId (messageController w)) pong] /\
  prop pong "action" = JStr "pong" /\
  prop pong "status" = JStr "success" /\
  prop pong "timestamp" = JNum Date_now /\
  storage (after_response pong w) = storage w.
Proof.
  intros Ht Hp Ha.
  split; [| split; [| repeat split]].
  - unfold processCommand, try_catch, bind, lift_result. rewrite Ht. simpl.
    rewrite Hp, (action_of_object command "ping" Ha). reflexivity.
  - unfold events_since. simpl. apply skipn_length_app.
Qed.

(** X10: a command that lacks a required field (the field is absent,
    empty, or any other falsy value) is refused before the storage is
    looked at: upload without fileName or data, download, delete and info
    without fileName, mkdir without dirName, rename without oldName or
    newName. The engine only publishes the error Response. *)
Theorem missing_fields_are_refused command w :
  (truthy (prop command "fileName") = false \/ truthy (prop command "data") = false ->
   saveFile command w
   = (Ok tt, after_response (error_response "upload" "Missing fileName or data") w)) /\
  (truthy (prop command "fileName") = false ->
   downloadFile command w
   = (Ok tt, after_response (error_response "download" "Missing fileName") w) /\
   deleteFile command w
   = (Ok tt, after_response (error_response "delete" "Missing fileName") w) /\
   getFileInfo command w
   = (Ok tt, after_response (error_response "info" "Missing fileName") w)) /\
  (truthy (prop command "dirName") = false ->
   createDirectory command w
   = (Ok tt, after_response (error_response "mkdir" "Missing dirName") w)) /\
  (truthy (prop command "oldName") = false \/ truthy (prop command "newName") = false ->
   renameFile command w
   = (Ok tt, after_response (error_response "rename" "Missing oldName or newName") w)) /\
  (forall action message,
      storage (after_response (error_response action message) w) = storage w /\
      events_since w (after_response (error_response action message) w)
      = [response_event (deviceId (messageController w))
           (error_response action message)]).
Proof.
  split; [| split; [| split; [| split]]].
  - intros H. unfold saveFile, try_catch.
    assert (E : negb (truthy (prop command "fileName"))
                || negb (truthy (prop command "data")) = true).
    { destruct H as [-> | ->]; [reflexivity | apply orb_true_r]. }
    rewrite E. reflexivity.
  - intros H. unfold downloadFile, deleteFile, getFileInfo, try_catch. rewrite H.
    repeat split.
  - intros H. unfold createDirectory, try_catch. rewrite H. reflexivity.
  - intros H. unfold renameFile, try_catch.
    assert (E : negb (truthy (prop command "oldName"))
                || negb (truthy (prop command "newName")) = true).
    { destruct H as [-> | ->]; [reflexivity | apply orb_true_r]. }
    rewrite E. reflexivity.
  - intros action message. split; [reflexivity |].
    unfold events_since. simpl. apply skipn_length_app.
Qed.

(** X11: a [path] that is truthy and not a string (a number, an array,
    an object, [true]) makes [path.join] throw; every handler that takes
    a path reports it as its own error, with the message of the host, and
    does not touch the storage. *)
Theorem non_string_path_is_reported command w (v : JsVal) :
  prop command "path" = v -> truthy v = true -> not_a_string v ->
  let refused action prefix :=
    (Ok tt,
     after_response
       (error_response action (prefix ++ invalid_path_argument v)) w) in
  listFiles command w = refused "list" "Error listing files: " /\
  (truthy (prop command "fileName") = true ->
   downloadFile command w = refused "download" "Error downloading file: " /\
   deleteFile command w = refused "delete" "Error deleting file: " /\
   getFileInfo command w = refused "info" "Error getting file info: " /\
   (truthy (prop command "data") = true ->
    saveFile command w = refused "upload" "Error saving file: ")) /\
  (truthy (prop command "dirName") = true ->
   createDirectory command w = refused "mkdir" "Error creating directory: ") /\
  (truthy (prop command "oldName") = true ->
   truthy (prop command "newName") = true ->
   renameFile command w = refused "rename" "Error renaming file/folder: ").
Proof.
  intros Hp Ht Hn refused. subst refused. cbv beta.
  assert (J : js_or (prop command "path") (JStr "") = v).
  { unfold js_or. now rewrite Hp, Ht. }
  assert (V : forall rest,
             validate_strings (JStr (storageDir (config w)) :: v :: rest)
             = Throw (invalid_path_argument v)).
  { intros rest. apply (validate_not_a_string [storageDir (config w)] v rest Hn). }
  split; [| split; [| split]].
  - unfold listFiles, try_catch, bind, this_storageDir, path_join, lift_result.
    rewrite J, V. reflexivity.
  - intros Hf. split; [| split; [| split]].
    + unfold downloadFile. rewrite Hf, J. simpl negb. cbv iota.
      unfold try_catch, bind, this_storageDir, path_join, lift_result.
      rewrite V. reflexivity.
    + unfold deleteFile. rewrite Hf, J. simpl negb. cbv iota.
      unfold try_catch, bind, this_storageDir, path_join, lift_result.
      rewrite V. reflexivity.
    + unfold getFileInfo. rewrite Hf, J. simpl negb. cbv iota.
      unfold try_catch, bind, this_storageDir, path_join, lift_result.
      rewrite V. reflexivity.
    + intros Hd. unfold saveFile. rewrite Hf, Hd, J. simpl orb. cbv iota.
      unfold try_catch, bind, this_storageDir, path_join, lift_result.
      rewrite V. reflexivity.
  - intros Hd. unfold createDirectory. rewrite Hd, J. simpl negb. cbv iota.
    unfold try_catch, bind, this_storageDir, path_join, lift_result.
    rewrite V. reflexivity.
  - intros Ho Hw. unfold renameFile. rewrite Ho, Hw, J. simpl orb. cbv iota.
    unfold try_catch, bind, this_storageDir, path_join, lift_result.
    rewrite V. reflexivity.
Qed.

(** X12: ping, list, download and info never change the storage,
    whatever the command is and whatever the storage answers. *)
Theorem read_only_handlers_keep_storage command w :
  storage (snd (handlePing command w)) = storage w /\
  storage (snd (listFiles command w)) = storage w /\
  storage (snd (downloadFile command w)) = storage w /\
  storage (snd (getFileInfo command w)) = storage w.
Proof.
  assert (P : forall m : Drive unit,
             wp m (fun _ w' => storage w' = storage w) w ->
             storage (snd (m w)) = storage w).
  { intros m H. exact H. }
  split; [| split; [| split]].
  - apply (P (handlePing command)). unfold handlePing. repeat wp_step; reflexivity.
  - apply (P (listFiles command)). unfold listFiles. repeat wp_step; reflexivity.
  - apply (P (downloadFile command)). unfold downloadFile. repeat wp_step; reflexivity.
  - apply (P (getFileInfo command)). unfold getFileInfo. repeat wp_step; reflexivity.
Qed.

Lemma describe_entry_eq (dirPath : string) (entry : Dirent) w :
  describe_entry dirPath entry w
  = (match fs_stat (Path.join_strings [dirPath; name entry]) (storage w) with
     | Ok stats => Ok (entry_description entry stats)
     | Throw e => Throw e
     end, w).
Proof.
  unfold describe_entry, bind, path_join, lift_result, fs_query, ret. simpl.
  destruct (fs_stat _ (storage w)); reflexivity.
Qed.

Lemma map_all_described (dirPath : string) (entries : list Dirent)
      (described : list Stats) w :
  Forall2 (fun entry stats =>
             fs_stat (Path.join_strings [dirPath; name entry]) (storage w) = Ok stats)
          entries described ->
  map_all (describe_entry dirPath) entries w
  = (Ok (map (fun p => entry_description (fst p) (snd p)) (combine entries described)), w).
Proof.
  induction 1 as [| entry stats entries described Hs _ IH]; [reflexivity |].
  cbn [map_all combine map fst snd]. unfold bind at 1.
  rewrite describe_entry_eq, Hs. unfold bind. rewrite IH. reflexivity.
Qed.

Lemma map_all_stat_fails (dirPath : string) (before after : list Dirent)
      (described : list Stats) (entry : Dirent) (e : string) w :
  Forall2 (fun entry stats =>
             fs_stat (Path.join_strings [dirPath; name entry]) (storage w) = Ok stats)
          before described ->
  fs_stat (Path.join_strings [dirPath; name entry]) (storage w) = Throw e ->
  map_all (describe_entry dirPath) (before ++ entry :: after) w = (Throw e, w).
Proof.
  intros H He. induction H as [| entry' stats before described Hs _ IH].
  - cbn [app map_all]. unfold bind. rewrite describe_entry_eq, He. reflexivity.
  - cbn [app map_all]. unfold bind at 1. rewrite describe_entry_eq, Hs.
    unfold bind. rewrite IH. reflexivity.
Qed.

(** X13: a listing of a directory that is there and whose entries can all
    be examined has one element per entry, in the order [readdir] gave
    them: the name and the directory flag of the entry, and the size and
    the times of its [stat]; the Response echoes the path, or the empty
    string when none was given. *)
Theorem listFiles_describes_every_entry command w (parts : list string)
        (entries : list Dirent) (described : list Stats) :
  validate_strings [JStr (storageDir (config w)); js_or (prop command "path") (JStr "")]
  = Ok parts ->
  fs_access (Path.join_strings parts) (storage w) = Ok tt ->
  fs_readdir (Path.join_strings parts) (storage w) = Ok entries ->
  Forall2 (fun entry stats =>
             fs_stat (Path.join_strings [Path.join_strings parts; name entry]) (storage w)
             = Ok stats)
          entries described ->
  listFiles command w
  = (Ok tt,
     after_response
       (list_success command
          (map (fun p => entry_description (fst p) (snd p)) (combine entries described)))
       w) /\
  length (map (fun p => entry_description (fst p) (snd p)) (combine entries described))
  = length entries.
Proof.
  intros Hv Ha Hr Hd. split.
  - unfold listFiles, try_catch, bind, this_storageDir, path_join, lift_result,
      attempt, fs_query.
    rewrite Hv, Ha, Hr. rewrite (map_all_described _ _ _ _ Hd). reflexivity.
  - rewrite length_map, length_combine. apply Forall2_length in Hd. lia.
Qed.

(** X14: a listing of a directory that is not there is answered with
    "Directory not found"; when the directory cannot be read (the path
    names a file, say), or when one of its entries cannot be examined,
    the Response is the error of the storage behind "Error listing
    files: ", and no partial listing is sent. *)
Theorem listFiles_reports_what_it_cannot_read command w (parts : list string) :
  validate_strings [JStr (storageDir (config w)); js_or (prop command "path") (JStr "")]
  = Ok parts ->
  (forall e,
      fs_access (Path.join_strings parts) (storage w) = Throw e ->
      listFiles command w
      = (Ok tt, after_response (error_response "list" "Directory not found") w)) /\
  (forall e,
      fs_access (Path.join_strings parts) (storage w) = Ok tt ->
      fs_readdir (Path.join_strings parts) (storage w) = Throw e ->
      listFiles command w
      = (Ok tt, after_response (error_response "list" ("Error listing files: " ++ e)) w)) /\
  (forall before entry after described e,
      fs_access (Path.join_strings parts) (storage w) = Ok tt ->
      fs_readdir (Path.join_strings parts) (storage w) = Ok (before ++ entry :: after) ->
      Forall2 (fun entry stats =>
                 fs_stat (Path.join_strings [Path.join_strings parts; name entry])
                   (storage w)
                 = Ok stats)
              (before ++ after) described ->
      fs_stat (Path.join_strings [Path.join_strings parts; name entry]) (storage w)
      = Throw e ->
      listFiles command w
      = (Ok tt, after_response (error_response "list" ("Error listing files: " ++ e)) w)).
Proof.
  intros Hv. split; [| split].
  - intros e Ha. unfold listFiles, try_catch, bind, this_storageDir, path_join,
      lift_result, attempt, fs_query.
    rewrite Hv, Ha. reflexivity.
  - intros e Ha Hr. unfold listFiles, try_catch, bind, this_storageDir, path_join,
      lift_result, attempt, fs_query.
    rewrite Hv, Ha, Hr. reflexivity.
  - intros before entry after described e Ha Hr Hd He.
    apply Forall2_app_inv_l in Hd.
    destruct Hd as (d1 & d2 & H1 & _ & _).
    unfold listFiles, try_catch, bind, this_storageDir, path_join, lift_result,
      attempt, fs_query.
    rewrite Hv, Ha, Hr. rewrite (map_all_stat_fails _ _ _ _ _ _ _ H1 He). reflexivity.
Qed.

(** X15: when the storage refuses to create the directory of an upload,
    the file is not written and the Response is the storage's error
    behind "Error saving file: "; when the directory is there and the
    write itself fails, the Response is that error, and the directory
    that was created for the upload stays. *)
Theorem saveFile_reports_storage_errors command w (d dir fileName : string)
        (r1 : result unit) (s1 : FS) :
  d <> "" -> fileName <> "" ->
  prop command "data" = JStr d ->
  prop command "fileName" = JStr fileName ->
  js_or (prop command "path") (JStr "") = JStr dir ->
  fs_mkdir_recursive (Path.join_strings [storageDir (config w); dir]) (storage w)
  = (r1, s1) ->
  let filePath :=
    Path.join_strings [Path.join_strings [storageDir (config w); dir]; fileName] in
  saveFile command w
  = (Ok tt,
     match r1 with
     | Throw e =>
         after_response (error_response "upload" ("Error saving file: " ++ e))
           (with_storage s1 w)
     | Ok _ =>
         match fs_writeFile filePath (Base64.decode d) s1 with
         | (Ok _, s2) =>
             after_response (upload_success command (Base64.decode d)) (with_storage s2 w)
         | (Throw e, s2) =>
             after_response (error_response "upload" ("Error saving file: " ++ e))
               (with_storage s2 w)
         end
     end).
Proof.
  intros Hd Hf Hdata Hname Hpath Hm filePath. subst filePath. apply wp_result.
  unfold saveFile. rewrite Hdata, Hname, Hpath. simpl truthy.
  apply String.eqb_neq in Hd, Hf. rewrite Hd, Hf. simpl.
  repeat wp_step; try reflexivity.
  all: rewrite E; try reflexivity.
  all: unfold upload_success; rewrite Hname, Hpath; reflexivity.
Qed.

Lemma encode_nonempty (bytes : list byte) : bytes <> [] -> Base64.encode bytes <> "".
Proof.
  destruct bytes as [| a [| b [| c rest]]]; [congruence | | |]; intros _; discriminate.
Qed.

(** X28: an upload whose data is the base64 text of a non-empty sequence
    of bytes writes exactly those bytes to the file, after the directory
    of the upload was created, and reports their number as the size. *)
Theorem upload_of_encoded_bytes_stores_them command w (bytes : list byte)
        (dir fileName : string) (s1 s2 : FS) :
  bytes <> [] -> fileName <> "" ->
  prop command "data" = JStr (Base64.encode bytes) ->
  prop command "fileName" = JStr fileName ->
  js_or (prop command "path") (JStr "") = JStr dir ->
  fs_mkdir_recursive (Path.join_strings [storageDir (config w); dir]) (storage w)
  = (Ok tt, s1) ->
  fs_writeFile
    (Path.join_strings [Path.join_strings [storageDir (config w); dir]; fileName])
    bytes s1
  = (Ok tt, s2) ->
  saveFile command w
  = (Ok tt, after_response (upload_success command bytes) (with_storage s2 w)) /\
  prop (upload_success command bytes) "size" = num (length bytes) /\
  prop (upload_success command bytes) "fileName" = JStr fileName.
Proof.
  intros Hb Hf Hdata Hname Hpath Hm Hw.
  split; [| split; [reflexivity | simpl; exact Hname]].
  rewrite <- (Base64Facts.decode_encode bytes) in Hw.
  rewrite <- (Base64Facts.decode_encode bytes) at 1.
  apply (saveFile_stored command w (Base64.encode bytes) dir fileName s1 s2);
    auto using encode_nonempty.
Qed.

(** X17: a download of something that is there but cannot be read (a
    directory, say), or whose [stat] fails after the read, is answered
    with the storage's error behind "Error downloading file: ", and no
    file-kind message is published. *)
Theorem download_of_unreadable_is_reported command w (target : list string) (e : string) :
  truthy (prop command "fileName") = true ->
  validate_strings [JStr (storageDir (config w));
                    js_or (prop command "path") (JStr "");
                    prop command "fileName"] = Ok target ->
  fs_access (Path.join_strings target) (storage w) = Ok tt ->
  (fs_readFile (Path.join_strings target) (storage w) = Throw e \/
   (exists data, fs_readFile (Path.join_strings target) (storage w) = Ok data) /\
   fs_stat (Path.join_strings target) (storage w) = Throw e) ->
  let refused :=
    after_response (error_response "download" ("Error downloading file: " ++ e)) w in
  downloadFile command w = (Ok tt, refused) /\
  filter is_file_event (events_since w refused) = [].
Proof.
  intros Ht Hv Ha H refused. subst refused. split.
  - apply wp_result. unfold downloadFile. rewrite Ht. simpl negb. cbv iota.
    destruct H as [Hr | [[data Hr] Hs]]; repeat wp_step; reflexivity.
  - unfold events_since. simpl. rewrite skipn_length_app. reflexivity.
Qed.

(** X18: a delete or an info of a name that is not in the storage is
    answered with "File not found", and the storage is left as it was. *)
Theorem missing_file_is_not_found command w (target : list string) (e : string) :
  truthy (prop command "fileName") = true ->
  validate_strings [JStr (storageDir (config w));
                    js_or (prop command "path") (JStr "");
                    prop command "fileName"] = Ok target ->
  fs_access (Path.join_strings target) (storage w) = Throw e ->
  deleteFile command w
  = (Ok tt, after_response (error_response "delete" "File not found") w) /\
  getFileInfo command w
  = (Ok tt, after_response (error_response "info" "File not found") w) /\
  storage (after_response (error_response "delete" "File not found") w) = storage w.
Proof.
  intros Ht Hv Ha. split; [| split; [| reflexivity]]; apply wp_result.
  - unfold deleteFile. rewrite Ht. simpl negb. cbv iota. repeat wp_step. reflexivity.
  - unfold getFileInfo. rewrite Ht. simpl negb. cbv iota. repeat wp_step. reflexivity.
Qed.

(** X19: a delete of something that is there removes it by kind: a
    directory with the recursive [rm], anything else with [unlink]. The
    Response is the success Response when the storage carried the removal
    out, and the storage's error behind "Error deleting file: " when it
    did not; either way the storage is what the removal left. *)
Theorem deleteFile_removes_by_kind command w (target : list string)
        (stats : Stats) (r : result unit) (s1 : FS) :
  truthy (prop command "fileName") = true ->
  validate_strings [JStr (storageDir (config w));
                    js_or (prop command "path") (JStr "");
                    prop command "fileName"] = Ok target ->
  fs_access (Path.join_strings target) (storage w) = Ok tt ->
  fs_stat (Path.join_strings target) (storage w) = Ok stats ->
  (if isDirectory stats
   then fs_rm_recursive (Path.join_strings target) (storage w)
   else fs_unlink (Path.join_strings target) (storage w)) = (r, s1) ->
  deleteFile command w
  = (Ok tt,
     after_response
       match r with
       | Ok _ => delete_success command
       | Throw e => error_response "delete" ("Error deleting file: " ++ e)
       end
       (with_storage s1 w)).
Proof.
  intros Ht Hv Ha Hs Hr. apply wp_result.
  unfold deleteFile. rewrite Ht. simpl negb. cbv iota.
  destruct (isDirectory stats) eqn:D; repeat wp_step; reflexivity.
Qed.

(** X20: on a storage in which an unlinked file is gone, a file that was
    deleted is not found afterwards: a download, an info and a second
    delete of the same name are each answered with "File not found". *)
Theorem deleted_file_is_not_found command w (target : list string)
        (stats : Stats) (s1 : FS) :
  (forall p s s', fs_unlink p s = (Ok tt, s') -> exists e, fs_access p s' = Throw e) ->
  truthy (prop command "fileName") = true ->
  validate_strings [JStr (storageDir (config w));
                    js_or (prop command "path") (JStr "");
                    prop command "fileName"] = Ok target ->
  fs_access (Path.join_strings target) (storage w) = Ok tt ->
  fs_stat (Path.join_strings target) (storage w) = Ok stats ->
  isDirectory stats = false ->
  fs_unlink (Path.join_strings target) (storage w) = (Ok tt, s1) ->
  let w1 := after_response (delete_success command) (with_storage s1 w) in
  deleteFile command w = (Ok tt, w1) /\
  downloadFile command w1
  = (Ok tt, after_response (error_response "download" "File not found") w1) /\
  getFileInfo command w1
  = (Ok tt, after_response (error_response "info" "File not found") w1) /\
  deleteFile command w1
  = (Ok tt, after_response (error_response "delete" "File not found") w1).
Proof.
  intros Hlaw Ht Hv Ha Hs Hd Hu w1.
  destruct (Hlaw _ _ _ Hu) as [e He].
  assert (Hv1 : validate_strings [JStr (storageDir (config w1));
                                  js_or (prop command "path") (JStr "");
                                  prop command "fileName"] = Ok target) by exact Hv.
  assert (Ha1 : fs_access (Path.join_strings target) (storage w1) = Throw e) by exact He.
  split; [| split; [| split]].
  - apply wp_result. unfold deleteFile. rewrite Ht. simpl negb. cbv iota.
    repeat wp_step. reflexivity.
  - apply (downloadFile_missing command w1 target e Ht Hv1 Ha1).
  - apply wp_result. unfold getFileInfo. rewrite Ht. simpl negb. cbv iota.
    repeat wp_step. reflexivity.
  - apply wp_result. unfold deleteFile. rewrite Ht. simpl negb. cbv iota.
    repeat wp_step. reflexivity.
Qed.

(** X21: an info of something that is there reports what [stat] says of
    it: the size, whether it is a directory, and the times of creation
    and of modification; when [stat] fails, its error behind "Error
    getting file info: ". *)
Theorem getFileInfo_reports_stats command w (target : list string) :
  truthy (prop command "fileName") = true ->
  validate_strings [JStr (storageDir (config w));
                    js_or (prop command "path") (JStr "");
                    prop command "fileName"] = Ok target ->
  fs_access (Path.join_strings target) (storage w) = Ok tt ->
  getFileInfo command w
  = (Ok tt,
     after_response
       match fs_stat (Path.join_strings target) (storage w) with
       | Ok stats => info_success command stats
       | Throw e => error_response "info" ("Error getting file info: " ++ e)
       end
       w).
Proof.
  intros Ht Hv Ha. apply wp_result.
  unfold getFileInfo. rewrite Ht. simpl negb. cbv iota.
  repeat wp_step; reflexivity.
Qed.

(** X22: a rename whose source is there and whose destination is not is
    handed to the storage; the Response is the success Response with the
    kind and the size the renamed entry has at its new path. When the
    storage refuses the rename, or the entry cannot be examined at its
    new path, the Response is that error behind "Error renaming
    file/folder: "; in the second case the rename has taken place. *)
Theorem rename_moves_and_reports command w (source destination : list string)
        (e : string) (r : result unit) (s1 : FS) :
  truthy (prop command "oldName") = true ->
  truthy (prop command "newName") = true ->
  validate_strings [JStr (storageDir (config w));
                    js_or (prop command "path") (JStr "");
                    prop command "oldName"] = Ok source ->
  validate_strings [JStr (storageDir (config w));
                    js_or (prop command "path") (JStr "");
                    prop command "newName"] = Ok destination ->
  fs_access (Path.join_strings source) (storage w) = Ok tt ->
  fs_access (Path.join_strings destination) (storage w) = Throw e ->
  fs_rename (Path.join_strings source) (Path.join_strings destination) (storage w)
  = (r, s1) ->
  renameFile command w
  = (Ok tt,
     after_response
       match r, fs_stat (Path.join_strings destination) s1 with
       | Ok _, Ok stats => rename_success command stats
       | Ok _, Throw e' => error_response "rename" ("Error renaming file/folder: " ++ e')
       | Throw e', _ => error_response "rename" ("Error renaming file/folder: " ++ e')
       end
       (with_storage s1 w)).
Proof.
  intros Ho Hn Hs Hd Has Had Hr. apply wp_result.
  unfold renameFile. rewrite Ho, Hn. simpl. repeat wp_step; reflexivity.
Qed.

(** X23: a rename of something that is there to the name it already has
    is refused with "Destination already exists": the destination is the
    source itself. The storage is not touched. *)
Theorem rename_to_same_name_is_refused command w (source : list string) :
  truthy (prop command "oldName") = true ->
  prop command "newName" = prop command "oldName" ->
  validate_strings [JStr (storageDir (config w));
                    js_or (prop command "path") (JStr "");
                    prop command "oldName"] = Ok source ->
  fs_access (Path.join_strings source) (storage w) = Ok tt ->
  renameFile command w
  = (Ok tt, after_response (error_response "rename" "Destination already exists") w).
Proof.
  intros Ho Hn Hs Ha. apply wp_result.
  unfold renameFile. rewrite Hn, Ho. simpl. repeat wp_step. reflexivity.
Qed.

(** X24: a rename whose source is not in the storage is refused with
    "Source file/folder not found", before the destination is looked at;
    the storage is not touched. *)
Theorem rename_of_missing_source_is_refused command w (source destination : list string)
        (e : string) :
  truthy (prop command "oldName") = true ->
  truthy (prop command "newName") = true ->
  validate_strings [JStr (storageDir (config w));
                    js_or (prop command "path") (JStr "");
                    prop command "oldName"] = Ok source ->
  validate_strings [JStr (storageDir (config w));
                    js_or (prop command "path") (JStr "");
                    prop command "newName"] = Ok destination ->
  fs_access (Path.join_strings source) (storage w) = Throw e ->
  renameFile command w
  = (Ok tt, after_response (error_response "rename" "Source file/folder not found") w).
Proof.
  intros Ho Hn Hs Hd Ha. apply wp_result.
  unfold renameFile. rewrite Ho, Hn. simpl. repeat wp_step. reflexivity.
Qed.

(** X25: the handlers do not confine a path to the storage root. With a
    relative root of one segment, a mkdir with the path [..] and the name
    [d] creates [d] beside the root, not under it, and answers with the
    success Response. *)
Theorem paths_can_leave_the_storage_root command w (r d : string) (s1 : FS) :
  storageDir (config w) <> "" ->
  Path.starts_with_slash (storageDir (config w)) = false ->
  PathShape.stack (storageDir (config w)) = [r] -> r <> ".." ->
  PathShape.plain d ->
  prop command "path" = JStr ".." ->
  prop command "dirName" = JStr d ->
  fs_mkdir_recursive d (storage w) = (Ok tt, s1) ->
  Path.join_strings [storageDir (config w); ".."; d] = d /\
  createDirectory command w
  = (Ok tt, after_response (mkdir_success command) (with_storage s1 w)).
Proof.
  intros Hroot Hrel Hstack Hr Hd Hp Hn Hm.
  assert (J : Path.join_strings [storageDir (config w); ".."; d] = d)
    by now apply (PathFacts.join_parent_sibling _ r).
  split; [exact J |].
  apply (createDirectory_created command w [storageDir (config w); ".."; d]).
  - rewrite Hn. simpl. destruct Hd as [Hd _]. apply String.eqb_neq in Hd. now rewrite Hd.
  - rewrite Hp, Hn. reflexivity.
  - rewrite J. exact Hm.
Qed.

Context {laws : StorageLaws FS}.

(** X16: an upload the storage carries out, followed by an info of the
    same file, reports the number of bytes the data decodes to: the size
    in the info Response is the size in the upload Response. *)
Theorem uploaded_file_info_reports_decoded_size
        (upload info : JsVal) w (d dir fileName : string) (s1 s2 : FS) :
  d <> "" -> fileName <> "" -> storageDir (config w) <> "" ->
  prop upload "data" = JStr d ->
  prop upload "fileName" = JStr fileName ->
  prop info "fileName" = JStr fileName ->
  js_or (prop upload "path") (JStr "") = JStr dir ->
  js_or (prop info "path") (JStr "") = JStr dir ->
  fs_mkdir_recursive (Path.join_strings [storageDir (config w); dir]) (storage w)
  = (Ok tt, s1) ->
  fs_writeFile
    (Path.join_strings [Path.join_strings [storageDir (config w); dir]; fileName])
    (Base64.decode d) s1
  = (Ok tt, s2) ->
  exists stats,
    let w1 := after_response (upload_success upload (Base64.decode d)) (with_storage s2 w) in
    saveFile upload w = (Ok tt, w1) /\
    getFileInfo info w1 = (Ok tt, after_response (info_success info stats) w1) /\
    size stats = length (Base64.decode d) /\
    prop (info_success info stats) "size"
    = prop (upload_success upload (Base64.decode d)) "size".
Proof.
  intros Hd Hf Hroot Hdata Hup Hinfo Hpu Hpi Hm Hw.
  destruct (write_then_read _ _ _ _ Hw) as (Ha & _ & stats & Hs & Hsize).
  rewrite PathFacts.join_strings_nested in Ha, Hs by exact Hroot.
  exists stats. cbv zeta.
  split; [apply (saveFile_stored upload w d dir fileName s1 s2); assumption |].
  split; [| split; [exact Hsize | simpl; now rewrite Hsize]].
  apply (getFileInfo_found info _ [storageDir (config w); dir; fileName]).
  - rewrite Hinfo. simpl. apply String.eqb_neq in Hf. now rewrite Hf.
  - simpl. rewrite Hpi, Hinfo. reflexivity.
  - exact Ha.
  - exact Hs.
Qed.

End HandlerCases.

(** ** The temp folder cleanup *)

Section CleanupFacts.

Context {host : Host} {FS : Type} {backend : StorageBackend FS}.
Implicit Types (w : World FS).

Lemma for_each_sweep (tempFolderPath : string) (entries : list Dirent)
      (cfg : Config) (c : MessageController.t) (s : FS) :
  for_each entries
    (fun entry =>
       entryPath <- path_join [JStr tempFolderPath; JStr (name entry)] ;;
       if dirent_isDirectory entry
       then fs_update (fs_rm_recursive entryPath)
       else fs_update (fs_unlink entryPath))
    {| config := cfg; messageController := c; storage := s |}
  = (fst (sweep tempFolderPath entries s),
     {| config := cfg; messageController := c;
        storage := snd (sweep tempFolderPath entries s) |}).
Proof.
  revert s. induction entries as [| entry rest IH]; intros s; [reflexivity |].
  cbn [for_each sweep]. unfold bind at 1. unfold bind at 1.
  unfold path_join, lift_result. cbn [validate_strings].
  unfold remove_entry.
  destruct (dirent_isDirectory entry); unfold fs_update;
    cbn [storage config messageController].
  - destruct (fs_rm_recursive _ s) as [[[] | e] s']; [apply IH | reflexivity].
  - destruct (fs_unlink _ s) as [[[] | e] s']; [apply IH | reflexivity].
Qed.

Lemma for_each_sweep_world (tempFolderPath : string) (entries : list Dirent) w :
  for_each entries
    (fun entry =>
       entryPath <- path_join [JStr tempFolderPath; JStr (name entry)] ;;
       if dirent_isDirectory entry
       then fs_update (fs_rm_recursive entryPath)
       else fs_update (fs_unlink entryPath))
    w
  = (fst (sweep tempFolderPath entries (storage w)),
     with_storage (snd (sweep tempFolderPath entries (storage w))) w).
Proof. destruct w as [cfg c s]. apply for_each_sweep. Qed.

Lemma cleanupTempFolder_eq w :
  let temp := Path.join_strings [storageDir (config w); TEMP_FOLDER_NAME] in
  cleanupTempFolder w
  = (Ok tt,
     match fs_access temp (storage w) with
     | Throw _ => w
     | Ok _ =>
         match fs_readdir temp (storage w) with
         | Throw _ => w
         | Ok entries => with_storage (snd (sweep temp entries (storage w))) w
         end
     end).
Proof.
  intros temp. subst temp. apply wp_result.
  unfold cleanupTempFolder.
  repeat wp_step; try reflexivity.
  unfold wp. rewrite for_each_sweep_world. cbn [fst snd].
  destruct (fst (sweep _ _ (storage w))) as [[] | e]; reflexivity.
Qed.

Lemma sweep_app (temp : string) (done rest : list Dirent) (s s1 : FS) :
  sweep temp done s = (Ok tt, s1) ->
  sweep temp (done ++ rest) s = sweep temp rest s1.
Proof.
  revert s. induction done as [| entry done IH]; intros s H; simpl in *.
  - now injection H as <-.
  - destruct (remove_entry temp entry s) as [[[] | e] s']; [now apply IH | discriminate].
Qed.

(** X26: the cleanup of the temp folder never fails and never publishes
    anything: the configuration and the message controller are left as
    they were. When the temp folder is not there, or cannot be read, the
    engine is left exactly as it was. *)
Theorem cleanupTempFolder_is_silent w :
  exists w',
    cleanupTempFolder w = (Ok tt, w') /\
    config w' = config w /\
    messageController w' = messageController w /\
    (forall e,
        fs_access (Path.join_strings [storageDir (config w); TEMP_FOLDER_NAME]) (storage w)
        = Throw e ->
        w' = w) /\
    (forall e,
        fs_readdir (Path.join_strings [storageDir (config w); TEMP_FOLDER_NAME]) (storage w)
        = Throw e ->
        w' = w).
Proof.
  eexists. split; [apply cleanupTempFolder_eq |].
  destruct (fs_access _ (storage w)) as [[] | e0];
    destruct (fs_readdir _ (storage w)) as [entries | e1]; repeat split; try congruence.
Qed.

(** X27: the cleanup removes the entries of the temp folder one by one,
    in the order [readdir] gave them, a directory with the recursive [rm]
    and anything else with [unlink]; the first removal that fails ends
    the cleanup, and the entries after it stay. The failure is not
    reported. *)
Theorem cleanupTempFolder_sweeps_until_failure w (entries : list Dirent) :
  fs_access (Path.join_strings [storageDir (config w); TEMP_FOLDER_NAME]) (storage w)
  = Ok tt ->
  fs_readdir (Path.join_strings [storageDir (config w); TEMP_FOLDER_NAME]) (storage w)
  = Ok entries ->
  let temp := Path.join_strings [storageDir (config w); TEMP_FOLDER_NAME] in
  cleanupTempFolder w = (Ok tt, with_storage (snd (sweep temp entries (storage w))) w) /\
  (forall s', sweep temp entries (storage w) = (Ok tt, s') ->
              s' = fold_left (fun s entry => snd (remove_entry temp entry s)) entries
                     (storage w)) /\
  (forall done entry rest s1 e s2,
      entries = done ++ entry :: rest ->
      sweep temp done (storage w) = (Ok tt, s1) ->
      remove_entry temp entry s1 = (Throw e, s2) ->
      snd (sweep temp entries (storage w)) = s2).
Proof.
  intros Ha Hr temp. split; [| split].
  - rewrite cleanupTempFolder_eq. cbv zeta. rewrite Ha, Hr. reflexivity.
  - generalize (storage w). clear Ha Hr.
    induction entries as [| entry rest IH]; intros s s' H; simpl in *.
    + now injection H as <-.
    + destruct (remove_entry temp entry s) as [[[] | e] s0]; [| discriminate].
      simpl. now apply IH.
  - intros done entry rest s1 e s2 -> Hd He.
    rewrite (sweep_app _ _ _ _ _ Hd). simpl. now rewrite He.
Qed.

End CleanupFacts.

(** ** The engine on the sample inputs *)

Section Samples.

Import MessageController.

Lemma upload_keeps_history_unstamped_witness :
  upload (text_of "hello") sample_controller
  = (Ok tt,
     record_upload (text_of "hello")
       (publish_payload (deviceId sample_controller) (text_of "hello"))
       sample_controller) /\
  sentMessages
    (record_upload (text_of "hello")
       (publish_payload (deviceId sample_controller) (text_of "hello"))
       sample_controller)
  = [text_of "hello"].
Proof.
  split; [reflexivity |].
  exact (proj1 (upload_keeps_history_unstamped
                  (text_of "hello") sample_controller _ eq_refl)).
Defined.

Lemma processCommand_one_response_witness :
  field (text_of (action_body "list")) "type" = JStr "text" /\
  exists w' response,
    @processCommand sample_host MemFS.t MemFS.backend (text_of (action_body "list")) sample_world = (Ok tt, w') /\
    filter is_response_event (events_since sample_world w')
    = [("publish",
        JObj [("type", JStr "text");
              ("body", JStr (@JSON_stringify sample_host response));
              ("deviceId", deviceId (messageController sample_world))])].
Proof.
  split; [reflexivity |].
  destruct (processCommand_one_response
              (host := sample_host) (backend := MemFS.backend)
              (text_of (action_body "list")) sample_world eq_refl)
    as (w' & response & H1 & _ & H2 & _).
  exists w', response. split; [exact H1 | exact H2].
Defined.

Lemma frobnicate_is_unknown : unknown_action (JStr "frobnicate").
Proof.
  intros a Ha. simpl in Ha.
  repeat (destruct Ha as [<- | Ha]; [discriminate |]).
  contradiction.
Defined.

Lemma unknown_action_one_error_response_witness :
  @JSON_parse sample_host (field (text_of (action_body "frobnicate")) "body")
  = Ok (JObj [("action", JStr "frobnicate")]) /\
  @processCommand sample_host MemFS.t MemFS.backend (text_of (action_body "frobnicate")) sample_world
  = (Ok tt,
     after_response (host := sample_host)
       (unknown_command_response (JStr "frobnicate")) sample_world).
Proof.
  split; [reflexivity |].
  exact (proj1 (proj2 (unknown_action_one_error_response
                         (host := sample_host) (backend := MemFS.backend)
                         (text_of (action_body "frobnicate")) (JObj [("action", JStr "frobnicate")])
                         (JStr "frobnicate") sample_world
                         eq_refl eq_refl eq_refl frobnicate_is_unknown))).
Defined.

Lemma rename_onto_existing_is_refused_witness :
  MemFS.access (Path.join_strings ["./storage"; ""; "b.txt"]) sample_files = Ok tt /\
  @renameFile sample_host MemFS.t MemFS.backend sample_rename sample_world_with_files
  = (Ok tt,
     after_response (host := sample_host)
       (error_response "rename" "Destination already exists") sample_world_with_files).
Proof.
  split; [reflexivity |].
  exact (proj2 (rename_onto_existing_is_refused
                  (host := sample_host) (backend := MemFS.backend)
                  sample_rename sample_world_with_files ["./storage"; ""; "b.txt"]
                  eq_refl eq_refl)
               ["./storage"; ""; "a.txt"] eq_refl eq_refl eq_refl eq_refl).
Defined.

Lemma download_publishes_file_then_confirms_witness :
  MemFS.readFile (Path.join_strings ["./storage"; ""; "a.txt"]) sample_files
  = Ok [x48; x65; x6c; x6c; x6f] /\
  Base64.decode "SGVsbG8=" = [x48; x65; x6c; x6c; x6f] /\
  exists w',
    @downloadFile sample_host MemFS.t MemFS.backend sample_download sample_world_with_files
    = (Ok tt, w') /\
    events_since sample_world_with_files w'
    = [("publish",
        JObj [("type", JStr "file");
              ("fileName", JStr "a.txt");
              ("fileSize", JNum 5%float);
              ("body", JStr "SGVsbG8=");
              ("deviceId", JStr "streamr-drive-0a1b2c3d")]);
       ("publish",
        JObj [("type", JStr "text");
              ("body",
               JStr (Json.object_text
                       [("action", Json.quoted "download");
                        ("status", Json.quoted "success");
                        ("fileName", Json.quoted "a.txt");
                        ("path", Json.quoted "");
                        ("size", "5")]));
              ("deviceId", JStr "streamr-drive-0a1b2c3d")])].
Proof.
  split; [reflexivity |]. split; [reflexivity |].
  destruct (proj2 (download_publishes_file_then_confirms
                     (host := sample_host) (backend := MemFS.backend)
                     sample_download sample_world_with_files
                     ["./storage"; ""; "a.txt"] eq_refl eq_refl)
                  [x48; x65; x6c; x6c; x6f]
                  (MemFS.stats_of (MemFS.File [x48; x65; x6c; x6c; x6f]))
                  eq_refl eq_refl eq_refl)
    as (H1 & H2 & _).
  eexists. split; [exact H1 |].
  exact (eq_trans H2 eq_refl).
Defined.

Lemma mkdir_twice_is_mkdir_once_witness :
  MemFS.mkdir_recursive (Path.join_strings ["./storage"; "2024"; "photos"]) []
  = (Ok tt, sample_directories) /\
  @createDirectory sample_host MemFS.t MemFS.backend sample_mkdir
    (after_response (host := sample_host) (mkdir_success sample_mkdir)
       (with_storage sample_directories sample_world))
  = (Ok tt,
     after_response (host := sample_host) (mkdir_success sample_mkdir)
       (after_response (host := sample_host) (mkdir_success sample_mkdir)
          (with_storage sample_directories sample_world))).
Proof.
  split; [reflexivity |].
  exact (proj1 (proj2 (mkdir_twice_is_mkdir_once
                         (host := sample_host) (laws := MemFSFacts.laws)
                         sample_mkdir sample_world
                         ["./storage"; "2024"; "photos"] sample_directories
                         eq_refl eq_refl eq_refl))).
Defined.

Lemma hello_is_not_empty : "SGVsbG8=" <> "".
Proof. discriminate. Defined.

Lemma a_txt_is_not_empty : "a.txt" <> "".
Proof. discriminate. Defined.

Lemma sample_root_is_not_empty : storageDir (config sample_world) <> "".
Proof. discriminate. Defined.

Lemma upload_then_download_round_trip_witness :
  Base64.decode "SGVsbG8=" = [x48; x65; x6c; x6c; x6f] /\
  exists stats body,
    @downloadFile sample_host MemFS.t MemFS.backend sample_download
      (after_response (host := sample_host)
         (upload_success (sample_upload "SGVsbG8=") (Base64.decode "SGVsbG8="))
         (with_storage sample_stored sample_world))
    = (Ok tt,
       after_response (host := sample_host) (download_success sample_download stats)
         (after_upload
            (file_message sample_download stats (Base64.decode "SGVsbG8="))
            (after_response (host := sample_host)
               (upload_success (sample_upload "SGVsbG8=") (Base64.decode "SGVsbG8="))
               (with_storage sample_stored sample_world)))) /\
    field (file_message sample_download stats (Base64.decode "SGVsbG8=")) "body"
    = JStr body /\
    Base64.decode body = Base64.decode "SGVsbG8=".
Proof.
  split; [reflexivity |].
  destruct (upload_then_download_round_trip
              (host := sample_host) (laws := MemFSFacts.laws)
              (sample_upload "SGVsbG8=") sample_download sample_world
              "SGVsbG8=" "" "a.txt" [(["storage"], MemFS.Directory)] sample_stored
              hello_is_not_empty a_txt_is_not_empty sample_root_is_not_empty
              eq_refl eq_refl eq_refl eq_refl eq_refl eq_refl eq_refl)
    as (stats & body & _ & H2 & _ & H4 & H5 & _).
  exists stats, body. split; [exact H2 |]. split; [exact H4 | exact H5].
Defined.

Lemma progress_sampling_witness :
  @parseFloat sample_host (progress (sample_update (JStr "35.00"))) = 35%float /\
  @handleChunkUpdate sample_host MemFS.t [sample_update (JStr "35.00")] sample_world
  = (Ok tt,
     after_response (host := sample_host)
       (JObj [("action", JStr "upload-progress");
              ("status", JStr "info");
              ("messageId", JStr "m1");
              ("received", JNum 4%float);
              ("total", JNum 10%float);
              ("progress", JNum 35%float);
              ("complete", JBool false)])
       sample_world) /\
  @JSON_stringify sample_host
    (JObj [("action", JStr "upload-progress");
           ("status", JStr "info");
           ("messageId", JStr "m1");
           ("received", JNum 4%float);
           ("total", JNum 10%float);
           ("progress", JNum 35%float);
           ("complete", JBool false)])
  = Json.object_text
      [("action", Json.quoted "upload-progress");
       ("status", Json.quoted "info");
       ("messageId", Json.quoted "m1");
       ("received", "4");
       ("total", "10");
       ("progress", "35");
       ("complete", "false")] /\
  @parseFloat sample_host (progress (sample_update (JStr "25"))) = 25%float /\
  @handleChunkUpdate sample_host MemFS.t [sample_update (JStr "25")] sample_world
  = (Ok tt, sample_world) /\
  @parseFloat sample_host (progress (sample_update (JStr "-25"))) = (-25)%float /\
  @handleChunkUpdate sample_host MemFS.t [sample_update (JStr "-25")] sample_world
  = (Ok tt,
     after_response (host := sample_host)
       (JObj [("action", JStr "upload-progress");
              ("status", JStr "info");
              ("messageId", JStr "m1");
              ("received", JNum (-2)%float);
              ("total", JNum 10%float);
              ("progress", JNum (-25)%float);
              ("complete", JBool false)])
       sample_world).
Proof.
  destruct (progress_sampling (host := sample_host) (FS := MemFS.t))
    as (_ & _ & _ & _ & _ & _ & _ & _ & _ & _ & _ & _ & H).
  split; [vm_compute; reflexivity |].
  split.
  { exact (proj2 (proj2 (proj1 (H (sample_update (JStr "35.00")) sample_world eq_refl)
                           ltac:(vm_compute; reflexivity)))). }
  split; [vm_compute; reflexivity |].
  split; [vm_compute; reflexivity |].
  split.
  { exact (proj2 (proj2 (proj1 (proj2 (H (sample_update (JStr "25")) sample_world eq_refl))
                           ltac:(vm_compute; reflexivity)))). }
  split; [vm_compute; reflexivity |].
  exact (proj2 (proj2 (proj2 (proj2 (H (sample_update (JStr "-25")) sample_world eq_refl))
                         ltac:(vm_compute; reflexivity)))).
Defined.

(** Ten chunks, reported one by one, give six progress Responses: at the
    counts 0, 2, 4, 6, 8 and 10. *)
Lemma ten_chunks_six_responses :
  map (chunk_received (host := sample_host))
    (filter (fun update =>
               progress_due (chunk_received (host := sample_host) update)
                 (chunk_total update))
       sample_updates)
  = map Num.of_Z [0; 2; 4; 6; 8; 10]%Z /\
  length
    (emitted
       (messageController
          (snd (@handleChunkUpdate sample_host MemFS.t sample_updates sample_world))))
  = 6.
Proof. split; vm_compute; reflexivity. Qed.

(** C3, as the specification states it, fails on a body that does not
    parse: the Response that is published for it has a status and a
    message and no action. It also fails on a command that has no
    action: the Unknown command Response echoes an action that is
    undefined, and its text has none. *)
Lemma unparsable_body_response_lacks_action :
  @JSON_parse sample_host (JStr "{") = Throw "Unexpected end of JSON input" /\
  @processCommand sample_host MemFS.t MemFS.backend (text_of "{") sample_world
  = (Ok tt,
     after_response (host := sample_host)
       (processing_error_response "Unexpected end of JSON input") sample_world) /\
  events_since sample_world
    (after_response (host := sample_host)
       (processing_error_response "Unexpected end of JSON input") sample_world)
  = [("publish",
      JObj [("type", JStr "text");
            ("body",
             JStr (Json.object_text
                     [("status", Json.quoted "error");
                      ("message",
                       Json.quoted
                         "Error processing command: Unexpected end of JSON input")]));
            ("deviceId", JStr "streamr-drive-0a1b2c3d")])] /\
  processing_error_response "Unexpected end of JSON input"
  = JObj [("status", JStr "error");
          ("message", JStr "Error processing command: Unexpected end of JSON input")] /\
  lookup "action"
    [("status", JStr "error");
     ("message", JStr "Error processing command: Unexpected end of JSON input")]
  = None /\
  ~ has_field "action" (processing_error_response "Unexpected end of JSON input") /\
  @JSON_parse sample_host (JStr "{}") = Ok (JObj []) /\
  @processCommand sample_host MemFS.t MemFS.backend (text_of "{}") sample_world
  = (Ok tt,
     after_response (host := sample_host)
       (unknown_command_response JUndefined) sample_world) /\
  events_since sample_world
    (after_response (host := sample_host)
       (unknown_command_response JUndefined) sample_world)
  = [("publish",
      JObj [("type", JStr "text");
            ("body",
             JStr (Json.object_text
                     [("status", Json.quoted "error");
                      ("message", Json.quoted "Unknown command")]));
            ("deviceId", JStr "streamr-drive-0a1b2c3d")])].
Proof.
  split; [reflexivity |]. split; [reflexivity |]. split; [reflexivity |].
  split; [reflexivity |]. split; [reflexivity |].
  split; [simpl; intros H; now apply H |].
  split; [reflexivity |]. split; reflexivity.
Qed.

(** C7, as the specification states it, fails on the empty base64 string:
    the upload is refused as missing its data, nothing is stored, and the
    download that follows finds no file and publishes no file-kind
    message. *)
Lemma empty_data_is_not_stored :
  Base64.decode "" = [] /\
  @saveFile sample_host MemFS.t MemFS.backend (sample_upload "") sample_world
  = (Ok tt,
     after_response (host := sample_host)
       (error_response "upload" "Missing fileName or data") sample_world) /\
  @downloadFile sample_host MemFS.t MemFS.backend sample_download
    (after_response (host := sample_host)
       (error_response "upload" "Missing fileName or data") sample_world)
  = (Ok tt,
     after_response (host := sample_host)
       (error_response "download" "File not found")
       (after_response (host := sample_host)
          (error_response "upload" "Missing fileName or data") sample_world)) /\
  filter is_file_event
    (emitted
       (messageController
          (after_response (host := sample_host)
             (error_response "download" "File not found")
             (after_response (host := sample_host)
                (error_response "upload" "Missing fileName or data") sample_world))))
  = [].
Proof. repeat split; reflexivity. Qed.

End Samples.

(** ** Further runs on the sample inputs *)

Section FurtherSamples.

Import MessageController.

Lemma one_two_supported :
  Forall (fun m => supported_kind (field m "type")) [text_of "one"; text_of "two"].
Proof. repeat constructor; right; left; reflexivity. Defined.

Lemma uploads_prepend_to_sent_history_witness :
  exists c',
    upload_all [text_of "one"; text_of "two"] sample_controller = (Ok tt, c') /\
    sentMessages c' = [text_of "two"; text_of "one"].
Proof.
  destruct (proj1 (uploads_prepend_to_sent_history
                     [text_of "one"; text_of "two"] [] sample_controller
                     one_two_supported))
    as (c' & E & S & _).
  exists c'. split; [exact E | exact S].
Defined.

Lemma nan_progress_is_skipped_witness :
  @parseFloat sample_host (progress (sample_update JUndefined)) = nan /\
  @handleChunkUpdate sample_host MemFS.t [sample_update JUndefined] sample_world
  = (Ok tt, sample_world).
Proof.
  split; [reflexivity |].
  exact (proj2 (nan_progress_is_skipped (host := sample_host)
                  (sample_update JUndefined) sample_world (or_introl eq_refl))).
Defined.

Lemma zero_progress_is_reported_witness :
  @handleChunkUpdate sample_host MemFS.t [sample_update (JNum 0%float)] sample_world
  = (Ok tt,
     after_response (host := sample_host)
       (progress_response (host := sample_host) (sample_update (JNum 0%float)))
       sample_world).
Proof.
  exact (proj1 (proj2 (zero_progress_is_reported (host := sample_host)
                         (sample_update (JNum 0%float)) sample_world eq_refl eq_refl))).
Defined.

Lemma ping_answers_pong_witness :
  @processCommand sample_host MemFS.t MemFS.backend (text_of (action_body "ping")) sample_world
  = (Ok tt, after_response (host := sample_host) (pong (host := sample_host)) sample_world).
Proof.
  exact (proj1 (ping_answers_pong (host := sample_host) (backend := MemFS.backend)
                  (text_of (action_body "ping")) (JObj [("action", JStr "ping")]) sample_world
                  eq_refl eq_refl eq_refl)).
Defined.

Lemma missing_file_is_not_found_witness :
  MemFS.access (Path.join_strings ["./storage"; ""; "a.txt"]) [] = Throw MemFS.ENOENT /\
  @deleteFile sample_host MemFS.t MemFS.backend sample_delete sample_world
  = (Ok tt,
     after_response (host := sample_host)
       (error_response "delete" "File not found") sample_world).
Proof.
  split; [reflexivity |].
  exact (proj1 (missing_file_is_not_found (host := sample_host) (backend := MemFS.backend)
                  sample_delete sample_world ["./storage"; ""; "a.txt"] MemFS.ENOENT
                  eq_refl eq_refl eq_refl)).
Defined.

Lemma deleteFile_removes_by_kind_witness :
  @deleteFile sample_host MemFS.t MemFS.backend sample_delete sample_world_with_files
  = (Ok tt,
     after_response (host := sample_host) (delete_success sample_delete)
       (with_storage
          [(["storage"; "b.txt"], MemFS.File [x42]); (["storage"], MemFS.Directory)]
          sample_world_with_files)).
Proof.
  exact (deleteFile_removes_by_kind (host := sample_host) (backend := MemFS.backend)
           sample_delete sample_world_with_files ["./storage"; ""; "a.txt"]
           (MemFS.stats_of (MemFS.File [x48; x65; x6c; x6c; x6f])) (Ok tt)
           [(["storage"; "b.txt"], MemFS.File [x42]); (["storage"], MemFS.Directory)]
           eq_refl eq_refl eq_refl eq_refl eq_refl).
Defined.

Lemma unlinked_is_gone (p : string) (s s' : MemFS.t) :
  MemFS.unlink p s = (Ok tt, s') -> exists e, MemFS.access p s' = Throw e.
Proof.
  intros H. exists MemFS.ENOENT. exact (MemFSFacts.unlink_then_access p s s' H).
Defined.

Lemma deleted_file_is_not_found_witness :
  @downloadFile sample_host MemFS.t MemFS.backend sample_delete
    (after_response (host := sample_host) (delete_success sample_delete)
       (with_storage
          [(["storage"; "b.txt"], MemFS.File [x42]); (["storage"], MemFS.Directory)]
          sample_world_with_files))
  = (Ok tt,
     after_response (host := sample_host)
       (error_response "download" "File not found")
       (after_response (host := sample_host) (delete_success sample_delete)
          (with_storage
             [(["storage"; "b.txt"], MemFS.File [x42]); (["storage"], MemFS.Directory)]
             sample_world_with_files))).
Proof.
  exact (proj1 (proj2 (deleted_file_is_not_found
                         (host := sample_host) (backend := MemFS.backend)
                         sample_delete sample_world_with_files ["./storage"; ""; "a.txt"]
                         (MemFS.stats_of (MemFS.File [x48; x65; x6c; x6c; x6f]))
                         [(["storage"; "b.txt"], MemFS.File [x42]);
                          (["storage"], MemFS.Directory)]
                         unlinked_is_gone eq_refl eq_refl eq_refl eq_refl eq_refl eq_refl))).
Defined.

Lemma rename_moves_and_reports_witness :
  @renameFile sample_host MemFS.t MemFS.backend sample_rename_free sample_world_with_files
  = (Ok tt,
     after_response (host := sample_host)
       (rename_success sample_rename_free
          (MemFS.stats_of (MemFS.File [x48; x65; x6c; x6c; x6f])))
       (with_storage
          [(["storage"; "c.txt"], MemFS.File [x48; x65; x6c; x6c; x6f]);
           (["storage"; "b.txt"], MemFS.File [x42]);
           (["storage"], MemFS.Directory)]
          sample_world_with_files)).
Proof.
  exact (rename_moves_and_reports (host := sample_host) (backend := MemFS.backend)
           sample_rename_free sample_world_with_files
           ["./storage"; ""; "a.txt"] ["./storage"; ""; "c.txt"] MemFS.ENOENT (Ok tt)
           [(["storage"; "c.txt"], MemFS.File [x48; x65; x6c; x6c; x6f]);
            (["storage"; "b.txt"], MemFS.File [x42]);
            (["storage"], MemFS.Directory)]
           eq_refl eq_refl eq_refl eq_refl eq_refl eq_refl eq_refl).
Defined.

Lemma rename_to_same_name_is_refused_witness :
  @renameFile sample_host MemFS.t MemFS.backend sample_rename_same sample_world_with_files
  = (Ok tt,
     after_response (host := sample_host)
       (error_response "rename" "Destination already exists") sample_world_with_files).
Proof.
  exact (rename_to_same_name_is_refused (host := sample_host) (backend := MemFS.backend)
           sample_rename_same sample_world_with_files ["./storage"; ""; "a.txt"]
           eq_refl eq_refl eq_refl eq_refl).
Defined.

Lemma rename_of_missing_source_is_refused_witness :
  @renameFile sample_host MemFS.t MemFS.backend sample_rename_free sample_world
  = (Ok tt,
     after_response (host := sample_host)
       (error_response "rename" "Source file/folder not found") sample_world).
Proof.
  exact (rename_of_missing_source_is_refused (host := sample_host) (backend := MemFS.backend)
           sample_rename_free sample_world
           ["./storage"; ""; "a.txt"] ["./storage"; ""; "c.txt"] MemFS.ENOENT
           eq_refl eq_refl eq_refl eq_refl eq_refl).
Defined.

Lemma sample_files_described :
  Forall2
    (fun entry stats =>
       MemFS.stat (Path.join_strings [Path.join_strings ["./storage"; ""]; name entry])
         sample_files
       = Ok stats)
    [{| name := "b.txt"; dirent_isDirectory := false |};
     {| name := "a.txt"; dirent_isDirectory := false |}]
    [MemFS.stats_of (MemFS.File [x42]);
     MemFS.stats_of (MemFS.File [x48; x65; x6c; x6c; x6f])].
Proof. repeat constructor. Defined.

Lemma listFiles_describes_every_entry_witness :
  @listFiles sample_host MemFS.t MemFS.backend sample_list sample_world_with_files
  = (Ok tt,
     after_response (host := sample_host)
       (list_success sample_list
          [entry_description {| name := "b.txt"; dirent_isDirectory := false |}
             (MemFS.stats_of (MemFS.File [x42]));
           entry_description {| name := "a.txt"; dirent_isDirectory := false |}
             (MemFS.stats_of (MemFS.File [x48; x65; x6c; x6c; x6f]))])
       sample_world_with_files).
Proof.
  exact (proj1 (listFiles_describes_every_entry
                  (host := sample_host) (backend := MemFS.backend)
                  sample_list sample_world_with_files ["./storage"; ""] _ _
                  eq_refl eq_refl eq_refl sample_files_described)).
Defined.

Lemma listFiles_reports_what_it_cannot_read_witness :
  @listFiles sample_host MemFS.t MemFS.backend sample_list sample_world
  = (Ok tt,
     after_response (host := sample_host)
       (error_response "list" "Directory not found") sample_world).
Proof.
  exact (proj1 (listFiles_reports_what_it_cannot_read
                  (host := sample_host) (backend := MemFS.backend)
                  sample_list sample_world ["./storage"; ""] eq_refl)
               MemFS.ENOENT eq_refl).
Defined.

Lemma five_is_not_a_string : not_a_string (JNum 5%float).
Proof. intros s. discriminate. Defined.

Lemma non_string_path_is_reported_witness :
  @listFiles sample_host MemFS.t MemFS.backend sample_list_numbered sample_world_with_files
  = (Ok tt,
     after_response (host := sample_host)
       (error_response "list"
          ("Error listing files: The " ++ Json.quoted "path"
           ++ " argument must be of type string. Received type number (5)")%string)
       sample_world_with_files).
Proof.
  exact (proj1 (non_string_path_is_reported
                  (host := sample_host) (backend := MemFS.backend)
                  sample_list_numbered sample_world_with_files (JNum 5%float)
                  eq_refl eq_refl five_is_not_a_string)).
Defined.

Lemma storage_is_not_dots : "storage" <> "..".
Proof. discriminate. Defined.

Lemma outside_is_plain : PathShape.plain "outside".
Proof. repeat split; discriminate. Defined.

Lemma paths_can_leave_the_storage_root_witness :
  Path.join_strings ["./storage"; ".."; "outside"] = "outside" /\
  @createDirectory sample_host MemFS.t MemFS.backend sample_mkdir_outside sample_world
  = (Ok tt,
     after_response (host := sample_host) (mkdir_success sample_mkdir_outside)
       (with_storage [(["outside"], MemFS.Directory)] sample_world)).
Proof.
  exact (paths_can_leave_the_storage_root
           (host := sample_host) (backend := MemFS.backend)
           sample_mkdir_outside sample_world "storage" "outside"
           [(["outside"], MemFS.Directory)]
           sample_root_is_not_empty eq_refl eq_refl storage_is_not_dots outside_is_plain
           eq_refl eq_refl eq_refl).
Defined.

Lemma saveFile_reports_storage_errors_witness :
  MemFS.mkdir_recursive (Path.join_strings ["./storage"; ""]) sample_blocked
  = (Throw MemFS.EEXIST, sample_blocked) /\
  @saveFile sample_host MemFS.t MemFS.backend (sample_upload "SGVsbG8=")
    (sample_world_on sample_blocked)
  = (Ok tt,
     after_response (host := sample_host)
       (error_response "upload" "Error saving file: EEXIST: file already exists")
       (with_storage sample_blocked (sample_world_on sample_blocked))).
Proof.
  split; [reflexivity |].
  exact (saveFile_reports_storage_errors (host := sample_host) (backend := MemFS.backend)
           (sample_upload "SGVsbG8=") (sample_world_on sample_blocked)
           "SGVsbG8=" "" "a.txt" (Throw MemFS.EEXIST) sample_blocked
           hello_is_not_empty a_txt_is_not_empty eq_refl eq_refl eq_refl eq_refl).
Defined.

Lemma cleanupTempFolder_sweeps_until_failure_witness :
  MemFS.readdir (Path.join_strings ["./storage"; TEMP_FOLDER_NAME]) sample_temp
  = Ok [{| name := "part"; dirent_isDirectory := true |};
        {| name := "upload.bin"; dirent_isDirectory := false |}] /\
  @cleanupTempFolder sample_host MemFS.t MemFS.backend (sample_world_on sample_temp)
  = (Ok tt,
     with_storage
       [(["storage"; "temp"], MemFS.Directory);
        (["storage"; "keep.txt"], MemFS.File [x42]);
        (["storage"], MemFS.Directory)]
       (sample_world_on sample_temp)).
Proof.
  split; [reflexivity |].
  exact (proj1 (cleanupTempFolder_sweeps_until_failure
                  (host := sample_host) (backend := MemFS.backend)
                  (sample_world_on sample_temp) _ eq_refl eq_refl)).
Defined.

Lemma dispatcher_routes_to_handlers_witness :
  @processCommand sample_host MemFS.t MemFS.backend (text_of (action_body "list")) sample_world_with_files
  = @listFiles sample_host MemFS.t MemFS.backend sample_list sample_world_with_files.
Proof.
  exact (proj1 (proj2 (dispatcher_routes_to_handlers
                         (host := sample_host) (backend := MemFS.backend)
                         (text_of (action_body "list")) sample_list sample_world_with_files
                         eq_refl eq_refl))
               eq_refl).
Defined.

Lemma download_of_unreadable_is_reported_witness :
  MemFS.readFile (Path.join_strings ["./storage"; ""; "2024"]) sample_directories
  = Throw MemFS.EISDIR /\
  @downloadFile sample_host MemFS.t MemFS.backend sample_download_folder
    (sample_world_on sample_directories)
  = (Ok tt,
     after_response (host := sample_host)
       (error_response "download"
          "Error downloading file: EISDIR: illegal operation on a directory")
       (sample_world_on sample_directories)).
Proof.
  split; [reflexivity |].
  exact (proj1 (download_of_unreadable_is_reported
                  (host := sample_host) (backend := MemFS.backend)
                  sample_download_folder (sample_world_on sample_directories)
                  ["./storage"; ""; "2024"] MemFS.EISDIR
                  eq_refl eq_refl eq_refl (or_introl eq_refl))).
Defined.

Lemma getFileInfo_reports_stats_witness :
  @getFileInfo sample_host MemFS.t MemFS.backend sample_info sample_world_with_files
  = (Ok tt,
     after_response (host := sample_host)
       (info_success sample_info (MemFS.stats_of (MemFS.File [x48; x65; x6c; x6c; x6f])))
       sample_world_with_files).
Proof.
  exact (getFileInfo_reports_stats (host := sample_host) (backend := MemFS.backend)
           sample_info sample_world_with_files ["./storage"; ""; "a.txt"]
           eq_refl eq_refl eq_refl).
Defined.

Lemma uploaded_file_info_reports_decoded_size_witness :
  exists stats,
    @getFileInfo sample_host MemFS.t MemFS.backend sample_info
      (after_response (host := sample_host)
         (upload_success (sample_upload "SGVsbG8=") (Base64.decode "SGVsbG8="))
         (with_storage sample_stored sample_world))
    = (Ok tt,
       after_response (host := sample_host) (info_success sample_info stats)
         (after_response (host := sample_host)
            (upload_success (sample_upload "SGVsbG8=") (Base64.decode "SGVsbG8="))
            (with_storage sample_stored sample_world))) /\
    size stats = 5.
Proof.
  destruct (uploaded_file_info_reports_decoded_size
              (host := sample_host) (laws := MemFSFacts.laws)
              (sample_upload "SGVsbG8=") sample_info sample_world
              "SGVsbG8=" "" "a.txt" [(["storage"], MemFS.Directory)] sample_stored
              hello_is_not_empty a_txt_is_not_empty sample_root_is_not_empty
              eq_refl eq_refl eq_refl eq_refl eq_refl eq_refl eq_refl)
    as (stats & _ & H2 & H3 & _).
  exists stats. split; [exact H2 | exact H3].
Defined.

Lemma hello_bytes_not_empty : [x48; x65; x6c; x6c; x6f] <> [].
Proof. discriminate. Defined.

Lemma upload_of_encoded_bytes_stores_them_witness :
  Base64.encode [x48; x65; x6c; x6c; x6f] = "SGVsbG8=" /\
  @saveFile sample_host MemFS.t MemFS.backend (sample_upload "SGVsbG8=") sample_world
  = (Ok tt,
     after_response (host := sample_host)
       (upload_success (sample_upload "SGVsbG8=") [x48; x65; x6c; x6c; x6f])
       (with_storage sample_stored sample_world)).
Proof.
  split; [reflexivity |].
  exact (proj1 (upload_of_encoded_bytes_stores_them
                  (host := sample_host) (backend := MemFS.backend)
                  (sample_upload "SGVsbG8=") sample_world [x48; x65; x6c; x6c; x6f]
                  "" "a.txt" [(["storage"], MemFS.Directory)] sample_stored
                  hello_bytes_not_empty a_txt_is_not_empty
                  eq_refl eq_refl eq_refl eq_refl eq_refl)).
Defined.

End FurtherSamples.
